(** * js-functions: the page builder and its embedded chart functions

    A shallow embedding of [page-builder.js]: the colour helper, the
    multi-scale normalisation, the pie labels, the row model of the data
    table, the dependency guards of the renderers and the counters and
    document of the [PageBuilder] class, with the properties that the
    design document states about them. *)

From Stdlib Require Import QArith Qminmax Qabs Lqa Lia.
From Stdlib Require Import DecimalString Ascii.
From stdpp Require Import gmap strings list pretty.

Set Default Proof Using "Type".
Set Warnings "-register-all".

(** ** JavaScript numbers

    A number is a finite value, one of the two infinities, or NaN.  Finite
    values are exact rationals: rounding and the sign of zero are not
    modelled. *)

Inductive jsnum : Type :=
  | Fin (q : Q)
  | PInf
  | NInf
  | NaN.

Module Num.

Definition is_fin (a : jsnum) : bool :=
  match a with Fin _ => true | _ => false end.

(** [a === b] on numbers. *)
Definition strict_eq (a b : jsnum) : bool :=
  match a, b with
  | Fin x, Fin y => Qeq_bool x y
  | PInf, PInf | NInf, NInf => true
  | _, _ => false
  end.

(** [a <= b]; every comparison with NaN is false. *)
Definition le (a b : jsnum) : bool :=
  match a, b with
  | NaN, _ | _, NaN => false
  | NInf, _ | _, PInf => true
  | Fin x, Fin y => Qle_bool x y
  | _, _ => false
  end.

Definition ge (a b : jsnum) : bool := le b a.

(** [a > b]. *)
Definition gt (a b : jsnum) : bool :=
  match a, b with
  | NaN, _ | _, NaN => false
  | _, PInf | NInf, _ => false
  | Fin x, Fin y => negb (Qle_bool x y)
  | _, _ => true
  end.

Definition abs (a : jsnum) : jsnum :=
  match a with
  | Fin x => Fin (Qabs x)
  | PInf | NInf => PInf
  | NaN => NaN
  end.

Definition neg (a : jsnum) : jsnum :=
  match a with
  | Fin x => Fin (- x)
  | PInf => NInf
  | NInf => PInf
  | NaN => NaN
  end.

(** The smaller and the larger of two numbers, as [Math.min] and
    [Math.max] combine their arguments: NaN wins over everything. *)
Definition min2 (a b : jsnum) : jsnum :=
  match a, b with
  | NaN, _ | _, NaN => NaN
  | _, _ => if le a b then a else b
  end.

Definition max2 (a b : jsnum) : jsnum :=
  match a, b with
  | NaN, _ | _, NaN => NaN
  | _, _ => if le a b then b else a
  end.

(** [Math.min(...xs)] and [Math.max(...xs)]: with no argument they are
    [Infinity] and [-Infinity]. *)
Definition Math_min (xs : list jsnum) : jsnum := foldr min2 PInf xs.
Definition Math_max (xs : list jsnum) : jsnum := foldr max2 NInf xs.

(** Sign of a number that is not NaN, as a comparison with zero. *)
Definition nonneg (a : jsnum) : bool := le (Fin 0) a.

Definition add (a b : jsnum) : jsnum :=
  match a, b with
  | NaN, _ | _, NaN => NaN
  | Fin x, Fin y => Fin (x + y)
  | PInf, NInf | NInf, PInf => NaN
  | PInf, _ | _, PInf => PInf
  | NInf, _ | _, NInf => NInf
  end.

Definition mul (a b : jsnum) : jsnum :=
  match a, b with
  | NaN, _ | _, NaN => NaN
  | Fin x, Fin y => Fin (x * y)
  | Fin x, i | i, Fin x =>
      if Qeq_bool x 0 then NaN
      else if Qle_bool 0 x then i else neg i
  | i, j => if strict_eq i j then PInf else NInf
  end.

Definition div (a b : jsnum) : jsnum :=
  match a, b with
  | NaN, _ | _, NaN => NaN
  | Fin x, Fin y =>
      if Qeq_bool y 0 then
        (if Qeq_bool x 0 then NaN
         else if Qle_bool 0 x then PInf else NInf)
      else Fin (x / y)
  | Fin _, _ => Fin 0
  | i, Fin y => if Qle_bool 0 y then i else neg i
  | _, _ => NaN
  end.

(** Two numbers denote the same value. *)
Definition equiv (a b : jsnum) : Prop :=
  match a, b with
  | Fin x, Fin y => x == y
  | PInf, PInf | NInf, NInf | NaN, NaN => True
  | _, _ => False
  end.

End Num.

Infix "≈" := Num.equiv (at level 70, no associativity).

(** ** Colour configuration *)

Module CHART_COLORS.
Definition primary : string := "#3498db".
Definition secondary : string := "#2ecc71".
Definition accent : string := "#f39c12".
Definition palette : list string :=
  [ "#3498db"; "#2ecc71"; "#f39c12"; "#e74c3c"; "#9b59b6";
    "#1abc9c"; "#34495e"; "#f1c40f"; "#e67e22"; "#95a5a6";
    "#2980b9"; "#27ae60"; "#d35400"; "#c0392b"; "#8e44ad" ].
Module gender.
Definition male : string := "#4a90e2".
Definition female : string := "#50e3c2".
End gender.
End CHART_COLORS.

(** [xs[i]] on an array of strings; [undefined] out of range. *)
Definition palette_at (i : nat) : option string :=
  CHART_COLORS.palette !! (i mod length CHART_COLORS.palette).

(** ** The store of numeric arrays

    Arrays are objects: a dataset holds a reference to its [data] array, and
    the normalised dataset keeps that same reference as [originalData]. *)

Definition loc := nat.
Abbreviation store := (gmap nat (list jsnum)).

Definition array_of (σ : store) (r : loc) : list jsnum := default [] (σ !! r).

Definition array_length (σ : store) (r : loc) : nat := length (array_of σ r).

(** [a[i]] where a number is expected: [undefined], which an index out of
    range yields, becomes NaN in [Math.min], [Math.max] and the arithmetic. *)
Definition array_get (σ : store) (r : loc) (i : nat) : jsnum :=
  default NaN (array_of σ r !! i).

(** [a.push(x)] *)
Definition array_push (σ : store) (r : loc) (x : jsnum) : store :=
  alter (λ a, a ++ [x]) r σ.

(** [const a = []] *)
Definition array_new (σ : store) : loc * store :=
  let r := fresh (dom σ) in (r, <[r := []]> σ).

Record dataset := {
  label : string;
  data : loc;
  backgroundColor : option string
}.

Record normalized_dataset := {
  n_label : string;
  n_data : loc;
  n_originalData : loc;
  n_backgroundColor : option string
}.

(** ** createMultiScaleBarChart: the normalisation *)

(** The four branches of the loop body. *)
Definition normalize_value (min max v : jsnum) : jsnum :=
  if Num.strict_eq min max then Fin 50
  else if Num.ge min (Fin 0) then Num.mul (Num.div v max) (Fin 100)
  else if Num.le max (Fin 0) then
    Num.mul (Num.div v (Num.abs min)) (Fin 100)
  else
    let maxAbs := Num.Math_max [Num.abs min; Num.abs max] in
    Num.add (Num.mul (Num.div v maxAbs) (Fin 50)) (Fin 50).

(** One turn of [for (let i = 0; i < originalData.length; i++)]. *)
Definition loop_body (datasets : list dataset) (originalData normalizedData : loc)
    (σ : store) (i : nat) : store :=
  let valuesForThisVariable := map (λ ds, array_get σ (data ds) i) datasets in
  let min := Num.Math_min valuesForThisVariable in
  let max := Num.Math_max valuesForThisVariable in
  array_push σ normalizedData
    (normalize_value min max (array_get σ originalData i)).

(** [dataset.backgroundColor || CHART_COLORS.palette[...]]: the empty string
    is falsy. *)
Definition color_or_palette (c : option string) (datasetIndex : nat) : option string :=
  match c with
  | Some s => if decide (s = "") then palette_at datasetIndex else Some s
  | None => palette_at datasetIndex
  end.

(** The callback of [datasets.map]. The loop only pushes onto the array it
    has just created, so the bound [originalData.length] is the same at every
    turn. *)
Definition normalize_dataset (datasets : list dataset) (σ : store)
    (datasetIndex : nat) (ds : dataset) : store * normalized_dataset :=
  let '(normalizedData, σ0) := array_new σ in
  let originalData := data ds in
  let σ1 := foldl (loop_body datasets originalData normalizedData) σ0
              (seq 0 (array_length σ0 originalData)) in
  (σ1, {| n_label := label ds;
          n_data := normalizedData;
          n_originalData := originalData;
          n_backgroundColor := color_or_palette (backgroundColor ds) datasetIndex |}).

Fixpoint map_datasets (datasets : list dataset) (σ : store) (datasetIndex : nat)
    (rest : list dataset) : store * list normalized_dataset :=
  match rest with
  | [] => (σ, [])
  | ds :: rest' =>
      let '(σ1, nd) := normalize_dataset datasets σ datasetIndex ds in
      let '(σ2, nds) := map_datasets datasets σ1 (S datasetIndex) rest' in
      (σ2, nd :: nds)
  end.

Definition normalizedDatasets (σ : store) (datasets : list dataset)
  : store * list normalized_dataset :=
  map_datasets datasets σ 0 datasets.

(** ** getColors *)

(** [for (let i = 0; i < count; i++) colors.push(palette[i % palette.length])],
    for a count that is a natural number, as every caller passes
    ([data.length]). *)
Definition getColors_loop (count : nat) : list (option string) :=
  foldl (λ colors i, colors ++ [palette_at i]) [] (seq 0 count).

Definition getColors (count : nat) (type : string) : list (option string) :=
  if decide (type = "gender") then
    [Some CHART_COLORS.gender.male; Some CHART_COLORS.gender.female]
  else getColors_loop count.

(** ** JavaScript values of the table and of the chart inputs *)

Inductive jsval : Type :=
  | VUndef
  | VNull
  | VNum (n : jsnum)
  | VStr (s : string)
  | VArr (items : list jsval)
  | VObj (fields : list (string * jsval)).

Inductive error : Type :=
  | TypeError
  | ReferenceError
  | SyntaxError
  | Error (message : string).

Inductive result (A : Type) : Type :=
  | Ok (a : A)
  | Throw (e : error).
Arguments Ok {A} a.
Arguments Throw {A} e.

#[global] Instance result_bind : MBind result := λ A B f m,
  match m with
  | Ok a => f a
  | Throw e => Throw e
  end.

(** [xs.map(f)] for a callback that may throw: the first exception ends
    the traversal. *)
Fixpoint map_result {A B} (f : A → result B) (xs : list A) : result (list B) :=
  match xs with
  | [] => Ok []
  | x :: xs' => y ← f x; ys ← map_result f xs'; Ok (y :: ys)
  end.

Definition truthy (v : jsval) : bool :=
  match v with
  | VUndef | VNull => false
  | VNum (Fin q) => negb (Qeq_bool q 0)
  | VNum NaN => false
  | VNum _ => true
  | VStr s => negb (String.eqb s "")
  | VArr _ | VObj _ => true
  end.

(** [a || b] *)
Definition js_or (a b : jsval) : jsval := if truthy a then a else b.

Fixpoint assoc (k : string) (fields : list (string * jsval)) : jsval :=
  match fields with
  | [] => VUndef
  | (k', v) :: rest => if String.eqb k k' then v else assoc k rest
  end.

(** [v.k] for one of the keys [label], [name], [key], [value], which no
    array, string or number has on its own: reading a property of
    [undefined] or [null] throws. *)
Definition get_prop (v : jsval) (k : string) : result jsval :=
  match v with
  | VUndef | VNull => Throw TypeError
  | VObj fields => Ok (assoc k fields)
  | VNum _ | VStr _ | VArr _ => Ok VUndef
  end.

(** ** createPieChart: the slice labels *)

Section PieChart.

(** [Number.prototype.toFixed(1)] *)
Variable toFixed1 : jsnum → string.

(** [labels.map((label, i) => ({ label, value: data[i] }))]; [value] is
    [undefined] ([None]) where [data] is shorter than [labels]. *)
Definition pieData (labels : list string) (data : list jsnum)
  : list (string * option jsnum) :=
  imap (λ i label, (label, data !! i)) labels.

(** The text of a slice:
    [d.data.value > 5 ? `${d.data.value.toFixed(1)}%` : '']. *)
Definition slice_text (value : option jsnum) : string :=
  match value with
  | Some v => if Num.gt v (Fin 5) then toFixed1 v +:+ "%" else ""
  | None => ""
  end.

(** [d3.pie().sort(null)] keeps the slices in the order of [pieData]. *)
Definition slice_texts (labels : list string) (data : list jsnum) : list string :=
  map (λ d, slice_text d.2) (pieData labels data).

End PieChart.

(** The share of a value in the total of the (finite) slice values, in
    percent. *)
Definition total (data : list Q) : Q := foldr Qplus 0%Q data.
Definition share (data : list Q) (v : Q) : Q := (v / total data * 100)%Q.

(** The labels of a pie follow the shares: the label of a slice is empty
    exactly when its share of the total is below 5 percent. *)
Definition label_follows_share (toFixed1 : jsnum → string) (data : list Q) : Prop :=
  ∀ i v, data !! i = Some v →
    slice_text toFixed1 (Some (Fin v)) = "" ↔ (share data v < 5)%Q.

(** ** createDataTable: the row model and the cell texts *)

Definition isArray (v : jsval) : bool :=
  match v with VArr _ => true | _ => false end.

(** [typeof v === 'object'] *)
Definition typeof_object (v : jsval) : bool :=
  match v with VNull | VArr _ | VObj _ => true | _ => false end.

(** [xs[i]] *)
Definition index (xs : list jsval) (i : nat) : jsval := default VUndef (xs !! i).

(** The row model [tableData]. [data] is an array; [labels] is whatever the
    caller passed, possibly nothing. *)
Definition tableData (labels : jsval) (data : list jsval) : result (list jsval) :=
  if isArray (index data 0) then Ok data
  else if typeof_object (index data 0) then
    map_result (λ item,
        l ← get_prop item "label";
        n ← get_prop item "name";
        k ← get_prop item "key";
        v ← get_prop item "value";
        Ok (VArr [js_or (js_or l n) k; v])) data
  else
    match labels with
    | VArr ls => Ok (imap (λ i label, VArr [label; index data i]) ls)
    | _ => Throw TypeError
    end.

Section DataTable.

Variable toLocaleString : jsnum → string.
Variable toFixed1 : jsnum → string.

(** The [formatValue] option when it is a function. *)
Variable formatValue : option (jsval → nat → nat → jsval).
Variable showIndex : bool.

(** [cellData % 1 !== 0] on a number. *)
Definition has_fraction (n : jsnum) : bool :=
  match n with
  | Fin q => negb (Z.eqb (Z.pos (Qden (Qred q))) 1)
  | _ => true
  end.

(** What is passed to [cell.text] for cell [j] of row [i]. *)
Definition displayValue (i j : nat) (cellData : jsval) : jsval :=
  match formatValue, j with
  | Some f, S _ => f cellData i j
  | _, _ =>
      match cellData with
      | VNum n =>
          if Num.ge n (Fin 1000) then VStr (toLocaleString n)
          else if has_fraction n then VStr (toFixed1 n)
          else cellData
      | _ => cellData
      end
  end.

(** The index cell of row [i], when [showIndex] is set. *)
Definition index_cell (i : nat) : list jsval :=
  if showIndex then [VNum (Fin (inject_Z (Z.of_nat (i + 1))))] else [].

(** The texts of one [tr]. The row and its index cell are appended before
    [rowData.forEach] is evaluated; a row that is not an array has no
    [forEach]. *)
Definition render_row (i : nat) (rowData : jsval) : list jsval * option error :=
  match rowData with
  | VArr cells => (index_cell i ++ imap (displayValue i) cells, None)
  | _ => (index_cell i, Some TypeError)
  end.

(** The cells of row [i] when it is the array [cells]. *)
Definition row_cells (i : nat) (cells : list jsval) : list jsval :=
  index_cell i ++ imap (displayValue i) cells.

(** [tableData.forEach]: the rows drawn, and the exception that ended the
    traversal if there was one. *)
Fixpoint render_rows_from (i : nat) (rows : list jsval)
  : list (list jsval) * option error :=
  match rows with
  | [] => ([], None)
  | r :: rest =>
      match render_row i r with
      | (tr, None) =>
          let '(trs, e) := render_rows_from (S i) rest in (tr :: trs, e)
      | (tr, Some e) => ([tr], Some e)
      end
  end.

(** The body rows of the table drawn by [createDataTable]. *)
Definition table_rows (labels : jsval) (data : list jsval)
  : list (list jsval) * option error :=
  match tableData labels data with
  | Ok rows => render_rows_from 0 rows
  | Throw e => ([], Some e)
  end.

(** [String(v)], for a value that is a number, an array or an object. *)
Variable toString : jsval → string.

(** The text content that [cell.text(v)] leaves in a cell: [undefined] and
    [null] clear the cell, any other value is assigned to [textContent]. *)
Definition cell_text (v : jsval) : string :=
  match v with
  | VUndef | VNull => ""
  | VStr s => s
  | VNum _ | VArr _ | VObj _ => toString v
  end.

(** The rendered row content: the text of every cell of the body rows, and
    the exception that ended the drawing if there was one. *)
Definition rendered_rows (labels : jsval) (data : list jsval)
  : list (list string) * option error :=
  let '(rows, e) := table_rows labels data in (map (map cell_text) rows, e).

End DataTable.

(** The three input shapes of a logical table of (label, value) rows. *)
Inductive scalar : Type :=
  | SNum (n : jsnum)
  | SStr (s : string).

Definition scalar_val (s : scalar) : jsval :=
  match s with SNum n => VNum n | SStr s => VStr s end.

Definition parallel_labels (rows : list (string * scalar)) : jsval :=
  VArr (map (λ r, VStr r.1) rows).
Definition parallel_data (rows : list (string * scalar)) : list jsval :=
  map (λ r, scalar_val r.2) rows.
Definition pair_rows (rows : list (string * scalar)) : list jsval :=
  map (λ r, VArr [VStr r.1; scalar_val r.2]) rows.
Definition keyed_records (rows : list (string * scalar)) : list jsval :=
  map (λ r, VObj [("label", VStr r.1); ("value", scalar_val r.2)]) rows.

(** The values of the normalised series, in the order of the datasets. *)
Definition normalized_values (σ : store) (datasets : list dataset) : list (list jsnum) :=
  let '(σ', normalized) := normalizedDatasets σ datasets in
  map (λ nd, array_of σ' (n_data nd)) normalized.

(** The values at category position [i] across all series, and the number
    the loop pushes for the series whose array is [originalData]. *)
Definition column (σ : store) (datasets : list dataset) (i : nat) : list jsnum :=
  map (λ ds, array_get σ (data ds) i) datasets.

Definition normalized_at (σ : store) (datasets : list dataset) (originalData : loc)
    (i : nat) : jsnum :=
  normalize_value (Num.Math_min (column σ datasets i))
    (Num.Math_max (column σ datasets i)) (array_get σ originalData i).

(** Every dataset refers to an array of the store. *)
Definition wf_datasets (σ : store) (datasets : list dataset) : Prop :=
  Forall (λ ds, is_Some (σ !! data ds)) datasets.

(** The datasets hold the finite series [series], in order. *)
Definition holds_series (σ : store) (datasets : list dataset) (series : list (list Q))
  : Prop :=
  Forall2 (λ ds s, σ !! data ds = Some (Fin <$> s)) datasets series.

(** What [datasets.map] returns, dataset by dataset. *)
Definition normalized_of (σ0 σ' : store) (datasets : list dataset)
    (ds : dataset) (nd : normalized_dataset) : Prop :=
  n_label nd = label ds
  ∧ n_originalData nd = data ds
  ∧ σ0 !! n_data nd = None
  ∧ σ' !! n_data nd
    = Some (map (normalized_at σ0 datasets (data ds))
              (seq 0 (array_length σ0 (data ds)))).

(** *** The normalisation as the design document words it

    Over exact rationals: minimum and maximum of the column, then the four
    cases. *)
Fixpoint Qmin_list (col : list Q) : Q :=
  match col with
  | [] => 0%Q
  | x :: xs => match xs with [] => x | _ => Qmin x (Qmin_list xs) end
  end.

Fixpoint Qmax_list (col : list Q) : Q :=
  match col with
  | [] => 0%Q
  | x :: xs => match xs with [] => x | _ => Qmax x (Qmax_list xs) end
  end.

Definition spec_branches (min max value : Q) : Q :=
  (if Qeq_bool min max then 50
   else if Qle_bool 0 min then value / max * 100
   else if Qle_bool max 0 then value / Qabs min * 100
   else value / Qmax (Qabs min) (Qabs max) * 50 + 50)%Q.

Definition spec_normalized (col : list Q) (value : Q) : Q :=
  spec_branches (Qmin_list col) (Qmax_list col) value.

(** The values of the series at position [i]. *)
Definition series_column (series : list (list Q)) (i : nat) : list Q :=
  map (λ s, default 0%Q (s !! i)) series.

(** Two series over one store, for the worked examples. *)
Definition two_series : list dataset :=
  [ {| label := "A"; data := 0; backgroundColor := None |};
    {| label := "B"; data := 1; backgroundColor := None |} ].

Definition store_of (a b : list Q) : store :=
  <[0 := Fin <$> a]> (<[1 := Fin <$> b]> ∅).

(** Every normalised value of the chart is a finite number of [0, 100]. *)
Definition all_within_0_100 (σ : store) (datasets : list dataset) : Prop :=
  ∀ k arr i x, normalized_values σ datasets !! k = Some arr → arr !! i = Some x →
    ∃ q, x = Fin q ∧ (0 <= q)%Q ∧ (q <= 100)%Q.

(** The three shapes of one logical table give one row model; [labels] is
    what the caller passes along with pair rows or keyed records. *)
Definition same_row_model (labels : jsval) (rows : list (string * scalar)) : Prop :=
  tableData labels (pair_rows rows)
  = tableData (parallel_labels rows) (parallel_data rows)
  ∧ tableData labels (keyed_records rows)
    = tableData (parallel_labels rows) (parallel_data rows).

(** The series with the value at each position [i] multiplied by [c i]: the
    same measurements in other units. *)
Definition rescale (c : nat → Q) (s : list Q) : list Q :=
  imap (λ i v, (c i * v)%Q) s.

(** The label of a row as the record shape has it in the row model:
    [item.label || item.name || item.key] of a record with an empty label
    and neither [name] nor [key]. *)
Definition record_label (l : string) : jsval :=
  if decide (l = "") then VUndef else VStr l.

Definition record_rows (rows : list (string * scalar)) : list jsval :=
  map (λ r, VArr [record_label r.1; scalar_val r.2]) rows.

(** The callback of [data.map] in the record branch of [tableData]. *)
Definition record_row (item : jsval) : result jsval :=
  l ← get_prop item "label";
  n ← get_prop item "name";
  k ← get_prop item "key";
  v ← get_prop item "value";
  Ok (VArr [js_or (js_or l n) k; v]).

(** ** The chart functions and the page they draw on

    The renderers find their drawing surface by element id, draw with the
    charting library, and append their tooltip and context menu to the body.
    What the library itself computes (scales, paths, axes) is left out: a
    drawing is recorded as the data bound to its marks. *)

Inductive level : Type := LogLevel | WarnLevel | ErrorLevel.

(** The global [d3]: no such binding, a binding whose value is [undefined],
    or the loaded library. *)
Inductive d3_global : Type := D3Undeclared | D3Undefined | D3Loaded.

Inductive visual : Type :=
  | GroupedBars (groups : list (list (string * jsval * jsval)))
  | Bars (bars : list (jsnum * option string * option string))
  | Slices (slices : list (string * option jsnum * string))
  | Rings (slices : list (string * option jsnum))
  | Table (rows : list (list jsval)).

Inductive overlay : Type :=
  | Tooltip
  | ContextMenu (id : string).

(** The page: [surfaces] are the elements that carry an id, none of them
    inside another, each with the drawings it holds; [overlays] are the
    tooltips and context menus that the chart functions have appended to
    the body, which stand after every surface in the document. *)
Record page := {
  console : list (level * string);
  d3 : d3_global;
  surfaces : gmap string (list visual);
  overlays : list overlay
}.

Inductive retval : Type :=
  | RNull
  | RHandles.

Definition log (l : level) (msg : string) (p : page) : page :=
  {| console := console p ++ [(l, msg)]; d3 := d3 p;
     surfaces := surfaces p; overlays := overlays p |}.

(** *** Element ids as selectors

    [d3.select('#' + id)] hands the string ['#' + id] to
    [document.querySelector]. When [id] is an identifier (here: ASCII
    letters, digits, [_] and [-], with a letter or [_] in front, or a
    hyphen and then a letter or [_]), the selector is that of the first
    element with this id. With nothing or a digit after the [#] there
    is no selector, and [querySelector] throws a [SyntaxError]. Any other
    string is a selector of another meaning ([a.b], [a b], [a, b]), or none:
    what it matches is for the browser to say. *)
Definition is_letter (c : Ascii.ascii) : bool :=
  let n := Ascii.nat_of_ascii c in
  (Nat.leb 65 n && Nat.leb n 90) || (Nat.leb 97 n && Nat.leb n 122).

Definition is_digit (c : Ascii.ascii) : bool :=
  let n := Ascii.nat_of_ascii c in Nat.leb 48 n && Nat.leb n 57.

Definition name_start (c : Ascii.ascii) : bool := is_letter c || Ascii.eqb c "_"%char.

Definition name_char (c : Ascii.ascii) : bool :=
  name_start c || is_digit c || Ascii.eqb c "-"%char.

Fixpoint all_chars (P : Ascii.ascii → bool) (s : string) : bool :=
  match s with
  | EmptyString => true
  | String c rest => P c && all_chars P rest
  end.

Definition css_identifier (id : string) : bool :=
  match id with
  | EmptyString => false
  | String c rest =>
      if name_start c then all_chars name_char rest
      else if Ascii.eqb c "-"%char then
        match rest with
        | EmptyString => false
        | String c' rest' => name_start c' && all_chars name_char rest'
        end
      else false
  end.

Inductive id_reading : Type :=
  | IdSelector
  | NoSelector
  | OtherSelector.

Definition read_id (id : string) : id_reading :=
  if css_identifier id then IdSelector
  else match id with
       | EmptyString => NoSelector
       | String c _ => if is_digit c then NoSelector else OtherSelector
       end.

(** What a chart function makes of the page when ['#' + id] is a selector
    that the model does not read: the browser is asked. The function is
    given the id, the marks to be drawn and the exception, if any, that
    ends the drawing. *)
Class Browser :=
  other_selector : string → visual → option error → page → page * result retval.

(** [container.selectAll('*').remove()] and the appended drawing, for a
    container id that is an identifier: a selection that matches no element
    draws nothing. *)
Definition draw_on (containerId : string) (v : visual) (p : page) : page :=
  {| console := console p; d3 := d3 p;
     surfaces := alter (λ _, [v]) containerId (surfaces p);
     overlays := overlays p |}.

Definition is_menu (id : string) (o : overlay) : bool :=
  match o with ContextMenu id' => String.eqb id id' | Tooltip => false end.

(** [selection.remove()] on the first element with the id. *)
Fixpoint remove_first (id : string) (os : list overlay) : list overlay :=
  match os with
  | [] => []
  | o :: rest => if is_menu id o then rest else o :: remove_first id rest
  end.

Definition createTooltip (p : page) : page :=
  {| console := console p; d3 := d3 p; surfaces := surfaces p;
     overlays := overlays p ++ [Tooltip] |}.

(** [d3.select('#' + id).remove()] for an identifier: the first element
    with the id leaves the document, a surface before an overlay. *)
Definition remove_by_id (id : string) (p : page) : page :=
  match surfaces p !! id with
  | Some _ =>
      {| console := console p; d3 := d3 p; surfaces := delete id (surfaces p);
         overlays := overlays p |}
  | None =>
      {| console := console p; d3 := d3 p; surfaces := surfaces p;
         overlays := remove_first id (overlays p) |}
  end.

(** The context menu of a chart: the element that had its id is removed,
    and the menu appended to the body. *)
Definition add_menu (id : string) (p : page) : page :=
  let p' := remove_by_id id p in
  {| console := console p'; d3 := d3 p'; surfaces := surfaces p';
     overlays := overlays p' ++ [ContextMenu id] |}.

Definition addRightClickCopy (containerId : string) : page → page :=
  add_menu ("context-menu-" +:+ containerId).

Definition addRightClickCopyTable (containerId : string) : page → page :=
  add_menu ("context-menu-table-" +:+ containerId).

(** The prologue shared by the seven chart functions:
    [if (!d3) { console.error('D3.js not loaded'); return null; }].
    Reading a global that is not declared throws. *)
Definition with_d3 (p : page) (body : page → page * result retval)
  : page * result retval :=
  match d3 p with
  | D3Undeclared => (p, Throw ReferenceError)
  | D3Undefined => (log ErrorLevel "D3.js not loaded" p, Ok RNull)
  | D3Loaded => body p
  end.

Section ChartFunctions.

Context {browser : Browser}.

(** A chart body: [setupSVG], which selects ['#' + containerId] first of
    all, then [createTooltip], the marks, [addRightClickCopy],
    [return { svg, tooltip, contextMenu }]. *)
Definition chart_body (containerId : string) (v : visual) (p : page)
  : page * result retval :=
  match read_id containerId with
  | IdSelector =>
      (addRightClickCopy containerId (createTooltip (draw_on containerId v p)),
       Ok RHandles)
  | NoSelector => (p, Throw SyntaxError)
  | OtherSelector => other_selector containerId v None p
  end.

Definition opt_num (o : option jsnum) : jsval :=
  match o with Some n => VNum n | None => VUndef end.

(** [obj[k] = v] *)
Fixpoint set_prop (k : string) (v : jsval) (fields : list (string * jsval))
  : list (string * jsval) :=
  match fields with
  | [] => [(k, v)]
  | (k', v') :: rest =>
      if String.eqb k k' then (k, v) :: rest else (k', v') :: set_prop k v rest
  end.

(** [groupedData] of the multi-series chart: one group per label. *)
Definition groupedData (σ : store) (labels : list string) (datasets : list dataset)
  : list (list (string * jsval)) :=
  imap (λ i l,
      foldl (λ group ds,
          set_prop (label ds) (opt_num (array_of σ (data ds) !! i)) group)
        [("label", VStr l)] datasets) labels.

(** The data bound to the bars of one group. *)
Definition group_bars (seriesNames : list string) (d : list (string * jsval))
  : list (string * jsval * jsval) :=
  map (λ key, (key, assoc key d, assoc "label" d)) seriesNames.

Definition createMultiSeriesBarChart (σ : store) (containerId : string)
    (labels : list string) (datasets : list dataset) (p : page)
  : page * result retval :=
  with_d3 p (λ p,
    let seriesNames := map label datasets in
    chart_body containerId
      (GroupedBars (map (group_bars seriesNames) (groupedData σ labels datasets))) p).

(** One bar per element of [data], placed at [labels[i]]. *)
Definition createPercentageBarChart (containerId : string) (labels : list string)
    (data : list jsnum) (colorType : string) (p : page) : page * result retval :=
  with_d3 p (λ p,
    let colors :=
      if decide (colorType = "multi") then getColors (length data) "palette"
      else [Some CHART_COLORS.primary] in
    chart_body containerId
      (Bars (imap (λ i d, (d, labels !! i,
                           mjoin (colors !! (i mod length colors)))) data)) p).

Definition createMultiColorBarChart (containerId : string) (labels : list string)
    (data : list jsnum) (p : page) : page * result retval :=
  with_d3 p (λ p,
    let colors := getColors (length data) "palette" in
    chart_body containerId
      (Bars (imap (λ i d, (d, labels !! i, mjoin (colors !! i))) data)) p).

Definition createPieChart (toFixed1 : jsnum → string) (containerId : string)
    (labels : list string) (data : list jsnum) (p : page) : page * result retval :=
  with_d3 p (λ p,
    chart_body containerId
      (Slices (map (λ d, (d.1, d.2, slice_text toFixed1 d.2))
                 (pieData labels data))) p).

Definition createDoughnutChart (containerId : string) (labels : list string)
    (data : list jsnum) (p : page) : page * result retval :=
  with_d3 p (λ p, chart_body containerId (Rings (pieData labels data)) p).

Definition createComparisonBarChart (containerId : string) (labels : list string)
    (dataset1 dataset2 : list jsnum) (label1 label2 : string) (p : page)
  : page * result retval :=
  with_d3 p (λ p,
    let groups :=
      imap (λ i l,
          set_prop label2 (opt_num (dataset2 !! i))
            (set_prop label1 (opt_num (dataset1 !! i)) [("label", VStr l)]))
        labels in
    chart_body containerId
      (GroupedBars (map (group_bars [label1; label2]) groups)) p).

(** The multi-scale chart normalises first, then draws one group per label
    with the normalised value of each series. *)
Definition createMultiScaleBarChart (σ : store) (containerId : string)
    (labels : list string) (datasets : list dataset) (p : page)
  : store * page * result retval :=
  match d3 p with
  | D3Undeclared => (σ, p, Throw ReferenceError)
  | D3Undefined => (σ, log ErrorLevel "D3.js not loaded" p, Ok RNull)
  | D3Loaded =>
      let '(σ', normalized) := normalizedDatasets σ datasets in
      let groups :=
        imap (λ i l,
            foldl (λ group nd,
                set_prop (n_label nd)
                  (VObj [("normalized", opt_num (array_of σ' (n_data nd) !! i));
                         ("original", opt_num (array_of σ' (n_originalData nd) !! i))])
                  group)
              [("label", VStr l)] normalized) labels in
      let '(p', r) :=
        chart_body containerId
          (GroupedBars (map (group_bars (map n_label normalized)) groups)) p in
      (σ', p', r)
  end.

(** [createDataTable] has no such prologue: its first use of the library is
    [d3.select('#' + containerId)]. With the default [title], [headers] and
    [className]. *)
Definition createDataTable (toLocaleString toFixed1 : jsnum → string)
    (formatValue : option (jsval → nat → nat → jsval)) (showIndex : bool)
    (containerId : string) (labels : jsval) (data : list jsval) (p : page)
  : page * result retval :=
  match d3 p with
  | D3Undeclared => (p, Throw ReferenceError)
  | D3Undefined => (p, Throw TypeError)
  | D3Loaded =>
      match read_id containerId with
      | IdSelector =>
          match table_rows toLocaleString toFixed1 formatValue showIndex
                  labels data with
          | (rows, None) =>
              (addRightClickCopyTable containerId
                 (draw_on containerId (Table rows) p),
               Ok RHandles)
          | (rows, Some e) => (draw_on containerId (Table rows) p, Throw e)
          end
      | NoSelector => (p, Throw SyntaxError)
      | OtherSelector =>
          let '(rows, e) :=
            table_rows toLocaleString toFixed1 formatValue showIndex labels data in
          other_selector containerId (Table rows) e p
      end
  end.

End ChartFunctions.

Definition js_length (v : jsval) : nat :=
  match v with VArr xs => length xs | _ => 0 end.

(** A page with the library loaded and nothing logged, with one drawing
    surface. *)
Definition loaded_page : page :=
  {| console := []; d3 := D3Loaded; surfaces := {["chart-1" := []]};
     overlays := [] |}.

(** A browser that takes no selector but that of an identifier. *)
Definition strict_browser : Browser := λ _ _ _ p, (p, Throw SyntaxError).



(** The calls of the seven chart functions on one container, as functions of
    the page. *)
Definition chart_calls {browser : Browser} (toFixed1 : jsnum → string) (σ : store)
    (containerId : string)
    (labels : list string) (datasets : list dataset) (data data2 : list jsnum)
    (ty l1 l2 : string) : list (page → page * result retval) :=
  [ createMultiSeriesBarChart σ containerId labels datasets;
    createPercentageBarChart containerId labels data ty;
    createMultiColorBarChart containerId labels data;
    createPieChart toFixed1 containerId labels data;
    createComparisonBarChart containerId labels data data2 l1 l2;
    createDoughnutChart containerId labels data;
    (λ p, ((createMultiScaleBarChart σ containerId labels datasets p).1.2,
           (createMultiScaleBarChart σ containerId labels datasets p).2)) ].




(** ** The PageBuilder class and the document it builds

    The builder pastes titles, subtitles and contents into [innerHTML] and
    finds its parents with [querySelector]. The document is recorded by its
    structure: header, main area, sections, blocks, each with the strings
    it was given. That is the structure of the elements as long as those
    strings hold no markup, no class name is one of the classes that the
    builder queries, and the identifiers put into selectors are
    identifiers ([plain_report], [plain_inner] and [plain_selector] below);
    the statements about the content of a document are made for such
    inputs. Counters, body and current document do not depend on it. *)

Module PageBuilder.

(** The selectors the builder itself uses: [.report-content],
    [.section-content], [#id .section-content]; [SelOther] stands for a
    selector that matches nothing in a report. *)
Inductive selector : Type :=
  | SelReportContent
  | SelSectionContent
  | SelSectionOf (id : string)
  | SelOther.

Inductive block : Type :=
  | ExecutiveSummary (content : string)
  | KeyFinding (content : string)
  | Recommendation (priorityText content : string)
  | TextContent (content : string)
  | ContentGrid
  | ChartContainer (id className : string) (title : option string).

Record section := {
  section_id : string;
  section_className : string;
  section_title : string;
  section_subtitle : option string;
  section_content : list block
}.

Inductive child : Type :=
  | CSection (s : section)
  | CBlock (b : block).

(** The header and the [main.report-content] of a report container. *)
Record inner := {
  i_title : string;
  i_subtitle : option string;
  i_main : list child
}.

(** A report container; [c_inner] is [None] once [innerHTML = ''] has
    emptied it. *)
Record container := {
  c_className : string;
  c_inner : option inner
}.

Inductive head_node : Type :=
  | StyleBlock
  | Script (src : string).

Inductive body_node : Type :=
  | ReportContainer (r : nat)
  | Foreign (html : string).

Inductive chart_type : Type :=
  | multiSeries | percentage | multiColor | comparison
  | pie | table | multiScale | doughnut.

(** The global document, shared by every builder. Elements are objects:
    the body lists references, and a builder keeps one in
    [currentDocument]. [doc_timers] are the drawings scheduled with
    [setTimeout]. *)
Record document := {
  doc_head : list head_node;
  doc_body : list body_node;
  doc_elements : gmap nat container;
  doc_console : list (level * string);
  doc_d3 : d3_global;
  doc_timers : list (chart_type * string)
}.

Record builder := {
  isInitialized : bool;
  currentDocument : option nat;
  chartCounter : nat;
  sectionCounter : nat
}.

(** [new PageBuilder()] *)
Definition constructor : builder :=
  {| isInitialized := false; currentDocument := None;
     chartCounter := 0; sectionCounter := 0 |}.

Definition state : Type := builder * document.

(** A method: it changes the builder and the document, and returns or
    throws. *)
Definition M (A : Type) : Type := state → state * result A.

#[global] Instance M_ret : MRet M := λ A a s, (s, Ok a).
#[global] Instance M_bind : MBind M := λ A B f m s,
  match m s with
  | (s', Ok a) => f a s'
  | (s', Throw e) => (s', Throw e)
  end.

Definition throw {A} (e : error) : M A := λ s, (s, Throw e).
Definition this : M builder := λ s, (s, Ok s.1).
Definition the_document : M document := λ s, (s, Ok s.2).
Definition set_this (f : builder → builder) : M unit := λ s, ((f s.1, s.2), Ok tt).
Definition set_document (f : document → document) : M unit :=
  λ s, ((s.1, f s.2), Ok tt).

Definition with_head f (d : document) : document :=
  {| doc_head := f (doc_head d); doc_body := doc_body d;
     doc_elements := doc_elements d; doc_console := doc_console d;
     doc_d3 := doc_d3 d; doc_timers := doc_timers d |}.
Definition with_body f (d : document) : document :=
  {| doc_head := doc_head d; doc_body := f (doc_body d);
     doc_elements := doc_elements d; doc_console := doc_console d;
     doc_d3 := doc_d3 d; doc_timers := doc_timers d |}.
Definition with_elements f (d : document) : document :=
  {| doc_head := doc_head d; doc_body := doc_body d;
     doc_elements := f (doc_elements d); doc_console := doc_console d;
     doc_d3 := doc_d3 d; doc_timers := doc_timers d |}.
Definition with_console f (d : document) : document :=
  {| doc_head := doc_head d; doc_body := doc_body d;
     doc_elements := doc_elements d; doc_console := f (doc_console d);
     doc_d3 := doc_d3 d; doc_timers := doc_timers d |}.
Definition with_d3_global g (d : document) : document :=
  {| doc_head := doc_head d; doc_body := doc_body d;
     doc_elements := doc_elements d; doc_console := doc_console d;
     doc_d3 := g; doc_timers := doc_timers d |}.
Definition with_timers f (d : document) : document :=
  {| doc_head := doc_head d; doc_body := doc_body d;
     doc_elements := doc_elements d; doc_console := doc_console d;
     doc_d3 := doc_d3 d; doc_timers := f (doc_timers d) |}.

Definition with_isInitialized v (b : builder) : builder :=
  {| isInitialized := v; currentDocument := currentDocument b;
     chartCounter := chartCounter b; sectionCounter := sectionCounter b |}.
Definition with_currentDocument v (b : builder) : builder :=
  {| isInitialized := isInitialized b; currentDocument := v;
     chartCounter := chartCounter b; sectionCounter := sectionCounter b |}.
Definition with_chartCounter v (b : builder) : builder :=
  {| isInitialized := isInitialized b; currentDocument := currentDocument b;
     chartCounter := v; sectionCounter := sectionCounter b |}.
Definition with_sectionCounter v (b : builder) : builder :=
  {| isInitialized := isInitialized b; currentDocument := currentDocument b;
     chartCounter := chartCounter b; sectionCounter := v |}.

Definition console_log (l : level) (msg : string) : M unit :=
  set_document (with_console (λ c, c ++ [(l, msg)])).

(** *** Initialisation *)

(** [loadScript]: the script element is appended to the head; whether it
    loads is decided outside the program. *)
Definition loadScript (src : string) (script_loads : bool) : M unit :=
  set_document (with_head (λ h, h ++ [Script src]));;
  if script_loads then set_document (with_d3_global D3Loaded)
  else throw (Error "script error").

Definition initialize (script_loads : bool) : M unit :=
  b ← this;
  if isInitialized b then mret tt
  else λ s,
    match
      (d ← the_document;
       (match doc_d3 d with
        | D3Loaded => mret tt
        | _ => loadScript "https://cdn.jsdelivr.net/npm/d3@7" script_loads
        end);;
       set_this (with_isInitialized true);;
       console_log LogLevel "PageBuilder initialized successfully") s
    with
    | (s', Ok a) => (s', Ok a)
    | (s', Throw e) =>
        ((console_log ErrorLevel "Failed to initialize PageBuilder:" s').1,
         Throw e)
    end.

Definition ensureInitialized (script_loads : bool) : M unit :=
  b ← this;
  if isInitialized b then mret tt else initialize script_loads.

(** *** Document structure *)

Record document_config := {
  dc_title : option string;
  dc_subtitle : option string;
  dc_includeDefaultStyles : option bool;
  dc_containerClass : option string
}.

Record section_config := {
  sc_title : option string;
  sc_subtitle : option string;
  sc_className : option string;
  sc_containerId : option string
}.

Record chart_container_config := {
  cc_containerId : option string;
  cc_title : option string;
  cc_className : option string;
  cc_parentSelector : option selector
}.

(** A non-empty string is truthy. *)
Definition if_truthy (s : string) : option string :=
  if String.eqb s "" then None else Some s.

Definition addDefaultStyles : M unit :=
  set_document (with_head (λ h, h ++ [StyleBlock])).

(** [document.createElement('div')] for a report container. *)
Definition create_container (c : container) : M nat := λ s,
  let r := fresh (dom (doc_elements s.2)) in
  ((s.1, with_elements (λ m, <[r := c]> m) s.2), Ok r).

(** [createDocument]: the body is emptied, the styles added, the container
    made and appended, and kept as the current document. The content
    recorded for the container is what its template gives with a title and
    a subtitle without markup: the header and an empty main area. *)
Definition createDocument (config : document_config) : M nat :=
  let title := default "Analysis Report" (dc_title config) in
  let subtitle := default "" (dc_subtitle config) in
  let includeDefaultStyles := default true (dc_includeDefaultStyles config) in
  let containerClass := default "report-container" (dc_containerClass config) in
  set_document (with_body (λ _, []));;
  (if includeDefaultStyles then addDefaultStyles else mret tt);;
  container ← create_container
    {| c_className := containerClass;
       c_inner := Some {| i_title := title; i_subtitle := if_truthy subtitle;
                          i_main := [] |} |};
  set_document (with_body (λ b, b ++ [ReportContainer container]));;
  set_this (with_currentDocument (Some container));;
  mret container.

(** Where a selector points inside a report container: the main area, or
    the content area of the section at some position of the main area. *)
Inductive target : Type :=
  | TMain
  | TSection (position : nat).

Definition is_section (c : child) : bool :=
  match c with CSection _ => true | CBlock _ => false end.

Definition has_id (id : string) (c : child) : bool :=
  match c with
  | CSection s => String.eqb (section_id s) id
  | CBlock _ => false
  end.

(** [element.querySelector(selector)]: the first match in document order,
    or [null], in a document of plain texts where only the content areas of
    the sections have the class [section-content]: [.section-content] is
    then the content area of the first section, and [#id .section-content]
    that of the first section with the id. *)
Definition querySelector (c : container) (sel : selector) : option target :=
  match c_inner c with
  | None => None
  | Some inn =>
      match sel with
      | SelReportContent => Some TMain
      | SelSectionContent =>
          (λ x, TSection x.1) <$> list_find (λ c, is_section c = true) (i_main inn)
      | SelSectionOf id =>
          (λ x, TSection x.1) <$> list_find (λ c, has_id id c = true) (i_main inn)
      | SelOther => None
      end
  end.

(** [this.currentDocument.querySelector(selector)]; it throws when no
    document has been created. *)
Definition query (sel : selector) : M (option target) :=
  b ← this; d ← the_document;
  match currentDocument b with
  | None => throw TypeError
  | Some r => mret (c ← doc_elements d !! r; querySelector c sel)
  end.

(** [querySelector(parentSelector) || querySelector('.report-content')] *)
Definition query_or_content (sel : selector) : M (option target) :=
  t ← query sel;
  match t with
  | Some _ => mret t
  | None => query SelReportContent
  end.

Definition add_to_section (b : block) (c : child) : child :=
  match c with
  | CSection s =>
      CSection {| section_id := section_id s;
                  section_className := section_className s;
                  section_title := section_title s;
                  section_subtitle := section_subtitle s;
                  section_content := section_content s ++ [b] |}
  | CBlock _ => c
  end.

Definition with_main (f : list child → list child) (c : container) : container :=
  {| c_className := c_className c;
     c_inner := (λ inn, {| i_title := i_title inn; i_subtitle := i_subtitle inn;
                           i_main := f (i_main inn) |}) <$> c_inner c |}.

Definition update_current (f : container → container) : M unit :=
  b ← this;
  match currentDocument b with
  | None => throw TypeError
  | Some r => set_document (with_elements (alter f r))
  end.

(** [parent.appendChild(block)]; it throws when [parent] is [null]. *)
Definition append_block (parent : option target) (b : block) : M unit :=
  match parent with
  | None => throw TypeError
  | Some TMain => update_current (with_main (λ m, m ++ [CBlock b]))
  | Some (TSection k) => update_current (with_main (alter (add_to_section b) k))
  end.

(** [content.appendChild(section)] *)
Definition append_section (parent : option target) (s : section) : M unit :=
  match parent with
  | None => throw TypeError
  | Some _ => update_current (with_main (λ m, m ++ [CSection s]))
  end.

(** The default of [title] increments the counter, and only an absent
    title takes its default; the default of [containerId] reads the counter
    after that. The returned value is the [id] of the new section. *)
Definition createSection (config : section_config) : M string :=
  title ← match sc_title config with
          | Some t => mret t
          | None =>
              b ← this;
              set_this (with_sectionCounter (S (sectionCounter b)));;
              mret ("Section " +:+ pretty (S (sectionCounter b)))
          end;
  let subtitle := default "" (sc_subtitle config) in
  let className := default "section" (sc_className config) in
  b ← this;
  let containerId :=
    default ("section-" +:+ pretty (sectionCounter b)) (sc_containerId config) in
  content ← query SelReportContent;
  append_section content
    {| section_id := containerId; section_className := className;
       section_title := title; section_subtitle := if_truthy subtitle;
       section_content := [] |};;
  mret containerId.

Definition createChartContainer (config : chart_container_config) : M string :=
  containerId ← match cc_containerId config with
                | Some c => mret c
                | None =>
                    b ← this;
                    set_this (with_chartCounter (S (chartCounter b)));;
                    mret ("chart-" +:+ pretty (S (chartCounter b)))
                end;
  let title := default "" (cc_title config) in
  let className := default "chart-container" (cc_className config) in
  let parentSelector := default SelReportContent (cc_parentSelector config) in
  parent ← query_or_content parentSelector;
  append_block parent (ChartContainer containerId className (if_truthy title));;
  mret containerId.

(** *** Content *)

Definition addExecutiveSummary (content : string) (parentSelector : option selector)
  : M unit :=
  parent ← query (default SelReportContent parentSelector);
  append_block parent (ExecutiveSummary content).

Definition addKeyFinding (content : string) (parentSelector : option selector)
  : M unit :=
  parent ← query_or_content (default SelSectionContent parentSelector);
  append_block parent (KeyFinding content).

Definition addRecommendation (content : string) (priority : option string)
    (parentSelector : option selector) : M unit :=
  parent ← query_or_content (default SelSectionContent parentSelector);
  let priorityText :=
    match if_truthy (default "" priority) with
    | Some p => "<strong>" +:+ p +:+ ":</strong> "
    | None => ""
    end in
  append_block parent (Recommendation priorityText content).

Definition addTextContent (content : string) (parentSelector : option selector)
  : M unit :=
  parent ← query_or_content (default SelSectionContent parentSelector);
  append_block parent (TextContent content).

Definition createContentGrid (parentSelector : option selector) : M unit :=
  parent ← query_or_content (default SelSectionContent parentSelector);
  append_block parent ContentGrid.

(** *** Chart interface *)

Record chart_config := {
  ch_containerId : option string;
  ch_title : option string;
  ch_parentSelector : option selector
}.

(** The eight [create...Chart] methods share their shape:
    [await this.ensureInitialized()], then
    [containerId || this.createChartContainer({ title, parentSelector })],
    then the drawing is scheduled and the id returned. *)
Definition createChart (kind : chart_type) (script_loads : bool)
    (config : chart_config) : M string :=
  ensureInitialized script_loads;;
  let title := default "" (ch_title config) in
  let parentSelector := default SelSectionContent (ch_parentSelector config) in
  chartId ← match ch_containerId config ≫= if_truthy with
            | Some c => mret c
            | None =>
                createChartContainer
                  {| cc_containerId := None; cc_title := Some title;
                     cc_className := None;
                     cc_parentSelector := Some parentSelector |}
            end;
  set_document (with_timers (λ t, t ++ [(kind, chartId)]));;
  mret chartId.

Definition createMultiSeriesChart := createChart multiSeries.
Definition createPercentageChart := createChart percentage.
Definition createMultiColorChart := createChart multiColor.
Definition createComparisonChart := createChart comparison.
Definition createPieChart := createChart pie.
Definition createDataTable := createChart table.
Definition createMultiScaleChart := createChart multiScale.
Definition createDoughnutChart := createChart doughnut.

(** *** Utilities *)

Definition validateChartData (labels data : jsval) : M bool :=
  if negb (isArray labels) || negb (isArray data) then
    throw (Error "Labels and data must be arrays")
  else
    (if negb (Nat.eqb (js_length labels) (js_length data)) then
       console_log WarnLevel "Labels and data arrays have different lengths"
     else mret tt);;
    mret true.

(** [this.currentDocument.querySelectorAll('.section')]: only its
    exception is kept. *)
Definition getCurrentSection : M unit :=
  b ← this;
  match currentDocument b with
  | None => throw TypeError
  | Some _ => mret tt
  end.

(** [formatNumber], [highlightMetric] and [exportHTML] compute a string
    from their arguments or from the document and change nothing. *)
Definition formatNumber : M unit := mret tt.
Definition highlightMetric : M unit := mret tt.
Definition exportHTML : M unit := mret tt.

Definition clear (c : container) : container :=
  {| c_className := c_className c; c_inner := None |}.

(** Clear all content and reset counters. *)
Definition reset : M unit :=
  b ← this;
  (match currentDocument b with
   | Some r => set_document (with_elements (alter clear r))
   | None => mret tt
   end);;
  set_this (with_chartCounter 0);;
  set_this (with_sectionCounter 0).

(** *** buildDemographicsReport *)

Inductive content_type : Type := finding | recommendation | text.

Record content_item := {
  ct_type : content_type;
  ct_text : string;
  ct_priority : option string
}.

(** A chart entry of a report: its [type] tag, when it is one of the eight
    known ones, and the rest of its configuration. *)
Record report_chart := {
  rc_type : option chart_type;
  rc_config : chart_config
}.

Record section_data := {
  sd_title : option string;
  sd_subtitle : option string;
  sd_charts : list report_chart;
  sd_content : list content_item
}.

Record report_data := {
  rd_title : option string;
  rd_subtitle : option string;
  rd_executiveSummary : option string;
  rd_sections : list section_data
}.

Fixpoint for_each {A} (f : A → M unit) (xs : list A) : M unit :=
  match xs with
  | [] => mret tt
  | x :: rest => f x;; for_each f rest
  end.

Definition build_chart (script_loads : bool) (sectionId : string)
    (chartConfig : report_chart) : M unit :=
  let config :=
    {| ch_containerId := ch_containerId (rc_config chartConfig);
       ch_title := ch_title (rc_config chartConfig);
       ch_parentSelector := Some (SelSectionOf sectionId) |} in
  match rc_type chartConfig with
  | Some kind => createChart kind script_loads config;; mret tt
  | None => mret tt
  end.

Definition build_content (sectionId : string) (content : content_item) : M unit :=
  match ct_type content with
  | finding => addKeyFinding (ct_text content) (Some (SelSectionOf sectionId))
  | recommendation =>
      addRecommendation (ct_text content) (ct_priority content)
        (Some (SelSectionOf sectionId))
  | text => addTextContent (ct_text content) (Some (SelSectionOf sectionId))
  end.

Definition build_section (script_loads : bool) (sectionData : section_data)
  : M unit :=
  section ← createSection
    {| sc_title := sd_title sectionData; sc_subtitle := sd_subtitle sectionData;
       sc_className := None; sc_containerId := None |};
  for_each (build_chart script_loads section) (sd_charts sectionData);;
  for_each (build_content section) (sd_content sectionData).

Definition buildDemographicsReport (script_loads : bool) (reportData : report_data)
  : M (option nat) :=
  let title := default "Member Demographics Analysis" (rd_title reportData) in
  let subtitle :=
    default "Comprehensive demographic insights and recommendations"
      (rd_subtitle reportData) in
  let executiveSummary := default "" (rd_executiveSummary reportData) in
  ensureInitialized script_loads;;
  createDocument {| dc_title := Some title; dc_subtitle := Some subtitle;
                    dc_includeDefaultStyles := None;
                    dc_containerClass := None |};;
  (match if_truthy executiveSummary with
   | Some e => addExecutiveSummary e None
   | None => mret tt
   end);;
  for_each (build_section script_loads) (rd_sections reportData);;
  b ← this;
  mret (currentDocument b).

(** *** The operations of a builder *)

Inductive op : Type :=
  | Initialize (script_loads : bool)
  | LoadScript (src : string) (script_loads : bool)
  | EnsureInitialized (script_loads : bool)
  | CreateDocument (config : document_config)
  | AddDefaultStyles
  | CreateSection (config : section_config)
  | CreateChartContainer (config : chart_container_config)
  | AddExecutiveSummary (content : string) (parentSelector : option selector)
  | AddKeyFinding (content : string) (parentSelector : option selector)
  | AddRecommendation (content : string) (priority : option string)
      (parentSelector : option selector)
  | AddTextContent (content : string) (parentSelector : option selector)
  | CreateContentGrid (parentSelector : option selector)
  | CreateChart (kind : chart_type) (script_loads : bool) (config : chart_config)
  | FormatNumber
  | HighlightMetric
  | ValidateChartData (labels data : jsval)
  | GetCurrentSection
  | ExportHTML
  | Reset
  | BuildDemographicsReport (script_loads : bool) (reportData : report_data).

(** What a call hands back to its caller: an identifier, or something
    else. *)
Inductive returned : Type :=
  | Id (id : string)
  | Other.

Definition other {A} (m : M A) : M returned := m;; mret Other.

Definition exec (o : op) : M returned :=
  match o with
  | Initialize l => other (initialize l)
  | LoadScript src l => other (loadScript src l)
  | EnsureInitialized l => other (ensureInitialized l)
  | CreateDocument c => other (createDocument c)
  | AddDefaultStyles => other addDefaultStyles
  | CreateSection c => id ← createSection c; mret (Id id)
  | CreateChartContainer c => id ← createChartContainer c; mret (Id id)
  | AddExecutiveSummary c p => other (addExecutiveSummary c p)
  | AddKeyFinding c p => other (addKeyFinding c p)
  | AddRecommendation c pr p => other (addRecommendation c pr p)
  | AddTextContent c p => other (addTextContent c p)
  | CreateContentGrid p => other (createContentGrid p)
  | CreateChart k l c => id ← createChart k l c; mret (Id id)
  | FormatNumber => other formatNumber
  | HighlightMetric => other highlightMetric
  | ValidateChartData l d => other (validateChartData l d)
  | GetCurrentSection => other getCurrentSection
  | ExportHTML => other exportHTML
  | Reset => other reset
  | BuildDemographicsReport l r => other (buildDemographicsReport l r)
  end.

(** Whether a call generates its container identifier from
    [chartCounter]. *)
Definition generates_chart_id (o : op) : bool :=
  match o with
  | CreateChartContainer c =>
      match cc_containerId c with None => true | Some _ => false end
  | CreateChart _ _ c =>
      match ch_containerId c ≫= if_truthy with None => true | Some _ => false end
  | _ => false
  end.

(** The ids of the chart containers of a main area, in document order. *)
Definition block_ids (b : block) : list string :=
  match b with
  | ChartContainer id _ _ => [id]
  | _ => []
  end.

Definition child_ids (c : child) : list string :=
  match c with
  | CSection s => section_content s ≫= block_ids
  | CBlock b => block_ids b
  end.

Definition container_ids (main : list child) : list string := main ≫= child_ids.

(** The ids of the chart containers of the builder's current document. *)
Definition current_ids (s : state) : list string :=
  match r ← currentDocument s.1; c ← doc_elements s.2 !! r; c_inner c with
  | Some inn => container_ids (i_main inn)
  | None => []
  end.

(** The chart identifiers that a call has generated from [chartCounter],
    as they can be seen from outside: [createChartContainer] and the chart
    methods return theirs; [buildDemographicsReport] keeps them to itself,
    and they are the ids of the chart containers of the document that it
    has built, which starts empty and is the current document when the
    call returns. [r] is the outcome of the call and [s'] the state it
    leaves. *)
Definition generated (o : op) (r : result returned) (s' : state) : list string :=
  match o, r with
  | BuildDemographicsReport _ _, Ok _ => current_ids s'
  | _, Ok (Id id) => if generates_chart_id o then [id] else []
  | _, _ => []
  end.

(** A sequence of calls; a call that throws does not stop the later ones.
    The result lists the chart identifiers generated, call by call. *)
Fixpoint run (ops : list op) (s : state) : state * list string :=
  match ops with
  | [] => (s, [])
  | o :: rest =>
      let '(s', r) := exec o s in
      let '(s'', ids) := run rest s' in
      (s'', generated o r s' ++ ids)
  end.

Definition is_reset (o : op) : bool :=
  match o with Reset => true | _ => false end.

Definition report_containers (d : document) : list nat :=
  omap (λ n, match n with ReportContainer r => Some r | Foreign _ => None end)
    (doc_body d).

End PageBuilder.

(** ** Statements about the counters and the document *)

Module Claims.
Import PageBuilder.

(** A document with nothing in it and no library loaded, and a builder
    just constructed. *)
Definition empty_document : document :=
  {| doc_head := []; doc_body := []; doc_elements := ∅; doc_console := [];
     doc_d3 := D3Undeclared; doc_timers := [] |}.

Definition initial_state : state := (constructor, empty_document).

Definition counters (s : state) : nat * nat :=
  (chartCounter s.1, sectionCounter s.1).

(** A method leaves both counters and the children of the body as they
    are. *)
Definition keeps {A} (m : M A) : Prop :=
  ∀ s, counters (m s).1 = counters s ∧ doc_body (m s).1.2 = doc_body s.2.

(** A method decreases neither counter. *)
Definition grows {A} (m : M A) : Prop :=
  ∀ s, chartCounter s.1 ≤ chartCounter (m s).1.1
       ∧ sectionCounter s.1 ≤ sectionCounter (m s).1.1.

(** No operation ever decreases a counter. *)
Definition counters_monotone : Prop := ∀ o, grows (exec o).

(** The chart identifiers generated in a sequence of calls are pairwise
    distinct. *)
Definition generated_ids_unique : Prop := ∀ ops s, NoDup (run ops s).2.

(** What a method may do to the body: nothing, or leave one report
    container as its only child. *)
Definition body_step (s s' : state) : Prop :=
  doc_body s'.2 = doc_body s.2 ∨ ∃ r, doc_body s'.2 = [ReportContainer r].

Definition replaces {A} (m : M A) : Prop := ∀ s, body_step s (m s).1.

Definition default_document : document_config :=
  {| dc_title := None; dc_subtitle := None; dc_includeDefaultStyles := None;
     dc_containerClass := None |}.

Definition default_container : chart_container_config :=
  {| cc_containerId := None; cc_title := None; cc_className := None;
     cc_parentSelector := None |}.

Definition titled (t : string) : section_config :=
  {| sc_title := Some t; sc_subtitle := None; sc_className := None;
     sc_containerId := None |}.

(** The builder has the element [r], whose state is [c], as its current
    document; and that document has the content [inn]. *)
Definition has_container (s : state) (r : nat) (c : container) : Prop :=
  currentDocument s.1 = Some r ∧ doc_elements s.2 !! r = Some c.

Definition has_document (s : state) (r : nat) (inn : inner) : Prop :=
  ∃ c, has_container s r c ∧ c_inner c = Some inn.

(** The main area of the current document, when there is one. *)
Definition current_main (s : state) : option (list child) :=
  r ← currentDocument s.1; c ← doc_elements s.2 !! r; i_main <$> c_inner c.

(** The builder has no document, or one that was emptied. *)
Definition no_content (s : state) : Prop :=
  currentDocument s.1 = None
  ∨ ∃ r c, has_container s r c ∧ c_inner c = None.

(** The calls that add an element to the current document. *)
Definition adding_ops (sconfig : section_config) (cconfig : chart_container_config)
    (content : string) (priority : option string) (parentSelector : option selector)
  : list op :=
  [ CreateSection sconfig; CreateChartContainer cconfig;
    AddExecutiveSummary content parentSelector;
    AddKeyFinding content parentSelector;
    AddRecommendation content priority parentSelector;
    AddTextContent content parentSelector;
    CreateContentGrid parentSelector ].

(** The builder after the defaults of [createSection] were evaluated. *)
Definition after_section_defaults (config : section_config) (s : state) : state :=
  match sc_title config with
  | Some _ => s
  | None => (with_sectionCounter (S (sectionCounter s.1)) s.1, s.2)
  end.

(** The builder after the defaults of [createChartContainer] were
    evaluated. *)
Definition after_container_defaults (config : chart_container_config) (s : state)
  : state :=
  match cc_containerId config with
  | Some _ => s
  | None => (with_chartCounter (S (chartCounter s.1)) s.1, s.2)
  end.

(** The block that [createChartContainer] appends. *)
Definition new_container (config : chart_container_config) (counter : nat) : block :=
  ChartContainer
    (default ("chart-" +:+ pretty (S counter)) (cc_containerId config))
    (default "chart-container" (cc_className config))
    (if_truthy (default "" (cc_title config))).

(** Appending a block to the place a selector resolved to. *)
Definition place_block (t : target) (b : block) (main : list child) : list child :=
  match t with
  | TMain => main ++ [CBlock b]
  | TSection k => alter (add_to_section b) k main
  end.

(** [querySelector(sel) || querySelector('.report-content')] on a
    container. *)
Definition resolve (c : container) (sel : selector) : option target :=
  match querySelector c sel with
  | Some t => Some t
  | None => querySelector c SelReportContent
  end.

(** The section that [createSection] appends. *)
Definition new_section (config : section_config) (counter : nat) : section :=
  let n := match sc_title config with Some _ => counter | None => S counter end in
  {| section_id := default ("section-" +:+ pretty n) (sc_containerId config);
     section_className := default "section" (sc_className config);
     section_title := default ("Section " +:+ pretty n) (sc_title config);
     section_subtitle := if_truthy (default "" (sc_subtitle config));
     section_content := [] |}.

(** *** The report assembly as a function on the document content

    What [buildDemographicsReport] makes of a report description, written
    as a fold over the counters, the main area and the scheduled drawings. *)

Record assembly := {
  a_sections : nat;
  a_charts : nat;
  a_main : list child;
  a_timers : list (chart_type * string)
}.

(** Where [#id .section-content] points, with the fallback to the main
    area. *)
Definition section_target (id : string) (main : list child) : target :=
  match list_find (λ c, has_id id c = true) main with
  | Some x => TSection x.1
  | None => TMain
  end.

Definition chart_block (config : chart_config) (counter : nat) : block :=
  ChartContainer ("chart-" +:+ pretty (S counter)) "chart-container"
    (if_truthy (default "" (ch_title config))).

Definition content_block (content : content_item) : block :=
  match ct_type content with
  | finding => KeyFinding (ct_text content)
  | recommendation =>
      Recommendation
        (match if_truthy (default "" (ct_priority content)) with
         | Some p => "<strong>" +:+ p +:+ ":</strong> "
         | None => ""
         end)
        (ct_text content)
  | text => TextContent (ct_text content)
  end.

Definition chart_step (id : string) (a : assembly) (chartConfig : report_chart)
  : assembly :=
  match rc_type chartConfig with
  | None => a
  | Some kind =>
      match ch_containerId (rc_config chartConfig) ≫= if_truthy with
      | Some given =>
          {| a_sections := a_sections a; a_charts := a_charts a;
             a_main := a_main a; a_timers := a_timers a ++ [(kind, given)] |}
      | None =>
          {| a_sections := a_sections a; a_charts := S (a_charts a);
             a_main :=
               place_block (section_target id (a_main a))
                 (chart_block (rc_config chartConfig) (a_charts a)) (a_main a);
             a_timers :=
               a_timers a ++ [(kind, "chart-" +:+ pretty (S (a_charts a)))] |}
      end
  end.

Definition content_step (id : string) (a : assembly) (content : content_item)
  : assembly :=
  {| a_sections := a_sections a; a_charts := a_charts a;
     a_main :=
       place_block (section_target id (a_main a)) (content_block content) (a_main a);
     a_timers := a_timers a |}.

Definition section_config_of (sectionData : section_data) : section_config :=
  {| sc_title := sd_title sectionData; sc_subtitle := sd_subtitle sectionData;
     sc_className := None; sc_containerId := None |}.

Definition section_step (a : assembly) (sectionData : section_data) : assembly :=
  let sec := new_section (section_config_of sectionData) (a_sections a) in
  let a1 :=
    {| a_sections :=
         match sd_title sectionData with
         | Some _ => a_sections a
         | None => S (a_sections a)
         end;
       a_charts := a_charts a;
       a_main := a_main a ++ [CSection sec];
       a_timers := a_timers a |} in
  let a2 := foldl (chart_step (section_id sec)) a1 (sd_charts sectionData) in
  foldl (content_step (section_id sec)) a2 (sd_content sectionData).

(** The main area right after [createDocument] and the executive
    summary. *)
Definition summary_blocks (reportData : report_data) : list child :=
  match if_truthy (default "" (rd_executiveSummary reportData)) with
  | Some e => [CBlock (ExecutiveSummary e)]
  | None => []
  end.

Definition assemble (sections charts : nat) (timers : list (chart_type * string))
    (reportData : report_data) : assembly :=
  foldl section_step
    {| a_sections := sections; a_charts := charts;
       a_main := summary_blocks reportData; a_timers := timers |}
    (rd_sections reportData).

(** The state of an initialised builder whose current document [r] has the
    header [hd] and holds what the assembly [a] says. *)
Definition models (s : state) (r : nat) (cls : string) (hd : string * option string)
    (a : assembly) : Prop :=
  isInitialized s.1 = true
  ∧ currentDocument s.1 = Some r
  ∧ chartCounter s.1 = a_charts a
  ∧ sectionCounter s.1 = a_sections a
  ∧ doc_elements s.2 !! r
    = Some {| c_className := cls;
              c_inner := Some {| i_title := hd.1; i_subtitle := hd.2;
                                 i_main := a_main a |} |}
  ∧ doc_timers s.2 = a_timers a.

(** The sections of a main area, in order. *)
Definition sections_of (main : list child) : list section :=
  omap (λ c, match c with CSection s => Some s | CBlock _ => None end) main.

(** The identifier made from a counter value. *)
Definition chart_id (n : nat) : string := "chart-" +:+ pretty n.

(** *** Inputs without markup

    A text without [<] is a text wherever it is pasted within an element. *)
Definition plain (s : string) : bool :=
  all_chars (λ c, negb (Ascii.eqb c "<"%char)) s.

Definition plain_opt (o : option string) : bool := from_option plain true o.

(** The tokens of a [class] attribute. *)
Definition is_space (c : Ascii.ascii) : bool :=
  let n := Ascii.nat_of_ascii c in
  Nat.eqb n 32 || Nat.eqb n 9 || Nat.eqb n 10 || Nat.eqb n 12 || Nat.eqb n 13.

Fixpoint class_tokens (token : string) (className : string) : list string :=
  match className with
  | EmptyString => if String.eqb token "" then [] else [token]
  | String c rest =>
      if is_space c then
        (if String.eqb token "" then [] else [token]) ++ class_tokens "" rest
      else class_tokens (token +:+ String c "") rest
  end.

Definition has_class (class className : string) : bool :=
  bool_decide (class ∈ class_tokens "" className).

(** A selector made from an identifier, or one of the fixed ones. *)
Definition plain_selector (sel : option selector) : bool :=
  match sel with
  | Some (SelSectionOf id) => css_identifier id
  | _ => true
  end.

Definition plain_document_config (config : document_config) : bool :=
  plain_opt (dc_title config) && plain_opt (dc_subtitle config).

Definition plain_content (content : content_item) : bool :=
  plain (ct_text content) && plain_opt (ct_priority content).

Definition plain_section (sectionData : section_data) : bool :=
  plain_opt (sd_title sectionData) && plain_opt (sd_subtitle sectionData)
  && forallb plain_content (sd_content sectionData).

(** A report whose title, subtitle, summary, section titles and contents
    hold no markup. Chart titles are set with [textContent] and may hold
    anything. *)
Definition plain_report (reportData : report_data) : bool :=
  plain_opt (rd_title reportData) && plain_opt (rd_subtitle reportData)
  && plain_opt (rd_executiveSummary reportData)
  && forallb plain_section (rd_sections reportData).

(** The blocks, sections and header of a document as the builder makes
    them from such inputs: no markup in a text, and no element of the
    class [section-content] but the content areas of the sections. *)
Definition plain_block (b : block) : Prop :=
  match b with
  | ExecutiveSummary content | KeyFinding content | TextContent content =>
      plain content = true
  | Recommendation priorityText content =>
      plain content = true
      ∧ (priorityText = ""
         ∨ ∃ priority, plain priority = true
                       ∧ priorityText = "<strong>" +:+ priority +:+ ":</strong> ")
  | ContentGrid => True
  | ChartContainer _ className _ => has_class "section-content" className = false
  end.

Definition plain_child (c : child) : Prop :=
  match c with
  | CSection s =>
      has_class "section-content" (section_className s) = false
      ∧ plain (section_title s) = true
      ∧ plain_opt (section_subtitle s) = true
      ∧ Forall plain_block (section_content s)
  | CBlock b => plain_block b
  end.

Definition plain_inner (inn : inner) : Prop :=
  plain (i_title inn) = true
  ∧ plain_opt (i_subtitle inn) = true
  ∧ Forall plain_child (i_main inn).

(** The chart containers of an assembly carry distinct ids, made from the
    counter values above [c0] and up to the one the assembly has reached. *)
Definition numbered (c0 : nat) (a : assembly) : Prop :=
  c0 ≤ a_charts a
  ∧ NoDup (container_ids (a_main a))
  ∧ ∀ id, id ∈ container_ids (a_main a) →
      ∃ k, id = chart_id k ∧ c0 < k ≤ a_charts a.

(** A chart entry of a report for which a container is created: its type
    is a known one and it names no container of its own. *)
Definition needs_container (chartConfig : report_chart) : bool :=
  match rc_type chartConfig,
        ch_containerId (rc_config chartConfig) ≫= if_truthy with
  | Some _, None => true
  | _, _ => false
  end.

(** The number of containers made for a chart entry. *)
Definition made (chartConfig : report_chart) : nat :=
  if needs_container chartConfig then 1 else 0.


(** A section with other content. *)
Definition with_content (blocks : list block) (s : section) : section :=
  {| section_id := section_id s; section_className := section_className s;
     section_title := section_title s; section_subtitle := section_subtitle s;
     section_content := blocks |}.

End Claims.

(** * Properties *)

(** ** Colour assignment *)

Lemma foldl_push {A B} (f : B → A) (l : list B) (acc : list A) :
  foldl (λ colors i, colors ++ [f i]) acc l = acc ++ map f l.
Proof.
  revert acc; induction l as [|x l IH]; intros acc; simpl.
  - by rewrite app_nil_r.
  - by rewrite IH, <- app_assoc.
Qed.

Lemma getColors_loop_map (count : nat) :
  getColors_loop count = map palette_at (seq 0 count).
Proof. unfold getColors_loop. by rewrite foldl_push. Qed.

Lemma palette_at_defined (i : nat) :
  ∃ c, palette_at i = Some c ∧ c ∈ CHART_COLORS.palette.
Proof.
  unfold palette_at.
  destruct (lookup_lt_is_Some_2 CHART_COLORS.palette
              (i mod length CHART_COLORS.palette)) as [c Hc].
  { apply Nat.mod_upper_bound. simpl. lia. }
  exists c. split; [done|]. by eapply list_elem_of_lookup_2.
Qed.

(** C6. In palette mode [getColors] returns exactly [count] colours, the
    colour at position [i] being entry [i mod 15] of the fixed palette of 15
    colours; in gender mode it returns the two fixed colours, male then
    female, whatever the count; every entry is a defined colour, and the
    result depends on nothing but the arguments. *)
Theorem getColors_cycles_palette (count : nat) :
  length CHART_COLORS.palette = 15
  ∧ length (getColors count "palette") = count
  ∧ (∀ i, i < count →
       ∃ c, getColors count "palette" !! i = Some (Some c)
            ∧ CHART_COLORS.palette !! (i mod 15) = Some c)
  ∧ getColors count "gender"
    = [Some CHART_COLORS.gender.male; Some CHART_COLORS.gender.female]
  ∧ (∀ type colors1 colors2,
       colors1 = getColors count type → colors2 = getColors count type →
       colors1 = colors2).
Proof.
  split; [reflexivity|].
  assert (Hp : getColors count "palette" = map palette_at (seq 0 count)).
  { unfold getColors. rewrite decide_False by discriminate.
    apply getColors_loop_map. }
  split; [by rewrite Hp, length_map, length_seq|].
  split.
  - intros i Hi. destruct (palette_at_defined i) as (c & Hc & _).
    exists c. rewrite Hp, list_lookup_fmap, lookup_seq_lt by done.
    simpl. split; [by rewrite Hc|]. exact Hc.
  - split; [reflexivity|]. by intros type colors1 colors2 -> ->.
Qed.

(** ** The store during normalisation *)

Lemma array_of_insert_ne (σ : store) (r r' : loc) (a : list jsnum) :
  r ≠ r' → array_of (<[r := a]> σ) r' = array_of σ r'.
Proof. intros Hne. unfold array_of. by rewrite lookup_insert_ne. Qed.

Lemma array_get_insert_ne (σ : store) (r r' : loc) (a : list jsnum) (i : nat) :
  r ≠ r' → array_get (<[r := a]> σ) r' i = array_get σ r' i.
Proof. intros Hne. unfold array_get. by rewrite array_of_insert_ne. Qed.

Lemma column_insert_ne (σ : store) (datasets : list dataset) (r : loc)
    (a : list jsnum) (i : nat) :
  Forall (λ ds, data ds ≠ r) datasets →
  column (<[r := a]> σ) datasets i = column σ datasets i.
Proof.
  intros Hne. unfold column. apply map_ext_Forall.
  eapply Forall_impl; [exact Hne|]. intros ds Hds. simpl.
  apply array_get_insert_ne. congruence.
Qed.

Lemma loop_body_insert (σ : store) (datasets : list dataset) (ro rn : loc)
    (acc : list jsnum) (i : nat) :
  ro ≠ rn → Forall (λ ds, data ds ≠ rn) datasets →
  loop_body datasets ro rn (<[rn := acc]> σ) i
  = <[rn := acc ++ [normalized_at σ datasets ro i]]> σ.
Proof.
  intros Hro Hds. unfold loop_body, array_push.
  rewrite alter_insert_eq. f_equal. f_equal. unfold normalized_at.
  fold (column (<[rn := acc]> σ) datasets i).
  by rewrite column_insert_ne, array_get_insert_ne.
Qed.

(** The loop fills the new array and touches nothing else. *)
Lemma loop_fold (σ : store) (datasets : list dataset) (ro rn : loc) (idx : list nat) :
  ro ≠ rn → Forall (λ ds, data ds ≠ rn) datasets →
  ∀ acc, foldl (loop_body datasets ro rn) (<[rn := acc]> σ) idx
         = <[rn := acc ++ map (normalized_at σ datasets ro) idx]> σ.
Proof.
  intros Hro Hds. induction idx as [|i idx IH]; intros acc; simpl.
  - by rewrite app_nil_r.
  - rewrite loop_body_insert by done. rewrite IH. by rewrite <- app_assoc.
Qed.

Lemma wf_datasets_fresh (σ : store) (datasets : list dataset) :
  wf_datasets σ datasets → Forall (λ ds, data ds ≠ fresh (dom σ)) datasets.
Proof.
  intros Hwf. eapply Forall_impl; [exact Hwf|]. intros ds Hsome Heq. simpl in *.
  apply elem_of_dom in Hsome. rewrite Heq in Hsome.
  by apply (is_fresh (dom σ)).
Qed.

Lemma normalize_dataset_spec (σ : store) (datasets : list dataset) (k : nat)
    (ds : dataset) :
  wf_datasets σ datasets → is_Some (σ !! data ds) →
  normalize_dataset datasets σ k ds
  = (<[fresh (dom σ) :=
        map (normalized_at σ datasets (data ds)) (seq 0 (array_length σ (data ds)))]> σ,
     {| n_label := label ds; n_data := fresh (dom σ); n_originalData := data ds;
        n_backgroundColor := color_or_palette (backgroundColor ds) k |}).
Proof.
  intros Hwf Hds. unfold normalize_dataset, array_new.
  assert (Hne : data ds ≠ fresh (dom σ)).
  { intros Heq. apply elem_of_dom in Hds. rewrite Heq in Hds.
    by apply (is_fresh (dom σ)). }
  rewrite loop_fold by auto using wf_datasets_fresh.
  unfold array_length. rewrite array_of_insert_ne by done. done.
Qed.

Lemma normalized_at_weaken (σ0 σ : store) (datasets : list dataset) (ro : loc) (i : nat) :
  σ0 ⊆ σ → wf_datasets σ0 datasets → is_Some (σ0 !! ro) →
  normalized_at σ datasets ro i = normalized_at σ0 datasets ro i.
Proof.
  intros Hsub Hwf [a Ha].
  assert (Hget : ∀ r, is_Some (σ0 !! r) → array_get σ r i = array_get σ0 r i).
  { intros r [b Hb]. unfold array_get, array_of.
    by rewrite Hb, (lookup_weaken _ _ _ _ Hb Hsub). }
  unfold normalized_at, column.
  rewrite (Hget ro) by eauto.
  replace (map (λ ds, array_get σ (data ds) i) datasets)
    with (map (λ ds, array_get σ0 (data ds) i) datasets); [done|].
  apply map_ext_Forall. eapply Forall_impl; [exact Hwf|].
  intros ds Hds. simpl. symmetry. by apply Hget.
Qed.

Lemma map_datasets_cons (datasets : list dataset) (σ : store) (k : nat)
    (ds : dataset) (rest : list dataset) :
  map_datasets datasets σ k (ds :: rest)
  = let '(σ1, nd) := normalize_dataset datasets σ k ds in
    let '(σ2, nds) := map_datasets datasets σ1 (S k) rest in
    (σ2, nd :: nds).
Proof. reflexivity. Qed.

Lemma map_datasets_spec (σ0 : store) (datasets : list dataset) :
  wf_datasets σ0 datasets →
  ∀ rest σ k, σ0 ⊆ σ → wf_datasets σ0 rest →
    σ ⊆ (map_datasets datasets σ k rest).1
    ∧ Forall2 (normalized_of σ0 (map_datasets datasets σ k rest).1 datasets)
        rest (map_datasets datasets σ k rest).2.
Proof.
  intros Hwf. induction rest as [|ds rest IH]; intros σ k Hsub Hrest.
  - split; [done|constructor].
  - apply Forall_cons in Hrest as [Hds Hrest].
    assert (Hwfσ : wf_datasets σ datasets).
    { eapply Forall_impl; [exact Hwf|]. intros d Hd. simpl in *.
      by eapply lookup_weaken_is_Some. }
    assert (Hdsσ : is_Some (σ !! data ds)) by (by eapply lookup_weaken_is_Some).
    rewrite map_datasets_cons, normalize_dataset_spec by done.
    set (rn := fresh (dom σ)).
    set (arr := map (normalized_at σ datasets (data ds)) _).
    assert (Hfresh : σ !! rn = None).
    { apply not_elem_of_dom. apply is_fresh. }
    assert (Hsub1 : σ ⊆ <[rn := arr]> σ) by by apply insert_subseteq.
    specialize (IH (<[rn := arr]> σ) (S k)).
    destruct (map_datasets datasets (<[rn := arr]> σ) (S k) rest) as [σ2 nds] eqn:E.
    simpl in *. destruct IH as [Hsub2 Hall]; [by etrans|done|].
    split; [by etrans|]. constructor; [|done].
    repeat split; simpl.
    + eapply lookup_weaken_None; [exact Hfresh|done].
    + eapply lookup_weaken; [|exact Hsub2]. rewrite lookup_insert_eq.
      f_equal. subst arr. unfold array_length, array_of.
      destruct Hds as [a Ha]. rewrite Ha, (lookup_weaken _ _ _ _ Ha Hsub).
      apply map_ext. intros i. apply normalized_at_weaken; eauto.
Qed.

Lemma normalizedDatasets_spec (σ : store) (datasets : list dataset) :
  wf_datasets σ datasets →
  σ ⊆ (normalizedDatasets σ datasets).1
  ∧ Forall2 (normalized_of σ (normalizedDatasets σ datasets).1 datasets)
      datasets (normalizedDatasets σ datasets).2.
Proof. intros Hwf. by apply map_datasets_spec. Qed.

(** ** The arithmetic of the four branches *)

Section Rationals.

Local Open Scope Q_scope.

Lemma Qmin_list_cons (x y : Q) (col : list Q) :
  Qmin_list (x :: y :: col) = Qmin x (Qmin_list (y :: col)).
Proof. reflexivity. Qed.

Lemma Qmax_list_cons (x y : Q) (col : list Q) :
  Qmax_list (x :: y :: col) = Qmax x (Qmax_list (y :: col)).
Proof. reflexivity. Qed.

Lemma Math_min_fin (col : list Q) :
  col ≠ [] → ∃ m, Num.Math_min (Fin <$> col) = Fin m ∧ m == Qmin_list col.
Proof.
  induction col as [|x [|y col] IH]; intros Hne; [done| |].
  - exists x. split; [reflexivity|]. simpl. reflexivity.
  - destruct IH as (m & Hm & Hmq); [done|].
    rewrite Qmin_list_cons.
    change (Num.Math_min (Fin <$> x :: y :: col))
      with (Num.min2 (Fin x) (Num.Math_min (Fin <$> y :: col))).
    rewrite Hm. cbn [Num.min2 Num.le].
    destruct (Qle_bool x m) eqn:E.
    + exists x. split; [done|]. apply Qle_bool_iff in E.
      rewrite Hmq in E. symmetry. by apply Q.min_l.
    + exists m. split; [done|].
      assert (H : m <= x).
      { destruct (Qlt_le_dec m x) as [H|H]; [by apply Qlt_le_weak|].
        apply Qle_bool_iff in H. congruence. }
      rewrite Hmq. rewrite Hmq in H. symmetry. by apply Q.min_r.
Qed.

Lemma Math_max_fin (col : list Q) :
  col ≠ [] → ∃ m, Num.Math_max (Fin <$> col) = Fin m ∧ m == Qmax_list col.
Proof.
  induction col as [|x [|y col] IH]; intros Hne; [done| |].
  - exists x. split; [reflexivity|]. simpl. reflexivity.
  - destruct IH as (m & Hm & Hmq); [done|].
    rewrite Qmax_list_cons.
    change (Num.Math_max (Fin <$> x :: y :: col))
      with (Num.max2 (Fin x) (Num.Math_max (Fin <$> y :: col))).
    rewrite Hm. cbn [Num.max2 Num.le].
    destruct (Qle_bool x m) eqn:E.
    + exists m. split; [done|]. apply Qle_bool_iff in E.
      rewrite Hmq. rewrite Hmq in E. symmetry. by apply Q.max_r.
    + exists x. split; [done|].
      assert (H : m <= x).
      { destruct (Qlt_le_dec m x) as [H|H]; [by apply Qlt_le_weak|].
        apply Qle_bool_iff in H. congruence. }
      rewrite Hmq in H. symmetry. by apply Q.max_l.
Qed.

Lemma Qmin_list_le (col : list Q) (v : Q) : v ∈ col → Qmin_list col <= v.
Proof.
  induction col as [|x [|y col] IH]; intros Hin.
  - by apply elem_of_nil in Hin.
  - apply list_elem_of_singleton in Hin as ->. simpl. apply Qle_refl.
  - rewrite Qmin_list_cons. apply elem_of_cons in Hin as [->|Hin].
    + apply Q.le_min_l.
    + eapply Qle_trans; [apply Q.le_min_r|]. by apply IH.
Qed.

Lemma Qmax_list_ge (col : list Q) (v : Q) : v ∈ col → v <= Qmax_list col.
Proof.
  induction col as [|x [|y col] IH]; intros Hin.
  - by apply elem_of_nil in Hin.
  - apply list_elem_of_singleton in Hin as ->. simpl. apply Qle_refl.
  - rewrite Qmax_list_cons. apply elem_of_cons in Hin as [->|Hin].
    + apply Q.le_max_l.
    + eapply Qle_trans; [by apply IH|]. apply Q.le_max_r.
Qed.

End Rationals.

Section Branches.

Local Open Scope Q_scope.

Lemma Qeq_bool_false (x y : Q) : ¬ x == y → Qeq_bool x y = false.
Proof.
  intros H. destruct (Qeq_bool x y) eqn:E; [|done].
  by apply Qeq_bool_iff in E.
Qed.

Lemma Qle_bool_false (x y : Q) : Qle_bool x y = false → y < x.
Proof.
  intros E. destruct (Qlt_le_dec y x) as [H|H]; [done|].
  apply Qle_bool_iff in H. congruence.
Qed.

(** On finite numbers the loop body computes the four cases of the design
    document, and never divides by zero. *)
Lemma normalize_value_fin (mn mx a b v : Q) :
  mn == a → mx == b → a <= b →
  ∃ q, normalize_value (Fin mn) (Fin mx) (Fin v) = Fin q
       ∧ q == spec_branches a b v.
Proof.
  intros Ha Hb Hab. unfold normalize_value, spec_branches.
  cbn [Num.strict_eq Num.ge Num.le].
  rewrite <- (Qeqb_comp _ _ Ha _ _ Hb).
  rewrite <- (Qleb_comp 0 0 (Qeq_refl 0) _ _ Ha).
  rewrite <- (Qleb_comp _ _ Hb 0 0 (Qeq_refl 0)).
  rewrite <- Ha, <- Hb in Hab.
  destruct (Qeq_bool mn mx) eqn:Eeq; [by exists 50|].
  apply Qeq_bool_neq in Eeq.
  destruct (Qle_bool 0 mn) eqn:Epos.
  { apply Qle_bool_iff in Epos.
    assert (Hmx : 0 < mx).
    { destruct (Qlt_le_dec 0 mx) as [H|H]; [done|].
      exfalso. apply Eeq. apply Qle_antisym; [done|].
      by eapply Qle_trans. }
    cbn [Num.div Num.mul]. rewrite Qeq_bool_false.
    - eexists. split; [reflexivity|]. by rewrite Hb.
    - intros H0. rewrite H0 in Hmx. by apply Qlt_irrefl in Hmx. }
  apply Qle_bool_false in Epos.
  assert (Habs : 0 < Qabs mn).
  { rewrite Qabs_neg by by apply Qlt_le_weak.
    by apply (Qopp_lt_compat mn 0). }
  destruct (Qle_bool mx 0) eqn:Eneg.
  { cbn [Num.abs Num.div Num.mul]. rewrite Qeq_bool_false.
    - eexists. split; [reflexivity|]. by rewrite Ha.
    - intros H0. rewrite H0 in Habs. by apply Qlt_irrefl in Habs. }
  apply Qle_bool_false in Eneg.
  cbn [Num.abs Num.Math_max foldr Num.max2 Num.le].
  assert (Habs' : 0 < Qabs mx) by (by rewrite Qabs_pos by by apply Qlt_le_weak).
  destruct (Qle_bool (Qabs mn) (Qabs mx)) eqn:E.
  - apply Qle_bool_iff in E.
    cbn [Num.div Num.mul Num.add]. rewrite Qeq_bool_false.
    + eexists. split; [reflexivity|].
      rewrite <- Ha, <- Hb. by rewrite (Q.max_r _ _ E).
    + intros H0. rewrite H0 in Habs'. by apply Qlt_irrefl in Habs'.
  - apply Qle_bool_false, Qlt_le_weak in E.
    cbn [Num.div Num.mul Num.add]. rewrite Qeq_bool_false.
    + eexists. split; [reflexivity|].
      rewrite <- Ha, <- Hb. by rewrite (Q.max_l _ _ E).
    + intros H0. rewrite H0 in Habs. by apply Qlt_irrefl in Habs.
Qed.

End Branches.

Section Range.

Local Open Scope Q_scope.

Lemma quotient_range (v d lo hi : Q) :
  0 < d → lo * d <= v → v <= hi * d → lo <= v / d ∧ v / d <= hi.
Proof.
  intros Hd Hlo Hhi. split.
  - by apply Qle_shift_div_l.
  - by apply Qle_shift_div_r.
Qed.

(** Where each branch lands: the all-equal, the non-negative and the
    mixed-sign columns in [0, 100], the non-positive columns in
    [-100, 0]. *)
Lemma spec_branches_range (a b v : Q) :
  a <= v → v <= b →
  ((a == b ∨ 0 <= a ∨ 0 < b) →
     0 <= spec_branches a b v ∧ spec_branches a b v <= 100)
  ∧ (¬ a == b → b <= 0 →
     -100 <= spec_branches a b v ∧ spec_branches a b v <= 0).
Proof.
  intros Hav Hvb. unfold spec_branches.
  destruct (Qeq_bool a b) eqn:Eeq.
  { apply Qeq_bool_iff in Eeq. split; [intros _; split; lra|]. by intros []. }
  apply Qeq_bool_neq in Eeq.
  destruct (Qle_bool 0 a) eqn:Epos.
  { apply Qle_bool_iff in Epos.
    assert (0 < b).
    { destruct (Qlt_le_dec 0 b) as [H|H]; [done|].
      exfalso. apply Eeq. apply Qle_antisym; lra. }
    split; [intros _|intros _ ?; lra].
    destruct (quotient_range v b 0 1) as [H0 H1]; [done|lra|lra|].
    revert H0 H1. generalize (v / b). intros t ??. split; lra. }
  apply Qle_bool_false in Epos.
  destruct (Qle_bool b 0) eqn:Eneg.
  { apply Qle_bool_iff in Eneg.
    split; [intros [?|[?|?]]; [done|lra|lra]|intros _ _].
    assert (Habs : Qabs a == - a) by (apply Qabs_neg; lra).
    destruct (quotient_range v (Qabs a) (-1) 0) as [H0 H1];
      [rewrite Habs; lra|rewrite Habs; lra|rewrite Habs; lra|].
    revert H0 H1. generalize (v / Qabs a). intros t ??. split; lra. }
  apply Qle_bool_false in Eneg.
  split; [intros _|intros _ ?; lra].
  assert (Ha : Qabs a == - a) by (apply Qabs_neg; lra).
  assert (Hb : Qabs b == b) by (apply Qabs_pos; lra).
  set (M := Qmax (Qabs a) (Qabs b)).
  assert (Hl : - a <= M) by (rewrite <- Ha; apply Q.le_max_l).
  assert (Hr : b <= M) by (rewrite <- Hb; apply Q.le_max_r).
  clearbody M.
  destruct (quotient_range v M (-1) 1) as [H0 H1]; [lra|lra|lra|].
  revert H0 H1. generalize (v / M). intros t ??.
  split; lra.
Qed.

End Range.

(** ** The multi-scale normalisation *)

Lemma holds_series_wf (σ : store) (datasets : list dataset) (series : list (list Q)) :
  holds_series σ datasets series → wf_datasets σ datasets.
Proof.
  intros H. induction H as [|ds s datasets series Hds _ IH]; constructor; eauto.
Qed.

Lemma normalized_values_eq (σ : store) (datasets : list dataset) :
  normalized_values σ datasets
  = map (λ nd, array_of (normalizedDatasets σ datasets).1 (n_data nd))
      (normalizedDatasets σ datasets).2.
Proof. unfold normalized_values. by destruct (normalizedDatasets σ datasets). Qed.

Lemma normalized_values_lookup (σ : store) (datasets : list dataset) (k : nat)
    (ds : dataset) :
  wf_datasets σ datasets → datasets !! k = Some ds →
  normalized_values σ datasets !! k
  = Some (map (normalized_at σ datasets (data ds))
            (seq 0 (array_length σ (data ds)))).
Proof.
  intros Hwf Hk. rewrite normalized_values_eq, list_lookup_fmap.
  destruct (normalizedDatasets_spec σ datasets Hwf) as [_ Hall].
  destruct (Forall2_lookup_l _ _ _ _ _ Hall Hk) as (nd & Hnd & _ & _ & _ & Harr).
  rewrite Hnd. simpl. unfold array_of. by rewrite Harr.
Qed.

Lemma column_series (σ : store) (datasets : list dataset) (series : list (list Q))
    (n i : nat) :
  holds_series σ datasets series → Forall (λ s, length s = n) series → i < n →
  column σ datasets i = Fin <$> series_column series i.
Proof.
  intros H. induction H as [|ds s datasets series Hds _ IH]; intros Hlen Hi.
  - reflexivity.
  - apply Forall_cons in Hlen as [Hs Hlen].
    unfold column, series_column in *. simpl. f_equal; [|by apply IH].
    unfold array_get, array_of. rewrite Hds. simpl.
    rewrite list_lookup_fmap.
    destruct (lookup_lt_is_Some_2 s i) as [v Hv]; [lia|]. by rewrite Hv.
Qed.

Lemma normalized_at_series (σ : store) (datasets : list dataset)
    (series : list (list Q)) (n k i : nat) (ds : dataset) (s : list Q) (v : Q) :
  holds_series σ datasets series → Forall (λ s, length s = n) series →
  datasets !! k = Some ds → series !! k = Some s → s !! i = Some v →
  ∃ q, normalized_at σ datasets (data ds) i = Fin q
       ∧ (q == spec_normalized (series_column series i) v)%Q.
Proof.
  intros Hholds Hlen Hds Hs Hv.
  assert (Hi : i < n).
  { rewrite <- (proj1 (Forall_lookup _ _) Hlen k s Hs). by eapply lookup_lt_Some. }
  assert (Hin : v ∈ series_column series i).
  { unfold series_column. apply list_elem_of_fmap. exists s.
    split; [by rewrite Hv|]. by eapply list_elem_of_lookup_2. }
  assert (Hne : series_column series i ≠ []).
  { intros E. rewrite E in Hin. by apply elem_of_nil in Hin. }
  destruct (Math_min_fin _ Hne) as (mn & Hmn & Hmnq).
  destruct (Math_max_fin _ Hne) as (mx & Hmx & Hmxq).
  unfold normalized_at. rewrite (column_series _ _ _ _ _ Hholds Hlen Hi), Hmn, Hmx.
  assert (Hget : array_get σ (data ds) i = Fin v).
  { unfold array_get, array_of.
    pose proof (Forall2_lookup_lr _ _ _ _ _ _ Hholds Hds Hs) as Harr.
    simpl in Harr. rewrite Harr. simpl. by rewrite list_lookup_fmap, Hv. }
  rewrite Hget. apply normalize_value_fin; [done|done|].
  eapply Qle_trans; [by apply Qmin_list_le|by apply Qmax_list_ge].
Qed.

Lemma normalized_values_series (σ : store) (datasets : list dataset)
    (series : list (list Q)) (n k i : nat) (s : list Q) (v : Q) :
  holds_series σ datasets series → Forall (λ s, length s = n) series →
  series !! k = Some s → s !! i = Some v →
  ∃ arr q, normalized_values σ datasets !! k = Some arr
           ∧ length arr = n
           ∧ arr !! i = Some (Fin q)
           ∧ (q == spec_normalized (series_column series i) v)%Q.
Proof.
  intros Hholds Hlen Hs Hv.
  destruct (Forall2_lookup_r _ _ _ _ _ Hholds Hs) as (ds & Hds & Harr).
  destruct (normalized_at_series _ _ _ _ _ _ _ _ _ Hholds Hlen Hds Hs Hv)
    as (q & Hq & Hspec).
  assert (Hn : array_length σ (data ds) = n).
  { unfold array_length, array_of. rewrite Harr. simpl.
    rewrite length_fmap. exact (proj1 (Forall_lookup _ _) Hlen k s Hs). }
  eexists _, q. split; [|split; [|split]].
  - apply normalized_values_lookup; [by eapply holds_series_wf|done].
  - by rewrite length_map, length_seq.
  - rewrite list_lookup_fmap, lookup_seq_lt; [by rewrite <- Hq|].
    rewrite Hn, <- (proj1 (Forall_lookup _ _) Hlen k s Hs).
    by eapply lookup_lt_Some.
  - done.
Qed.

(** C1. For datasets holding finite series of one length, the value the
    chart stores at position [i] of a series is the one the four cases give
    for the column at [i]: 50 when minimum and maximum coincide, else
    value / max * 100 when the minimum is at least zero, else
    value / |min| * 100 when the maximum is at most zero, else
    value / max(|min|, |max|) * 50 + 50. The column [-10, 20] becomes
    [25, 100] and the column [7, 7] becomes [50, 50]. *)
Theorem multi_scale_per_column (σ : store) (datasets : list dataset)
    (series : list (list Q)) (n : nat) :
  holds_series σ datasets series → Forall (λ s, length s = n) series →
  (∀ k s i v, series !! k = Some s → s !! i = Some v →
     ∃ arr q, normalized_values σ datasets !! k = Some arr
              ∧ length arr = n
              ∧ arr !! i = Some (Fin q)
              ∧ (q == spec_normalized (series_column series i) v)%Q)
  ∧ Forall2 (Forall2 Num.equiv)
      (normalized_values (store_of [-10]%Q [20]%Q) two_series) [[Fin 25]; [Fin 100]]
  ∧ Forall2 (Forall2 Num.equiv)
      (normalized_values (store_of [7]%Q [7]%Q) two_series) [[Fin 50]; [Fin 50]].
Proof.
  intros Hholds Hlen. split.
  - intros k s i v Hs Hv. by eapply normalized_values_series.
  - split; vm_compute; repeat constructor.
Qed.

Lemma multi_scale_per_column_witness :
  ∃ arr q, normalized_values (store_of [-10]%Q [20]%Q) two_series !! 0 = Some arr
           ∧ length arr = 1
           ∧ arr !! 0 = Some (Fin q)
           ∧ (q == spec_normalized (series_column [[-10]; [20]] 0) (-10))%Q.
Proof.
  refine (proj1 (multi_scale_per_column (store_of [-10]%Q [20]%Q) two_series
                   [[-10]; [20]]%Q 1 _ _) 0 [-10]%Q 0 (-10)%Q _ _).
  - repeat constructor.
  - repeat constructor.
  - reflexivity.
  - reflexivity.
Defined.

(** C2, as stated, fails on a column of non-positive values: the series
    [-10] and [-5] are normalised to -100 and -50. *)
Lemma all_within_0_100_counterexample :
  ¬ all_within_0_100 (store_of [-10]%Q [-5]%Q) two_series.
Proof.
  intros H.
  destruct (H 0 [Fin (-1000 # 10)] 0 (Fin (-1000 # 10))) as (q & Hq & H0 & _).
  - reflexivity.
  - reflexivity.
  - injection Hq as <-. revert H0. unfold Qle. simpl. lia.
Qed.

(** C2, amended. For datasets holding finite series of one length, every
    normalised value is a finite number; it lies in [0, 100] when the column
    is all equal, has a minimum of at least zero, or has a maximum above
    zero, and in [-100, 0] when the column's values are not all equal and
    its maximum is at most zero. *)
Theorem normalized_value_range (σ : store) (datasets : list dataset)
    (series : list (list Q)) (n k i : nat) (s : list Q) (v : Q) :
  holds_series σ datasets series → Forall (λ s, length s = n) series →
  series !! k = Some s → s !! i = Some v →
  ∃ arr q, normalized_values σ datasets !! k = Some arr
           ∧ arr !! i = Some (Fin q)
           ∧ ((Qmin_list (series_column series i) == Qmax_list (series_column series i)
               ∨ 0 <= Qmin_list (series_column series i)
               ∨ 0 < Qmax_list (series_column series i))%Q
              → (0 <= q)%Q ∧ (q <= 100)%Q)
           ∧ ((¬ Qmin_list (series_column series i) == Qmax_list (series_column series i))%Q
              → (Qmax_list (series_column series i) <= 0)%Q
              → (-100 <= q)%Q ∧ (q <= 0)%Q).
Proof.
  intros Hholds Hlen Hs Hv.
  destruct (normalized_values_series _ _ _ _ _ _ _ _ Hholds Hlen Hs Hv)
    as (arr & q & Harr & _ & Hq & Hspec).
  exists arr, q. split; [done|]. split; [done|].
  assert (Hin : v ∈ series_column series i).
  { unfold series_column. apply list_elem_of_fmap. exists s.
    split; [by rewrite Hv|]. by eapply list_elem_of_lookup_2. }
  destruct (spec_branches_range _ _ v (Qmin_list_le _ _ Hin) (Qmax_list_ge _ _ Hin))
    as [Hpos Hneg].
  fold (spec_normalized (series_column series i) v) in Hpos, Hneg.
  rewrite <- Hspec in Hpos, Hneg. by split.
Qed.

Lemma normalized_value_range_witness :
  ∃ arr q, normalized_values (store_of [-10]%Q [-5]%Q) two_series !! 1 = Some arr
           ∧ arr !! 0 = Some (Fin q)
           ∧ ((Qmin_list (series_column [[-10]; [-5]]%Q 0)
               == Qmax_list (series_column [[-10]; [-5]]%Q 0)
               ∨ 0 <= Qmin_list (series_column [[-10]; [-5]]%Q 0)
               ∨ 0 < Qmax_list (series_column [[-10]; [-5]]%Q 0))%Q
              → (0 <= q)%Q ∧ (q <= 100)%Q)
           ∧ ((¬ Qmin_list (series_column [[-10]; [-5]]%Q 0)
                 == Qmax_list (series_column [[-10]; [-5]]%Q 0))%Q
              → (Qmax_list (series_column [[-10]; [-5]]%Q 0) <= 0)%Q
              → (-100 <= q)%Q ∧ (q <= 0)%Q).
Proof.
  refine (normalized_value_range (store_of [-10]%Q [-5]%Q) two_series
            [[-10]; [-5]]%Q 1 1 0 [-5]%Q (-5)%Q _ _ _ _).
  - repeat constructor.
  - repeat constructor.
  - reflexivity.
  - reflexivity.
Defined.

(** C3. The [originalData] of each normalised dataset is the very array the
    caller supplied as [data], and normalisation leaves the contents of that
    array, as of every array of the input store, as they were. *)
Theorem originalData_is_input (σ : store) (datasets : list dataset) :
  wf_datasets σ datasets →
  length (normalizedDatasets σ datasets).2 = length datasets
  ∧ (∀ r a, σ !! r = Some a → (normalizedDatasets σ datasets).1 !! r = Some a)
  ∧ (∀ k ds, datasets !! k = Some ds →
       ∃ nd, (normalizedDatasets σ datasets).2 !! k = Some nd
             ∧ n_originalData nd = data ds
             ∧ n_data nd ≠ data ds
             ∧ array_of (normalizedDatasets σ datasets).1 (n_originalData nd)
               = array_of σ (data ds)).
Proof.
  intros Hwf. destruct (normalizedDatasets_spec σ datasets Hwf) as [Hsub Hall].
  split; [symmetry; by eapply Forall2_length|].
  split; [intros r a Hr; by eapply lookup_weaken|].
  intros k ds Hk.
  destruct (Forall2_lookup_l _ _ _ _ _ Hall Hk) as (nd & Hnd & _ & Horig & Hnew & _).
  exists nd. split; [done|]. split; [done|].
  destruct (proj1 (Forall_lookup _ _) Hwf k ds Hk) as [a Ha].
  split; [congruence|].
  unfold array_of. by rewrite Horig, Ha, (lookup_weaken _ _ _ _ Ha Hsub).
Qed.

Lemma originalData_is_input_witness :
  ∃ nd, (normalizedDatasets (store_of [-10]%Q [20]%Q) two_series).2 !! 1 = Some nd
        ∧ n_originalData nd = 1
        ∧ n_data nd ≠ 1
        ∧ array_of (normalizedDatasets (store_of [-10]%Q [20]%Q) two_series).1
            (n_originalData nd)
          = [Fin 20].
Proof.
  refine (proj2 (proj2 (originalData_is_input (store_of [-10]%Q [20]%Q) two_series _))
            1 {| label := "B"; data := 1; backgroundColor := None |} _).
  - repeat constructor; eexists; reflexivity.
  - reflexivity.
Defined.

(** ** Pie labels *)

Lemma append_percent_nonempty (s : string) : s +:+ "%" ≠ "".
Proof. by destruct s. Qed.

Lemma slice_text_fin (toFixed1 : jsnum → string) (q : Q) :
  (slice_text toFixed1 (Some (Fin q)) = "" ↔ (q <= 5)%Q)
  ∧ ((5 < q)%Q → slice_text toFixed1 (Some (Fin q)) = toFixed1 (Fin q) +:+ "%").
Proof.
  unfold slice_text. cbn [Num.gt].
  destruct (Qle_bool q 5) eqn:E; simpl.
  - apply Qle_bool_iff in E. split; [done|]. intros H.
    exfalso. by apply (Qlt_not_le _ _ H).
  - apply Qle_bool_false in E. split; [|done]. split.
    + intros H. by apply append_percent_nonempty in H.
    + intros H. exfalso. by apply (Qlt_not_le _ _ E).
Qed.

Lemma share_of_percentages (data : list Q) (q : Q) :
  (total data == 100)%Q → (share data q == q)%Q.
Proof. intros H. unfold share. rewrite H. field. Qed.

(** C4, as stated, fails: two slices of value 1 each hold half of the total
    and yet have no label. *)
Lemma label_follows_share_counterexample :
  ¬ label_follows_share (λ _, "1.0") [1; 1]%Q.
Proof.
  intros H. destruct (H 0 1%Q eq_refl) as [Hshown _].
  specialize (Hshown eq_refl). revert Hshown. vm_compute. discriminate.
Qed.

(** C4, amended. The label of a pie slice is empty exactly when the raw
    value of the slice is at most 5, whatever the total; a slice whose value
    exceeds 5 shows the value with one decimal and a percent sign. When the
    values sum to 100, the label is empty exactly when the share of the slice
    is at most 5 percent. *)
Theorem slice_label_threshold (toFixed1 : jsnum → string) (labels : list string)
    (data : list Q) (i : nat) (l : string) (q : Q) :
  labels !! i = Some l → data !! i = Some q →
  ∃ text, slice_texts toFixed1 labels (Fin <$> data) !! i = Some text
          ∧ (text = "" ↔ (q <= 5)%Q)
          ∧ ((5 < q)%Q → text = toFixed1 (Fin q) +:+ "%")
          ∧ ((total data == 100)%Q → (text = "" ↔ (share data q <= 5)%Q)).
Proof.
  intros Hl Hq. exists (slice_text toFixed1 (Some (Fin q))).
  destruct (slice_text_fin toFixed1 q) as [Hempty Hshown].
  split; [|split; [done|split; [done|]]].
  - unfold slice_texts, pieData.
    rewrite list_lookup_fmap, list_lookup_imap, Hl. simpl.
    by rewrite list_lookup_fmap, Hq.
  - intros Htotal. by rewrite (share_of_percentages _ _ Htotal).
Qed.

Lemma slice_label_threshold_witness :
  ∃ text, slice_texts (λ _, "20.0") ["A"; "B"; "C"] (Fin <$> [45; 35; 20]%Q) !! 2
          = Some text
          ∧ (text = "" ↔ (20 <= 5)%Q)
          ∧ ((5 < 20)%Q → text = "20.0" +:+ "%")
          ∧ ((total [45; 35; 20] == 100)%Q
             → (text = "" ↔ (share [45; 35; 20] 20 <= 5)%Q)).
Proof.
  refine (slice_label_threshold (λ _, "20.0") ["A"; "B"; "C"] [45; 35; 20]%Q
            2 "C" 20%Q _ _); reflexivity.
Defined.

(** ** The row model of the data table *)

Lemma tableData_parallel (rows : list (string * scalar)) :
  tableData (parallel_labels rows) (parallel_data rows) = Ok (pair_rows rows).
Proof.
  unfold tableData, parallel_labels, parallel_data, pair_rows.
  replace (isArray (index (map (λ r, scalar_val r.2) rows) 0)) with false
    by (by destruct rows as [|[l [n|v]] rows]).
  replace (typeof_object (index (map (λ r, scalar_val r.2) rows) 0)) with false
    by (by destruct rows as [|[l [n|v]] rows]).
  f_equal. apply list_eq. intros i.
  rewrite list_lookup_imap, !list_lookup_fmap. unfold index.
  rewrite list_lookup_fmap. by destruct (rows !! i).
Qed.

Lemma tableData_pairs (labels : jsval) (rows : list (string * scalar)) :
  rows ≠ [] → tableData labels (pair_rows rows) = Ok (pair_rows rows).
Proof. by destruct rows. Qed.

Lemma record_row_keyed (l : string) (v : scalar) :
  record_row (VObj [("label", VStr l); ("value", scalar_val v)])
  = Ok (VArr [record_label l; scalar_val v]).
Proof.
  unfold record_row, record_label. simpl. unfold js_or. simpl.
  destruct (decide (l = "")) as [->|Hl]; [done|].
  rewrite (proj2 (String.eqb_neq l "") Hl). simpl.
  by rewrite (proj2 (String.eqb_neq l "") Hl).
Qed.

Lemma tableData_records (labels : jsval) (rows : list (string * scalar)) :
  rows ≠ [] → tableData labels (keyed_records rows) = Ok (record_rows rows).
Proof.
  intros Hne. unfold tableData.
  replace (isArray (index (keyed_records rows) 0)) with false by (by destruct rows).
  replace (typeof_object (index (keyed_records rows) 0)) with true
    by (by destruct rows).
  clear Hne. change (map_result record_row (keyed_records rows)
                     = Ok (record_rows rows)).
  induction rows as [|[l v] rows IH]; [done|].
  unfold keyed_records, record_rows in *. cbn [map map_result fst snd].
  rewrite (record_row_keyed l v). cbn [mbind result_bind].
  by rewrite IH.
Qed.

Lemma record_rows_pairs (rows : list (string * scalar)) :
  record_rows rows = pair_rows rows ↔ Forall (λ r, r.1 ≠ "") rows.
Proof.
  unfold record_rows, pair_rows, record_label.
  induction rows as [|[l v] rows IH]; [by split; [constructor|]|].
  cbn [map fst snd]. split.
  - intros [= Hl Hrest]. constructor; [|by apply IH].
    cbn. by destruct (decide (l = "")).
  - intros Hall. inversion Hall as [|? ? Hl Hrest]; subst. cbn in Hl.
    destruct (decide (l = "")); [done|]. f_equal. by apply IH.
Qed.

Section Rendering.

Variable toLocaleString : jsnum → string.
Variable toFixed1 : jsnum → string.
Variable formatValue : option (jsval → nat → nat → jsval).
Variable showIndex : bool.
Variable toString : jsval → string.

Lemma render_rows_arrays (cellss : list (list jsval)) (i : nat) :
  render_rows_from toLocaleString toFixed1 formatValue showIndex i
    (map VArr cellss)
  = (imap (λ j, row_cells toLocaleString toFixed1 formatValue showIndex (i + j)) cellss, None).
Proof.
  revert i. induction cellss as [|cells cellss IH]; intros i; [done|].
  simpl. rewrite IH. unfold row_cells. rewrite Nat.add_0_r. f_equal. f_equal.
  apply imap_ext. intros j x _. simpl. by rewrite Nat.add_succ_r.
Qed.

(** The cell texts of a table whose row model holds arrays only. *)
Lemma rendered_rows_arrays (labels : jsval) (data : list jsval)
    (cellss : list (list jsval)) :
  tableData labels data = Ok (map VArr cellss) →
  rendered_rows toLocaleString toFixed1 formatValue showIndex toString labels data
  = (imap (λ i cells, map (cell_text toString)
                        (row_cells toLocaleString toFixed1 formatValue showIndex
                           i cells)) cellss,
     None).
Proof.
  intros H. unfold rendered_rows, table_rows. rewrite H, render_rows_arrays.
  f_equal. apply list_eq. intros i.
  rewrite list_lookup_fmap, !list_lookup_imap. by destruct (cellss !! i).
Qed.

(** A label cell shows the same text whether the row model holds the
    empty string or [undefined]: no formatter is applied to the first
    column. *)
Lemma label_cell_text (i : nat) (l : string) (v : jsval) :
  map (cell_text toString)
    (row_cells toLocaleString toFixed1 formatValue showIndex i [record_label l; v])
  = map (cell_text toString)
      (row_cells toLocaleString toFixed1 formatValue showIndex i [VStr l; v]).
Proof.
  unfold row_cells, record_label. rewrite !map_app. f_equal.
  destruct (decide (l = "")) as [->|]; [|done].
  cbn. by destruct formatValue.
Qed.

Lemma rendered_rows_shapes (labels : jsval) (rows : list (string * scalar)) :
  rows ≠ [] →
  let drawn :=
    rendered_rows toLocaleString toFixed1 formatValue showIndex toString
      (parallel_labels rows) (parallel_data rows) in
  drawn.2 = None
  ∧ length drawn.1 = length rows
  ∧ rendered_rows toLocaleString toFixed1 formatValue showIndex toString
      labels (pair_rows rows) = drawn
  ∧ rendered_rows toLocaleString toFixed1 formatValue showIndex toString
      labels (keyed_records rows) = drawn.
Proof.
  intros Hne drawn. subst drawn.
  assert (Hpairs : pair_rows rows
                   = map VArr (map (λ r, [VStr r.1; scalar_val r.2]) rows))
    by (unfold pair_rows; by rewrite map_map).
  assert (Hrecords : record_rows rows
                     = map VArr (map (λ r, [record_label r.1; scalar_val r.2]) rows))
    by (unfold record_rows; by rewrite map_map).
  pose proof (tableData_parallel rows) as H1.
  pose proof (tableData_pairs labels rows Hne) as H2.
  pose proof (tableData_records labels rows Hne) as H3.
  rewrite Hpairs in H1, H2 at 2. rewrite Hrecords in H3.
  rewrite (rendered_rows_arrays _ _ _ H1), (rendered_rows_arrays _ _ _ H2),
    (rendered_rows_arrays _ _ _ H3).
  cbn [fst snd]. split_and!; try done.
  - by rewrite length_imap, length_map.
  - f_equal. apply list_eq. intros i.
    rewrite !list_lookup_imap, !list_lookup_fmap.
    destruct (rows !! i) as [[l v]|]; [|done]. cbn. f_equal.
    apply label_cell_text.
Qed.

End Rendering.

(** C5, as stated, fails in two places: a record whose label is the empty
    string gets [undefined] as its label in the row model, and an empty
    table given as pair rows or records falls to the parallel-array branch,
    which reads the [labels] argument. *)
Lemma same_row_model_counterexample :
  ¬ same_row_model VUndef [("", SNum (Fin 1))] ∧ ¬ same_row_model VUndef [].
Proof. split; intros [H1 H2]; vm_compute in H1, H2; discriminate. Qed.

(** C5, amended. For a logical table with at least one row, whose labels
    are strings and whose values are numbers or strings, the parallel
    arrays, the pair rows and the keyed records give the same rendered row
    content: one row per row of the table, drawn without error, with the
    same text in every cell under every formatter and option. The row
    model is the list of [label, value] pairs for the parallel arrays and
    the pair rows; the keyed records give that list with [undefined] in the
    place of every empty label, and so the same row model exactly when no
    label is empty. *)
Theorem table_shapes_agree (labels : jsval) (rows : list (string * scalar)) :
  rows ≠ [] →
  (∀ toLocaleString toFixed1 formatValue showIndex toString,
     let drawn :=
       rendered_rows toLocaleString toFixed1 formatValue showIndex toString
         (parallel_labels rows) (parallel_data rows) in
     drawn.2 = None
     ∧ length drawn.1 = length rows
     ∧ rendered_rows toLocaleString toFixed1 formatValue showIndex toString
         labels (pair_rows rows) = drawn
     ∧ rendered_rows toLocaleString toFixed1 formatValue showIndex toString
         labels (keyed_records rows) = drawn)
  ∧ tableData (parallel_labels rows) (parallel_data rows) = Ok (pair_rows rows)
  ∧ tableData labels (pair_rows rows) = Ok (pair_rows rows)
  ∧ tableData labels (keyed_records rows) = Ok (record_rows rows)
  ∧ (tableData labels (keyed_records rows) = Ok (pair_rows rows)
     ↔ Forall (λ r, r.1 ≠ "") rows).
Proof.
  intros Hne. split_and!.
  - intros. by apply rendered_rows_shapes.
  - apply tableData_parallel.
  - by apply tableData_pairs.
  - by apply tableData_records.
  - rewrite (tableData_records labels rows Hne), <- record_rows_pairs.
    split; [by intros [= ->]|by intros ->].
Qed.

Lemma table_shapes_agree_witness :
  rendered_rows (λ _, "1,107") (λ _, "") None false (λ _, "")
    VUndef (keyed_records [("", SNum (Fin 1107))])
  = rendered_rows (λ _, "1,107") (λ _, "") None false (λ _, "")
      (parallel_labels [("", SNum (Fin 1107))])
      (parallel_data [("", SNum (Fin 1107))])
  ∧ tableData VUndef (keyed_records [("", SNum (Fin 1107))])
    = Ok [VArr [VUndef; VNum (Fin 1107)]]
  ∧ tableData (parallel_labels [("", SNum (Fin 1107))])
      (parallel_data [("", SNum (Fin 1107))])
    = Ok [VArr [VStr ""; VNum (Fin 1107)]].
Proof.
  destruct (table_shapes_agree VUndef [("", SNum (Fin 1107))])
    as (Hdrawn & Hp & _ & Hr & _); [discriminate|].
  destruct (Hdrawn (λ _, "1,107") (λ _, "") None false (λ _, ""))
    as (_ & _ & _ & Hk).
  split; [exact Hk|]. split; [exact Hr|exact Hp].
Defined.

(** ** The dependency guard *)

(** C7, on the code. With [d3] bound to [undefined], each of the seven chart
    functions logs the error, returns [null] and leaves every drawing surface
    as it was; [createDataTable], which has no guard, throws a [TypeError] at
    [d3.select], logging nothing and returning nothing. *)
Theorem createDataTable_unguarded {browser : Browser}
    (c : list (level * string)) (s : gmap string (list visual)) (o : list overlay)
    (σ : store) (containerId : string) (labels : list string)
    (datasets : list dataset) (data data2 : list jsnum) (ty l1 l2 : string)
    (toLocaleString toFixed1 : jsnum → string)
    (formatValue : option (jsval → nat → nat → jsval)) (showIndex : bool)
    (tlabels : jsval) (tdata : list jsval) :
  let p := {| console := c; d3 := D3Undefined; surfaces := s; overlays := o |} in
  let logged := (log ErrorLevel "D3.js not loaded" p, Ok RNull) in
  surfaces (log ErrorLevel "D3.js not loaded" p) = s
  ∧ createMultiSeriesBarChart σ containerId labels datasets p = logged
  ∧ createPercentageBarChart containerId labels data ty p = logged
  ∧ createMultiColorBarChart containerId labels data p = logged
  ∧ createPieChart toFixed1 containerId labels data p = logged
  ∧ createMultiScaleBarChart σ containerId labels datasets p = (σ, logged.1, logged.2)
  ∧ createComparisonBarChart containerId labels data data2 l1 l2 p = logged
  ∧ createDoughnutChart containerId labels data p = logged
  ∧ createDataTable toLocaleString toFixed1 formatValue showIndex
      containerId tlabels tdata p
    = (p, Throw TypeError).
Proof. repeat split. Qed.

(** ** Element ids *)

Lemma css_identifier_chars (id : string) :
  css_identifier id = true → all_chars name_char id = true.
Proof.
  destruct id as [|c rest]; [done|]. cbn [css_identifier all_chars].
  destruct (name_start c) eqn:Hs.
  - intros ->. unfold name_char. by rewrite Hs.
  - destruct (Ascii.eqb c "-") eqn:Hh; [|done].
    destruct rest as [|c' rest']; [done|].
    intros [H1 H2]%andb_true_iff. cbn [all_chars]. rewrite H2.
    unfold name_char. rewrite Hs, Hh, H1. cbn.
    by rewrite orb_true_r.
Qed.

Lemma css_identifier_menu (id : string) :
  css_identifier id = true → css_identifier ("context-menu-" +:+ id) = true.
Proof. intros H. exact (css_identifier_chars id H). Qed.

Lemma css_identifier_table_menu (id : string) :
  css_identifier id = true → css_identifier ("context-menu-table-" +:+ id) = true.
Proof. intros H. exact (css_identifier_chars id H). Qed.






(** ** Length mismatches *)

Section Mismatch.

Context {browser : Browser}.




Lemma with_d3_loaded (p : page) (v : visual) (containerId : string) :
  d3 p = D3Loaded →
  with_d3 p (chart_body containerId v) = chart_body containerId v p.
Proof. intros H. unfold with_d3. by rewrite H. Qed.

End Mismatch.




(** ** The counters of a builder *)

Section Counters.

Import PageBuilder Claims.

Lemma bind_unfold {A B} (m : M A) (f : A → M B) (s : state) :
  (m ≫= f) s
  = match m s with
    | (s', Ok a) => f a s'
    | (s', Throw e) => (s', Throw e)
    end.
Proof. reflexivity. Qed.

Lemma bind_Ok {A B} (m : M A) (f : A → M B) (s s1 : state) (a : A) :
  m s = (s1, Ok a) → (m ≫= f) s = f a s1.
Proof. intros H. by rewrite bind_unfold, H. Qed.

Lemma keeps_ret {A} (a : A) : keeps (mret a : M A).
Proof. by intros s. Qed.

Lemma keeps_throw {A} (e : error) : keeps (throw e : M A).
Proof. by intros s. Qed.

Lemma keeps_this : keeps this.
Proof. by intros s. Qed.

Lemma keeps_the_document : keeps the_document.
Proof. by intros s. Qed.

Lemma keeps_set_document (f : document → document) :
  (∀ d, doc_body (f d) = doc_body d) → keeps (set_document f).
Proof. intros Hf s. split; [done|apply Hf]. Qed.

Lemma keeps_set_isInitialized (v : bool) : keeps (set_this (with_isInitialized v)).
Proof. by intros s. Qed.

Lemma keeps_set_currentDocument (v : option nat) :
  keeps (set_this (with_currentDocument v)).
Proof. by intros s. Qed.

Lemma keeps_bind {A B} (m : M A) (f : A → M B) :
  keeps m → (∀ a, keeps (f a)) → keeps (m ≫= f).
Proof.
  intros Hm Hf s. rewrite bind_unfold. specialize (Hm s).
  destruct (m s) as [s' [a|e]]; simpl in *; [|done].
  destruct (Hf a s') as [-> ->]. done.
Qed.

Lemma grows_bind {A B} (m : M A) (f : A → M B) :
  grows m → (∀ a, grows (f a)) → grows (m ≫= f).
Proof.
  intros Hm Hf s. rewrite bind_unfold. specialize (Hm s).
  destruct (m s) as [s' [a|e]]; simpl in *; [|done].
  specialize (Hf a s'). lia.
Qed.

Lemma keeps_grows {A} (m : M A) : keeps m → grows m.
Proof.
  intros H s. destruct (H s) as [Hc _]. unfold counters in Hc.
  injection Hc as -> ->. lia.
Qed.

Create HintDb counters discriminated.

Hint Constants Opaque : counters.

Hint Resolve keeps_ret keeps_throw keeps_this keeps_the_document
  keeps_set_isInitialized keeps_set_currentDocument : counters.
Hint Extern 1 (keeps (set_document _)) =>
  apply keeps_set_document; intros ?; reflexivity : counters.

(** Decompose a method into its binds and branches. *)
Ltac keeps_step :=
  first
    [ solve [eauto with counters]
    | match goal with
      | |- keeps (match ?x with _ => _ end) => destruct x; cbv beta iota
      | |- keeps (if ?x then _ else _) => destruct x; cbv beta iota
      | |- keeps (_ ≫= _) => apply keeps_bind; [|intros ?]
      end ].

Ltac keeps_auto := repeat keeps_step.

Lemma keeps_console_log (l : level) (msg : string) : keeps (console_log l msg).
Proof. by apply keeps_set_document. Qed.

Lemma keeps_loadScript (src : string) (l : bool) : keeps (loadScript src l).
Proof. unfold loadScript. keeps_auto. Qed.

Hint Resolve keeps_console_log keeps_loadScript : counters.

Lemma keeps_initialize (l : bool) : keeps (initialize l).
Proof.
  unfold initialize. apply keeps_bind; [eauto with counters|]. intros b.
  destruct (isInitialized b); [apply keeps_ret|].
  intros s.
  match goal with
  | |- context [match ?m s with _ => _ end] =>
      assert (Hm : keeps m) by keeps_auto; specialize (Hm s);
      destruct (m s) as [s' [a|e]]
  end; simpl in *; done.
Qed.

Hint Resolve keeps_initialize : counters.

Lemma keeps_ensureInitialized (l : bool) : keeps (ensureInitialized l).
Proof. unfold ensureInitialized. keeps_auto. Qed.

Lemma keeps_addDefaultStyles : keeps addDefaultStyles.
Proof. by apply keeps_set_document. Qed.

Lemma keeps_create_container (c : container) : keeps (create_container c).
Proof. by intros s. Qed.

Hint Resolve keeps_ensureInitialized keeps_addDefaultStyles
  keeps_create_container : counters.

Lemma keeps_query (sel : selector) : keeps (query sel).
Proof. unfold query. keeps_auto. Qed.

Hint Resolve keeps_query : counters.

Lemma keeps_query_or_content (sel : selector) : keeps (query_or_content sel).
Proof. unfold query_or_content. keeps_auto. Qed.

Lemma keeps_update_current (f : container → container) : keeps (update_current f).
Proof. unfold update_current. keeps_auto. Qed.

Hint Resolve keeps_query_or_content keeps_update_current : counters.

Lemma keeps_append_block (parent : option target) (b : block) :
  keeps (append_block parent b).
Proof. unfold append_block. keeps_auto. Qed.

Lemma keeps_append_section (parent : option target) (s : section) :
  keeps (append_section parent s).
Proof. unfold append_section. keeps_auto. Qed.

Hint Resolve keeps_append_block keeps_append_section : counters.

Lemma keeps_addExecutiveSummary (c : string) (p : option selector) :
  keeps (addExecutiveSummary c p).
Proof. unfold addExecutiveSummary. keeps_auto. Qed.

Lemma keeps_addKeyFinding (c : string) (p : option selector) :
  keeps (addKeyFinding c p).
Proof. unfold addKeyFinding. keeps_auto. Qed.

Lemma keeps_addRecommendation (c : string) (pr : option string)
    (p : option selector) :
  keeps (addRecommendation c pr p).
Proof. unfold addRecommendation. keeps_auto. Qed.

Lemma keeps_addTextContent (c : string) (p : option selector) :
  keeps (addTextContent c p).
Proof. unfold addTextContent. keeps_auto. Qed.

Lemma keeps_createContentGrid (p : option selector) : keeps (createContentGrid p).
Proof. unfold createContentGrid. keeps_auto. Qed.

Lemma keeps_validateChartData (l d : jsval) : keeps (validateChartData l d).
Proof. unfold validateChartData. keeps_auto. Qed.

Lemma keeps_getCurrentSection : keeps getCurrentSection.
Proof. unfold getCurrentSection. keeps_auto. Qed.

Lemma keeps_build_content (sectionId : string) (c : content_item) :
  keeps (build_content sectionId c).
Proof.
  unfold build_content. destruct (ct_type c).
  - apply keeps_addKeyFinding.
  - apply keeps_addRecommendation.
  - apply keeps_addTextContent.
Qed.

(** [createDocument] leaves the counters alone and makes the new container
    the only child of the body. *)
Lemma createDocument_spec (config : document_config) (s : state) :
  counters (createDocument config s).1 = counters s
  ∧ ∃ r, (createDocument config s).2 = Ok r
         ∧ doc_body (createDocument config s).1.2 = [ReportContainer r]
         ∧ currentDocument (createDocument config s).1.1 = Some r
         ∧ doc_elements s.2 !! r = None
         ∧ doc_elements (createDocument config s).1.2 !! r
           = Some {| c_className :=
                       default "report-container" (dc_containerClass config);
                     c_inner :=
                       Some {| i_title :=
                                 default "Analysis Report" (dc_title config);
                               i_subtitle :=
                                 if_truthy (default "" (dc_subtitle config));
                               i_main := [] |} |}.
Proof.
  unfold createDocument.
  destruct (default true (dc_includeDefaultStyles config)).
  - split; [done|]. eexists. split; [reflexivity|]. simpl.
    split; [done|]. split; [done|].
    split; [apply not_elem_of_dom, is_fresh|by rewrite lookup_insert_eq].
  - split; [done|]. eexists. split; [reflexivity|]. simpl.
    split; [done|]. split; [done|].
    split; [apply not_elem_of_dom, is_fresh|by rewrite lookup_insert_eq].
Qed.

Lemma createDocument_grows (config : document_config) :
  grows (createDocument config).
Proof.
  intros s. destruct (createDocument_spec config s) as [H _].
  unfold counters in H. injection H as -> ->. lia.
Qed.

Lemma createSection_grows (config : section_config) :
  grows (createSection config).
Proof.
  unfold createSection. apply grows_bind.
  - destruct (sc_title config).
    + apply keeps_grows. keeps_auto.
    + intros s. simpl. lia.
  - intros t. apply keeps_grows. keeps_auto.
Qed.

(** A container created without an identifier takes the next value of
    [chartCounter]; one created with an identifier leaves it alone. *)
Lemma createChartContainer_counter (config : chart_container_config) (s : state) :
  match cc_containerId config with
  | None =>
      counters (createChartContainer config s).1
      = (S (chartCounter s.1), sectionCounter s.1)
      ∧ ∀ id, (createChartContainer config s).2 = Ok id →
              id = chart_id (S (chartCounter s.1))
  | Some _ => counters (createChartContainer config s).1 = counters s
  end.
Proof.
  destruct (cc_containerId config) eqn:E.
  - assert (H : keeps (createChartContainer config)).
    { unfold createChartContainer. rewrite E. keeps_auto. }
    apply H.
  - unfold createChartContainer. rewrite E.
    rewrite (bind_Ok _ _ s _ _ eq_refl).
    set (s0 := (with_chartCounter (S (chartCounter s.1)) s.1, s.2)).
    rewrite bind_unfold.
    match goal with
    | |- context [query_or_content ?sel s0] =>
        pose proof (proj1 (keeps_query_or_content sel s0)) as Hq;
        destruct (query_or_content sel s0) as [s1 [parent|e]]
    end; [|by split].
    rewrite bind_unfold.
    match goal with
    | |- context [append_block ?p ?b s1] =>
        pose proof (proj1 (keeps_append_block p b s1)) as Ha;
        destruct (append_block p b s1) as [s2 [[]|e]]
    end; simpl in *.
    + split; [by rewrite Ha, Hq|]. by intros id [= <-].
    + split; [by rewrite Ha, Hq|done].
Qed.

Lemma createChartContainer_grows (config : chart_container_config) :
  grows (createChartContainer config).
Proof.
  intros s. pose proof (createChartContainer_counter config s) as H.
  destruct (cc_containerId config).
  - unfold counters in H. injection H as -> ->. lia.
  - destruct H as [H _]. unfold counters in H. injection H as -> ->. lia.
Qed.

(** The same for the eight chart methods, which create their container
    after the initialisation. *)
Lemma createChart_counter (kind : chart_type) (l : bool) (config : chart_config)
    (s : state) :
  chartCounter s.1 ≤ chartCounter (createChart kind l config s).1.1
  ∧ sectionCounter s.1 ≤ sectionCounter (createChart kind l config s).1.1
  ∧ (ch_containerId config ≫= if_truthy = None →
     ∀ id, (createChart kind l config s).2 = Ok id →
           id = chart_id (chartCounter (createChart kind l config s).1.1)
           ∧ chartCounter s.1 < chartCounter (createChart kind l config s).1.1).
Proof.
  unfold createChart. rewrite bind_unfold.
  pose proof (proj1 (keeps_ensureInitialized l s)) as Hinit.
  destruct (ensureInitialized l s) as [s1 [[]|e]]; simpl in Hinit;
    unfold counters in Hinit; injection Hinit as Hc Hs; [|simpl; by rewrite Hc, Hs].
  rewrite <- Hc, <- Hs. clear Hc Hs.
  destruct (ch_containerId config ≫= if_truthy) as [c|].
  - rewrite (bind_Ok _ _ s1 _ _ eq_refl). simpl. done.
  - rewrite bind_unfold.
    match goal with
    | |- context [createChartContainer ?c s1] =>
        pose proof (createChartContainer_counter c s1) as H;
        destruct (createChartContainer c s1) as [s2 [id|e]]
    end; simpl in H; destruct H as [H Hid]; unfold counters in H;
      injection H as Hc Hs; simpl; rewrite Hc, Hs.
    + split; [lia|]. split; [lia|]. intros _ id' [= <-].
      split; [by apply Hid|lia].
    + split; [lia|]. split; [lia|]. done.
Qed.

Lemma createChart_grows (kind : chart_type) (l : bool) (config : chart_config) :
  grows (createChart kind l config).
Proof.
  intros s. destruct (createChart_counter kind l config s) as (? & ? & _). done.
Qed.

Lemma for_each_grows {A} (f : A → M unit) (xs : list A) :
  (∀ x, grows (f x)) → grows (for_each f xs).
Proof.
  intros Hf. induction xs as [|x xs IH]; simpl.
  - apply keeps_grows, keeps_ret.
  - apply grows_bind; [apply Hf|by intros _].
Qed.

Lemma build_section_grows (l : bool) (sectionData : section_data) :
  grows (build_section l sectionData).
Proof.
  unfold build_section. apply grows_bind; [apply createSection_grows|].
  intros section. apply grows_bind.
  - apply for_each_grows. intros c. unfold build_chart.
    destruct (rc_type c); [|apply keeps_grows, keeps_ret].
    apply grows_bind; [apply createChart_grows|].
    intros _. apply keeps_grows, keeps_ret.
  - intros _. apply for_each_grows. intros c.
    apply keeps_grows, keeps_build_content.
Qed.

Lemma buildDemographicsReport_grows (l : bool) (reportData : report_data) :
  grows (buildDemographicsReport l reportData).
Proof.
  unfold buildDemographicsReport.
  apply grows_bind; [apply keeps_grows; eauto with counters|]. intros _.
  apply grows_bind; [apply createDocument_grows|]. intros _.
  apply grows_bind.
  { apply keeps_grows. destruct (if_truthy _); [|apply keeps_ret].
    apply keeps_addExecutiveSummary. }
  intros _. apply grows_bind.
  { apply for_each_grows, build_section_grows. }
  intros _. apply keeps_grows. keeps_auto.
Qed.

Lemma other_grows {A} (m : M A) : grows m → grows (other m).
Proof.
  intros H. unfold other. apply grows_bind; [done|].
  intros _. apply keeps_grows, keeps_ret.
Qed.

(** Every operation but [reset] leaves the counters where they were or
    higher. *)
Lemma exec_grows (o : op) : is_reset o = false → grows (exec o).
Proof.
  intros Hr. destruct o; simpl in *; try discriminate.
  - apply other_grows, keeps_grows, keeps_initialize.
  - apply other_grows, keeps_grows, keeps_loadScript.
  - apply other_grows, keeps_grows, keeps_ensureInitialized.
  - apply other_grows, createDocument_grows.
  - apply other_grows, keeps_grows, keeps_addDefaultStyles.
  - apply grows_bind; [apply createSection_grows|].
    intros id. apply keeps_grows, keeps_ret.
  - apply grows_bind; [apply createChartContainer_grows|].
    intros id. apply keeps_grows, keeps_ret.
  - apply other_grows, keeps_grows, keeps_addExecutiveSummary.
  - apply other_grows, keeps_grows, keeps_addKeyFinding.
  - apply other_grows, keeps_grows, keeps_addRecommendation.
  - apply other_grows, keeps_grows, keeps_addTextContent.
  - apply other_grows, keeps_grows, keeps_createContentGrid.
  - apply grows_bind; [apply createChart_grows|].
    intros id. apply keeps_grows, keeps_ret.
  - apply other_grows, keeps_grows, keeps_ret.
  - apply other_grows, keeps_grows, keeps_ret.
  - apply other_grows, keeps_grows, keeps_validateChartData.
  - apply other_grows, keeps_grows, keeps_getCurrentSection.
  - apply other_grows, keeps_grows, keeps_ret.
  - apply other_grows, buildDemographicsReport_grows.
Qed.

Lemma chart_id_inj (n m : nat) : chart_id n = chart_id m → n = m.
Proof.
  unfold chart_id. intros H. apply (inj pretty).
  by apply (inj (String.app "chart-")) in H.
Qed.

(** An identifier generated by a call is the one of the counter value the
    call leaves behind, which is above the value it found. *)
Lemma exec_generated (o : op) (s : state) (id : string) :
  generates_chart_id o = true → (exec o s).2 = Ok (Id id) →
  id = chart_id (chartCounter (exec o s).1.1)
  ∧ chartCounter s.1 < chartCounter (exec o s).1.1.
Proof.
  destruct o; try discriminate; simpl.
  - intros Hgen. rewrite bind_unfold.
    pose proof (createChartContainer_counter config s) as H.
    destruct (cc_containerId config); [discriminate|].
    destruct H as [Hc Hid]. unfold counters in Hc. injection Hc as Hc _.
    destruct (createChartContainer config s) as [s1 [id'|e]]; simpl in *;
      [|discriminate].
    intros [= <-]. rewrite Hc. split; [by apply Hid|lia].
  - intros Hgen. rewrite bind_unfold.
    destruct (createChart_counter kind script_loads config s) as (_ & _ & H).
    destruct (ch_containerId config ≫= if_truthy); [discriminate|].
    specialize (H eq_refl).
    destruct (createChart kind script_loads config s) as [s1 [id'|e]];
      simpl in *; [|discriminate].
    intros [= <-]. by apply H.
Qed.

Lemma run_cons (o : op) (ops : list op) (s : state) :
  run (o :: ops) s
  = ((run ops (exec o s).1).1,
     generated o (exec o s).2 (exec o s).1 ++ (run ops (exec o s).1).2).
Proof.
  simpl. destruct (exec o s) as [s' r]. simpl.
  by destruct (run ops s') as [s'' ids].
Qed.

(** *** The body of the document *)

Lemma keeps_replaces {A} (m : M A) : keeps m → replaces m.
Proof. intros H s. left. apply H. Qed.

Lemma replaces_bind {A B} (m : M A) (f : A → M B) :
  replaces m → (∀ a, replaces (f a)) → replaces (m ≫= f).
Proof.
  intros Hm Hf s. rewrite bind_unfold. specialize (Hm s).
  destruct (m s) as [s' [a|e]]; simpl in *; [|done].
  destruct (Hf a s') as [Heq|Hnew]; [|by right].
  destruct Hm as [Heq'|Hnew]; [left; congruence|right].
  destruct Hnew as [r Hr]. exists r. congruence.
Qed.

Lemma replaces_set_this (f : builder → builder) : replaces (set_this f).
Proof. intros s. by left. Qed.

Lemma replaces_createDocument (config : document_config) :
  replaces (createDocument config).
Proof.
  intros s. destruct (createDocument_spec config s) as (_ & r & _ & Hb & _).
  right. by exists r.
Qed.

Lemma replaces_createSection (config : section_config) :
  replaces (createSection config).
Proof.
  unfold createSection. apply replaces_bind.
  - destruct (sc_title config); [apply keeps_replaces, keeps_ret|].
    intros s. by left.
  - intros t. apply keeps_replaces. keeps_auto.
Qed.

Lemma replaces_createChartContainer (config : chart_container_config) :
  replaces (createChartContainer config).
Proof.
  unfold createChartContainer. apply replaces_bind.
  - destruct (cc_containerId config); [apply keeps_replaces, keeps_ret|].
    intros s. by left.
  - intros t. apply keeps_replaces. keeps_auto.
Qed.

Lemma replaces_createChart (kind : chart_type) (l : bool) (config : chart_config) :
  replaces (createChart kind l config).
Proof.
  unfold createChart.
  apply replaces_bind; [apply keeps_replaces; eauto with counters|]. intros _.
  apply replaces_bind.
  - destruct (ch_containerId config ≫= if_truthy);
      [apply keeps_replaces, keeps_ret|apply replaces_createChartContainer].
  - intros id. apply keeps_replaces. keeps_auto.
Qed.

Lemma replaces_reset : replaces reset.
Proof.
  unfold reset. apply replaces_bind; [apply keeps_replaces, keeps_this|].
  intros b. apply replaces_bind.
  - apply keeps_replaces. keeps_auto.
  - intros _. apply replaces_bind; [apply replaces_set_this|].
    intros _. apply replaces_set_this.
Qed.

Lemma replaces_for_each {A} (f : A → M unit) (xs : list A) :
  (∀ x, replaces (f x)) → replaces (for_each f xs).
Proof.
  intros Hf. induction xs as [|x xs IH]; simpl.
  - apply keeps_replaces, keeps_ret.
  - apply replaces_bind; [apply Hf|by intros _].
Qed.

Lemma replaces_buildDemographicsReport (l : bool) (reportData : report_data) :
  replaces (buildDemographicsReport l reportData).
Proof.
  unfold buildDemographicsReport.
  apply replaces_bind; [apply keeps_replaces; eauto with counters|]. intros _.
  apply replaces_bind; [apply replaces_createDocument|]. intros _.
  apply replaces_bind.
  { apply keeps_replaces. destruct (if_truthy _); [|apply keeps_ret].
    apply keeps_addExecutiveSummary. }
  intros _. apply replaces_bind; [|intros _; apply keeps_replaces; keeps_auto].
  apply replaces_for_each. intros sd. unfold build_section.
  apply replaces_bind; [apply replaces_createSection|]. intros section.
  apply replaces_bind.
  - apply replaces_for_each. intros c. unfold build_chart.
    destruct (rc_type c); [|apply keeps_replaces, keeps_ret].
    apply replaces_bind; [apply replaces_createChart|].
    intros _. apply keeps_replaces, keeps_ret.
  - intros _. apply replaces_for_each. intros c.
    apply keeps_replaces, keeps_build_content.
Qed.

Lemma replaces_other {A} (m : M A) : replaces m → replaces (other m).
Proof.
  intros H. unfold other. apply replaces_bind; [done|].
  intros _. apply keeps_replaces, keeps_ret.
Qed.

Lemma replaces_exec (o : op) : replaces (exec o).
Proof.
  destruct o; simpl.
  - apply replaces_other, keeps_replaces, keeps_initialize.
  - apply replaces_other, keeps_replaces, keeps_loadScript.
  - apply replaces_other, keeps_replaces, keeps_ensureInitialized.
  - apply replaces_other, replaces_createDocument.
  - apply replaces_other, keeps_replaces, keeps_addDefaultStyles.
  - apply replaces_bind; [apply replaces_createSection|].
    intros id. apply keeps_replaces, keeps_ret.
  - apply replaces_bind; [apply replaces_createChartContainer|].
    intros id. apply keeps_replaces, keeps_ret.
  - apply replaces_other, keeps_replaces, keeps_addExecutiveSummary.
  - apply replaces_other, keeps_replaces, keeps_addKeyFinding.
  - apply replaces_other, keeps_replaces, keeps_addRecommendation.
  - apply replaces_other, keeps_replaces, keeps_addTextContent.
  - apply replaces_other, keeps_replaces, keeps_createContentGrid.
  - apply replaces_bind; [apply replaces_createChart|].
    intros id. apply keeps_replaces, keeps_ret.
  - apply replaces_other, keeps_replaces, keeps_ret.
  - apply replaces_other, keeps_replaces, keeps_ret.
  - apply replaces_other, keeps_replaces, keeps_validateChartData.
  - apply replaces_other, keeps_replaces, keeps_getCurrentSection.
  - apply replaces_other, keeps_replaces, keeps_ret.
  - apply replaces_other, replaces_reset.
  - apply replaces_other, replaces_buildDemographicsReport.
Qed.

Lemma run_report_containers (ops : list op) (s : state) :
  length (report_containers s.2) ≤ 1 →
  length (report_containers (run ops s).1.2) ≤ 1.
Proof.
  revert s. induction ops as [|o ops IH]; intros s Hs; [done|].
  rewrite run_cons. simpl. apply IH.
  destruct (replaces_exec o s) as [Heq|[r Hr]]; unfold report_containers in *.
  - by rewrite Heq.
  - rewrite Hr. simpl. lia.
Qed.

End Counters.

Section BuilderClaims.

Import PageBuilder Claims.

(** C10. Whatever the body held, after [createDocument] its only child is
    the new report container, an element that did not exist before, which
    is also the builder's current document; and however the operations of
    builders follow one another, a body with at most one report container
    never comes to hold two. *)
Theorem createDocument_erases_body :
  (∀ config s,
     ∃ r, (createDocument config s).2 = Ok r
          ∧ doc_body (createDocument config s).1.2 = [ReportContainer r]
          ∧ currentDocument (createDocument config s).1.1 = Some r
          ∧ doc_elements s.2 !! r = None)
  ∧ (∀ ops s, length (report_containers s.2) ≤ 1 →
              length (report_containers (run ops s).1.2) ≤ 1).
Proof.
  split.
  - intros config s.
    destruct (createDocument_spec config s) as (_ & r & Hr & Hb & Hc & Hf & _).
    by exists r.
  - exact run_report_containers.
Qed.

End BuilderClaims.

(** * Further properties *)

(** ** Normalisation: order, units, short series *)

Section MoreBranches.

Local Open Scope Q_scope.

Lemma scaled_quotient_le (v1 v2 d k c : Q) :
  0 <= d → 0 <= k → v1 <= v2 → v1 / d * k + c <= v2 / d * k + c.
Proof.
  intros Hd Hk Hv. apply Qplus_le_l. apply Qmult_le_compat_r; [|done].
  unfold Qdiv. apply Qmult_le_compat_r; [done|]. by apply Qinv_le_0_compat.
Qed.

Lemma spec_branches_monotone (a b v1 v2 : Q) :
  a <= b → v1 <= v2 → spec_branches a b v1 <= spec_branches a b v2.
Proof.
  intros Hab Hv. unfold spec_branches.
  destruct (Qeq_bool a b); [apply Qle_refl|].
  destruct (Qle_bool 0 a) eqn:Epos.
  { apply Qle_bool_iff in Epos.
    pose proof (scaled_quotient_le v1 v2 b 100 0) as H.
    rewrite !Qplus_0_r in H. apply H; [lra|lra|done]. }
  destruct (Qle_bool b 0).
  { pose proof (scaled_quotient_le v1 v2 (Qabs a) 100 0) as H.
    rewrite !Qplus_0_r in H. apply H; [apply Qabs_nonneg|lra|done]. }
  apply scaled_quotient_le; [|lra|done].
  eapply Qle_trans; [apply (Qabs_nonneg a)|apply Q.le_max_l].
Qed.

Lemma spec_branches_scale (c a b v : Q) :
  0 < c → a <= b → spec_branches (c * a) (c * b) (c * v) == spec_branches a b v.
Proof.
  intros Hc Hab. unfold spec_branches.
  assert (Heq : Qeq_bool (c * a) (c * b) = Qeq_bool a b).
  { destruct (Qeq_bool a b) eqn:E.
    - apply Qeq_bool_iff in E. apply Qeq_bool_iff. by rewrite E.
    - apply Qeq_bool_neq in E. apply Qeq_bool_false. intros H. apply E.
      apply (Qmult_inj_l a b c); [lra|done]. }
  assert (Hpos : Qle_bool 0 (c * a) = Qle_bool 0 a).
  { destruct (Qle_bool 0 a) eqn:E.
    - apply Qle_bool_iff in E. apply Qle_bool_iff. nra.
    - apply Qle_bool_false in E. destruct (Qle_bool 0 (c * a)) eqn:E'; [|done].
      apply Qle_bool_iff in E'. nra. }
  assert (Hneg : Qle_bool (c * b) 0 = Qle_bool b 0).
  { destruct (Qle_bool b 0) eqn:E.
    - apply Qle_bool_iff in E. apply Qle_bool_iff. nra.
    - apply Qle_bool_false in E. destruct (Qle_bool (c * b) 0) eqn:E'; [|done].
      apply Qle_bool_iff in E'. nra. }
  rewrite Heq, Hpos, Hneg.
  destruct (Qeq_bool a b) eqn:Eeq; [reflexivity|]. apply Qeq_bool_neq in Eeq.
  destruct (Qle_bool 0 a) eqn:Ea.
  { apply Qle_bool_iff in Ea.
    assert (¬ b == 0). { intros H. apply Eeq. apply Qle_antisym; lra. }
    field. split; [done|lra]. }
  apply Qle_bool_false in Ea.
  assert (Habs : ∀ x, Qabs (c * x) == c * Qabs x).
  { intros x. rewrite Qabs_Qmult. rewrite (Qabs_pos c) by lra. reflexivity. }
  destruct (Qle_bool b 0).
  { rewrite Habs. assert (¬ Qabs a == 0).
    { rewrite Qabs_neg by lra. lra. }
    field. split; [done|lra]. }
  rewrite !Habs.
  assert (Hmax : Qmax (c * Qabs a) (c * Qabs b) == c * Qmax (Qabs a) (Qabs b)).
  { destruct (Q.max_spec (Qabs a) (Qabs b)) as [[Hlt ->]|[Hle ->]].
    - apply Q.max_r. nra.
    - apply Q.max_l. nra. }
  rewrite Hmax.
  assert (¬ Qmax (Qabs a) (Qabs b) == 0).
  { pose proof (Q.le_max_l (Qabs a) (Qabs b)) as H.
    rewrite (Qabs_neg a) in H at 1 by lra. lra. }
  field. split; [done|lra].
Qed.

End MoreBranches.

Section MoreColumns.

Local Open Scope Q_scope.

Lemma Qmin_scale (c x y : Q) : 0 < c → Qmin (c * x) (c * y) == c * Qmin x y.
Proof.
  intros Hc. destruct (Q.min_spec x y) as [[Hlt ->]|[Hle ->]].
  - apply Q.min_l. apply Qmult_le_l; [done|by apply Qlt_le_weak].
  - apply Q.min_r. by apply Qmult_le_l.
Qed.

Lemma Qmax_scale (c x y : Q) : 0 < c → Qmax (c * x) (c * y) == c * Qmax x y.
Proof.
  intros Hc. destruct (Q.max_spec x y) as [[Hlt ->]|[Hle ->]].
  - apply Q.max_r. apply Qmult_le_l; [done|by apply Qlt_le_weak].
  - apply Q.max_l. by apply Qmult_le_l.
Qed.

Lemma Qmin_list_scale (c : Q) (col : list Q) :
  0 < c → col ≠ [] → Qmin_list (map (Qmult c) col) == c * Qmin_list col.
Proof.
  intros Hc. induction col as [|x [|y col] IH]; intros Hne; [done| |].
  - simpl. reflexivity.
  - change (map (Qmult c) (x :: y :: col))
      with (c * x :: c * y :: map (Qmult c) col).
    rewrite !Qmin_list_cons.
    change (c * y :: map (Qmult c) col) with (map (Qmult c) (y :: col)).
    rewrite IH by done. by apply Qmin_scale.
Qed.

Lemma Qmax_list_scale (c : Q) (col : list Q) :
  0 < c → col ≠ [] → Qmax_list (map (Qmult c) col) == c * Qmax_list col.
Proof.
  intros Hc. induction col as [|x [|y col] IH]; intros Hne; [done| |].
  - simpl. reflexivity.
  - change (map (Qmult c) (x :: y :: col))
      with (c * x :: c * y :: map (Qmult c) col).
    rewrite !Qmax_list_cons.
    change (c * y :: map (Qmult c) col) with (map (Qmult c) (y :: col)).
    rewrite IH by done. by apply Qmax_scale.
Qed.

Lemma spec_normalized_proper (col : list Q) (a b v : Q) :
  Qmin_list col == a → Qmax_list col == b →
  spec_normalized col v == spec_branches a b v.
Proof.
  intros Ha Hb. unfold spec_normalized, spec_branches.
  rewrite (Qeqb_comp _ _ Ha _ _ Hb).
  rewrite (Qleb_comp 0 0 (Qeq_refl 0) _ _ Ha).
  rewrite (Qleb_comp _ _ Hb 0 0 (Qeq_refl 0)).
  destruct (Qeq_bool a b); [reflexivity|].
  destruct (Qle_bool 0 a); [by rewrite Hb|].
  destruct (Qle_bool b 0); [by rewrite Ha|].
  by rewrite Ha, Hb.
Qed.

Lemma series_column_rescale (c : nat → Q) (series : list (list Q)) (n i : nat) :
  Forall (λ s, length s = n) series → (i < n)%nat →
  series_column (map (rescale c) series) i
  = map (Qmult (c i)) (series_column series i).
Proof.
  intros Hlen Hi. unfold series_column. rewrite !map_map.
  apply map_ext_Forall. eapply Forall_impl; [exact Hlen|].
  intros s Hs. simpl in *. unfold rescale. rewrite list_lookup_imap.
  destruct (lookup_lt_is_Some_2 s i) as [v Hv]; [lia|]. by rewrite Hv.
Qed.

End MoreColumns.

Lemma series_column_elem (series : list (list Q)) (k i : nat) (s : list Q) (v : Q) :
  series !! k = Some s → s !! i = Some v → v ∈ series_column series i.
Proof.
  intros Hs Hv. unfold series_column. apply list_elem_of_fmap. exists s.
  split; [by rewrite Hv|]. by eapply list_elem_of_lookup_2.
Qed.

(** X1. Within one category position the normalisation keeps the order of
    the series: for datasets holding finite series of one length, a series
    whose value at position [i] is at most that of another series gets a
    normalised value at [i] that is at most the other's. *)
Theorem normalization_preserves_order (σ : store) (datasets : list dataset)
    (series : list (list Q)) (n k1 k2 i : nat) (s1 s2 : list Q) (v1 v2 : Q) :
  holds_series σ datasets series → Forall (λ s, length s = n) series →
  series !! k1 = Some s1 → series !! k2 = Some s2 →
  s1 !! i = Some v1 → s2 !! i = Some v2 → (v1 <= v2)%Q →
  ∃ arr1 arr2 q1 q2,
    normalized_values σ datasets !! k1 = Some arr1
    ∧ normalized_values σ datasets !! k2 = Some arr2
    ∧ arr1 !! i = Some (Fin q1) ∧ arr2 !! i = Some (Fin q2)
    ∧ (q1 <= q2)%Q.
Proof.
  intros Hholds Hlen Hs1 Hs2 Hv1 Hv2 Hle.
  destruct (normalized_values_series _ _ _ _ _ _ _ _ Hholds Hlen Hs1 Hv1)
    as (arr1 & q1 & Harr1 & _ & Hq1 & Hspec1).
  destruct (normalized_values_series _ _ _ _ _ _ _ _ Hholds Hlen Hs2 Hv2)
    as (arr2 & q2 & Harr2 & _ & Hq2 & Hspec2).
  exists arr1, arr2, q1, q2. split_and!; try done.
  rewrite Hspec1, Hspec2. apply spec_branches_monotone; [|done].
  pose proof (series_column_elem _ _ _ _ _ Hs1 Hv1) as Hin.
  eapply Qle_trans; [by apply Qmin_list_le|by apply Qmax_list_ge].
Qed.

Lemma normalization_preserves_order_witness :
  ∃ arr1 arr2 q1 q2,
    normalized_values (store_of [-10]%Q [20]%Q) two_series !! 0 = Some arr1
    ∧ normalized_values (store_of [-10]%Q [20]%Q) two_series !! 1 = Some arr2
    ∧ arr1 !! 0 = Some (Fin q1) ∧ arr2 !! 0 = Some (Fin q2)
    ∧ (q1 <= q2)%Q.
Proof.
  refine (normalization_preserves_order (store_of [-10]%Q [20]%Q) two_series
            [[-10]; [20]]%Q 1 0 1 0 [-10]%Q [20]%Q (-10)%Q 20%Q _ _ _ _ _ _ _).
  - repeat constructor.
  - repeat constructor.
  - reflexivity.
  - reflexivity.
  - reflexivity.
  - reflexivity.
  - discriminate.
Defined.

(** X2. The normalisation does not depend on the unit of a category: if the
    values at every position [i] of all series are multiplied by a positive
    factor [c i] of that position, every normalised value stays the same. *)
Theorem normalization_ignores_units (σ σ' : store) (datasets datasets' : list dataset)
    (series : list (list Q)) (c : nat → Q) (n k i : nat) (s : list Q) (v : Q) :
  holds_series σ datasets series →
  holds_series σ' datasets' (map (rescale c) series) →
  Forall (λ s, length s = n) series → (∀ j, 0 < c j)%Q →
  series !! k = Some s → s !! i = Some v →
  ∃ arr arr' q q',
    normalized_values σ datasets !! k = Some arr
    ∧ normalized_values σ' datasets' !! k = Some arr'
    ∧ arr !! i = Some (Fin q) ∧ arr' !! i = Some (Fin q')
    ∧ (q' == q)%Q.
Proof.
  intros Hholds Hholds' Hlen Hc Hs Hv.
  assert (Hi : i < n).
  { rewrite <- (proj1 (Forall_lookup _ _) Hlen k s Hs). by eapply lookup_lt_Some. }
  assert (Hlen' : Forall (λ s, length s = n) (map (rescale c) series)).
  { apply Forall_fmap. eapply Forall_impl; [exact Hlen|].
    intros s0 Hs0. simpl in *. unfold rescale. by rewrite length_imap. }
  assert (Hs' : map (rescale c) series !! k = Some (rescale c s)).
  { by rewrite list_lookup_fmap, Hs. }
  assert (Hv' : rescale c s !! i = Some (c i * v)%Q).
  { unfold rescale. by rewrite list_lookup_imap, Hv. }
  destruct (normalized_values_series _ _ _ _ _ _ _ _ Hholds Hlen Hs Hv)
    as (arr & q & Harr & _ & Hq & Hspec).
  destruct (normalized_values_series _ _ _ _ _ _ _ _ Hholds' Hlen' Hs' Hv')
    as (arr' & q' & Harr' & _ & Hq' & Hspec').
  exists arr, arr', q, q'. split_and!; try done.
  pose proof (series_column_elem _ _ _ _ _ Hs Hv) as Hin.
  assert (Hne : series_column series i ≠ []).
  { intros E. rewrite E in Hin. by apply elem_of_nil in Hin. }
  rewrite Hspec, Hspec'.
  rewrite (series_column_rescale c series n i Hlen Hi).
  rewrite (spec_normalized_proper _ _ _ _
             (Qmin_list_scale _ _ (Hc i) Hne) (Qmax_list_scale _ _ (Hc i) Hne)).
  apply spec_branches_scale; [done|].
  eapply Qle_trans; [by apply Qmin_list_le|by apply Qmax_list_ge].
Qed.

Lemma normalization_ignores_units_witness :
  ∃ arr arr' q q',
    normalized_values (store_of [10]%Q [5]%Q) two_series !! 1 = Some arr
    ∧ normalized_values (store_of [1000]%Q [500]%Q) two_series !! 1 = Some arr'
    ∧ arr !! 0 = Some (Fin q) ∧ arr' !! 0 = Some (Fin q')
    ∧ (q' == q)%Q.
Proof.
  refine (normalization_ignores_units (store_of [10]%Q [5]%Q)
            (store_of [1000]%Q [500]%Q) two_series two_series
            [[10]; [5]]%Q (λ _, 100%Q) 1 1 0 [5]%Q 5%Q _ _ _ _ _ _).
  - repeat constructor.
  - repeat constructor.
  - repeat constructor.
  - intros j. reflexivity.
  - reflexivity.
  - reflexivity.
Defined.

Lemma min2_NaN_r (a : jsnum) : Num.min2 a NaN = NaN.
Proof. by destruct a. Qed.

Lemma Math_min_NaN (xs : list jsnum) : NaN ∈ xs → Num.Math_min xs = NaN.
Proof.
  induction xs as [|x xs IH]; intros Hin; [by apply elem_of_nil in Hin|].
  apply elem_of_cons in Hin as [<-|Hin]; [done|].
  change (Num.Math_min (x :: xs)) with (Num.min2 x (Num.Math_min xs)).
  rewrite IH by done. apply min2_NaN_r.
Qed.

Lemma normalize_value_NaN (max v : jsnum) : normalize_value NaN max v = NaN.
Proof.
  unfold normalize_value. cbn [Num.strict_eq Num.ge Num.le].
  destruct (Num.le max (Fin 0)); by destruct v.
Qed.

(** X3. Each normalised series is as long as its own data. Where another
    series of the chart is too short to have a value at position [i], the
    normalised value at [i] is NaN for every series that has that position,
    whatever its own value there. *)
Theorem short_series_gives_NaN (σ : store) (datasets : list dataset) (k i : nat)
    (ds short : dataset) :
  wf_datasets σ datasets → datasets !! k = Some ds → short ∈ datasets →
  array_length σ (data short) ≤ i → i < array_length σ (data ds) →
  ∃ arr, normalized_values σ datasets !! k = Some arr
         ∧ length arr = array_length σ (data ds)
         ∧ arr !! i = Some NaN.
Proof.
  intros Hwf Hk Hshort Hle Hlt. eexists.
  split; [by apply normalized_values_lookup|].
  split; [by rewrite length_map, length_seq|].
  rewrite list_lookup_fmap, lookup_seq_lt by done. simpl. f_equal.
  unfold normalized_at. rewrite Math_min_NaN; [apply normalize_value_NaN|].
  unfold column. apply list_elem_of_fmap. exists short. split; [|done].
  unfold array_get. unfold array_length in Hle.
  by rewrite lookup_ge_None_2.
Qed.

Lemma short_series_gives_NaN_witness :
  ∃ arr, normalized_values (store_of [1; 2]%Q [3]%Q) two_series !! 0 = Some arr
         ∧ length arr = 2
         ∧ arr !! 1 = Some NaN.
Proof.
  refine (short_series_gives_NaN (store_of [1; 2]%Q [3]%Q) two_series 0 1
            {| label := "A"; data := 0; backgroundColor := None |}
            {| label := "B"; data := 1; backgroundColor := None |} _ _ _ _ _).
  - repeat constructor; eexists; reflexivity.
  - reflexivity.
  - apply elem_of_cons. right. apply elem_of_cons. by left.
  - vm_compute. lia.
  - vm_compute. lia.
Defined.

(** ** Colours *)

(** X4. Colour assignment is stable under growth: in every mode but the
    gender one, the colours of the first [n] categories are the same
    whether [n] or more colours are requested, and the colour of category
    [i + 15] is that of category [i]. *)
Theorem getColors_stable (n m : nat) (type : string) :
  type ≠ "gender" → n ≤ m →
  getColors n type = take n (getColors m type)
  ∧ ∀ i, i + 15 < m → getColors m type !! (i + 15) = getColors m type !! i.
Proof.
  intros Htype Hnm. unfold getColors.
  destruct (decide (type = "gender")) as [|_]; [done|].
  rewrite !getColors_loop_map. split.
  - apply list_eq. intros i. destruct (decide (i < n)) as [Hi|Hi].
    + rewrite lookup_take_lt by done.
      by rewrite !list_lookup_fmap, !lookup_seq_lt by lia.
    + rewrite lookup_take_ge by lia. apply lookup_ge_None_2.
      rewrite length_map, length_seq. lia.
  - intros i Hi. rewrite !list_lookup_fmap, !lookup_seq_lt by lia. simpl.
    unfold palette_at. f_equal. f_equal.
    change (length CHART_COLORS.palette) with 15.
    replace (i + 15) with (i + 1 * 15) by lia. by rewrite Nat.Div0.mod_add.
Qed.

Lemma getColors_stable_witness :
  getColors 3 "palette" = take 3 (getColors 20 "palette")
  ∧ ∀ i, i + 15 < 20 →
         getColors 20 "palette" !! (i + 15) = getColors 20 "palette" !! i.
Proof.
  apply (getColors_stable 3 20 "palette"); [discriminate|lia].
Defined.

(** ** Drawing twice on one container *)



Section Redraw.

Context {browser : Browser}.

Lemma chart_calls_body (toFixed1 : jsnum → string) (σ : store) (containerId : string)
    (labels : list string) (datasets : list dataset) (data data2 : list jsnum)
    (ty l1 l2 : string) (f : page → page * result retval) :
  f ∈ chart_calls toFixed1 σ containerId labels datasets data data2 ty l1 l2 →
  ∃ v, ∀ p, d3 p = D3Loaded → f p = chart_body containerId v p.
Proof.
  intros Hf. unfold chart_calls in Hf.
  repeat (apply elem_of_cons in Hf as [->|Hf]);
    try (by apply elem_of_nil in Hf);
    try (eexists; intros p Hp;
         unfold createMultiSeriesBarChart, createPercentageBarChart,
           createMultiColorBarChart, createPieChart, createComparisonBarChart,
           createDoughnutChart, with_d3; rewrite Hp; reflexivity).
  unfold createMultiScaleBarChart.
  destruct (normalizedDatasets σ datasets) as [σ' normalized].
  match goal with
  | |- context [chart_body containerId ?v] => exists v
  end.
  intros p Hp. rewrite Hp.
  match goal with
  | |- context [chart_body containerId ?v p] =>
      by destruct (chart_body containerId v p)
  end.
Qed.



End Redraw.


(** ** Container ids that are no selector *)

(** X17. With the library loaded, a container id that is empty or starts
    with a digit makes every chart function and [createDataTable] throw a
    [SyntaxError] when it selects its container, ['#' + id] being no
    selector: nothing is drawn, logged or appended to the page. The
    multi-scale chart has normalised its series by then. *)
Theorem malformed_id_throws {browser : Browser}
    (toLocaleString toFixed1 : jsnum → string)
    (formatValue : option (jsval → nat → nat → jsval)) (showIndex : bool)
    (σ : store) (containerId : string) (labels : list string)
    (datasets : list dataset) (data data2 : list jsnum) (ty l1 l2 : string)
    (tlabels : jsval) (tdata : list jsval) (p : page) :
  d3 p = D3Loaded →
  containerId = "" ∨ (∃ c rest, containerId = String c rest ∧ is_digit c = true) →
  (∀ f, f ∈ chart_calls toFixed1 σ containerId labels datasets data data2 ty l1 l2 →
        f p = (p, Throw SyntaxError))
  ∧ createMultiScaleBarChart σ containerId labels datasets p
    = ((normalizedDatasets σ datasets).1, p, Throw SyntaxError)
  ∧ createDataTable toLocaleString toFixed1 formatValue showIndex
      containerId tlabels tdata p
    = (p, Throw SyntaxError).
Proof.
  intros Hd3 Hid.
  assert (Hread : read_id containerId = NoSelector).
  { destruct Hid as [->|(c & rest & -> & Hc)]; [done|].
    unfold read_id, css_identifier, name_start, is_letter.
    unfold is_digit in Hc. apply andb_true_iff in Hc as [H1 H2].
    apply Nat.leb_le in H1, H2.
    replace (Nat.leb 65 (nat_of_ascii c)) with false
      by (symmetry; apply Nat.leb_gt; lia).
    replace (Nat.leb 97 (nat_of_ascii c)) with false
      by (symmetry; apply Nat.leb_gt; lia).
    assert (Ascii.eqb c "_" = false) as ->.
    { apply Ascii.eqb_neq. intros ->. vm_compute in H2. lia. }
    assert (Ascii.eqb c "-" = false) as ->.
    { apply Ascii.eqb_neq. intros ->. vm_compute in H1. lia. }
    cbn. unfold is_digit.
    by rewrite (proj2 (Nat.leb_le _ _) H1), (proj2 (Nat.leb_le _ _) H2). }
  assert (Hbody : ∀ v, chart_body containerId v p = (p, Throw SyntaxError))
    by (intros v; unfold chart_body; by rewrite Hread).
  split; [|split].
  - intros f Hf.
    destruct (chart_calls_body _ _ _ _ _ _ _ _ _ _ _ Hf) as [v Hv].
    by rewrite (Hv p Hd3).
  - unfold createMultiScaleBarChart. rewrite Hd3.
    destruct (normalizedDatasets σ datasets) as [σ' normalized].
    by rewrite Hbody.
  - unfold createDataTable. by rewrite Hd3, Hread.
Qed.

Lemma malformed_id_throws_witness :
  createPieChart (browser := strict_browser) (λ _, "") "1st" ["A"] [Fin 1]
    loaded_page
  = (loaded_page, Throw SyntaxError)
  ∧ createDataTable (browser := strict_browser) (λ _, "") (λ _, "") None false
      "" (VArr [VStr "A"]) [VNum (Fin 1)] loaded_page
    = (loaded_page, Throw SyntaxError).
Proof.
  split.
  - refine (proj1 (malformed_id_throws (browser := strict_browser)
                     (λ _, "") (λ _, "") None false ∅ "1st" ["A"] []
                     [Fin 1] [] "" "" "" VUndef [] loaded_page eq_refl _) _ _).
    + right. exists "1"%char, "st". by split.
    + unfold chart_calls. do 3 (apply elem_of_cons; right). apply elem_of_cons.
      by left.
  - refine (proj2 (proj2 (malformed_id_throws (browser := strict_browser)
                     (λ _, "") (λ _, "") None false ∅ "" [] []
                     [] [] "" "" "" (VArr [VStr "A"]) [VNum (Fin 1)]
                     loaded_page eq_refl _))).
    by left.
Defined.

(** ** Rows of the data table *)

Section MoreTable.

Variable toLocaleString : jsnum → string.
Variable toFixed1 : jsnum → string.
Variable formatValue : option (jsval → nat → nat → jsval).
Variable showIndex : bool.
Context {browser : Browser}.


(** X6. With parallel arrays the table follows the labels: there is one row
    per label, drawn without error, holding the label and the value at the
    same position of [data], or [undefined] where [data] is shorter; values
    of [data] beyond the last label are not shown. *)
Theorem table_rows_follow_labels (ls data : list jsval) :
  isArray (index data 0) = false → typeof_object (index data 0) = false →
  ∃ rows,
    table_rows toLocaleString toFixed1 formatValue showIndex (VArr ls) data
    = (rows, None)
    ∧ length rows = length ls
    ∧ ∀ i l, ls !! i = Some l →
        rows !! i
        = Some (index_cell showIndex i
                ++ [displayValue toLocaleString toFixed1 formatValue i 0 l;
                    displayValue toLocaleString toFixed1 formatValue i 1
                      (index data i)]).
Proof.
  intros Harr Hobj. unfold table_rows, tableData. rewrite Harr, Hobj.
  replace (imap (λ i label, VArr [label; index data i]) ls)
    with (map VArr (imap (λ i label, [label; index data i]) ls)).
  2:{ apply list_eq. intros i.
      rewrite list_lookup_fmap, !list_lookup_imap. by destruct (ls !! i). }
  rewrite render_rows_arrays. eexists. split; [reflexivity|].
  split; [by rewrite !length_imap|].
  intros i l Hl. rewrite !list_lookup_imap, Hl. reflexivity.
Qed.


End MoreTable.

Lemma table_rows_follow_labels_witness :
  ∃ rows,
    table_rows (λ _, "1,107") (λ _, "75.6") None false
      (VArr [VStr "Owner-occupied (%)"; VStr "Median rent (USD)"; VStr "Extra"])
      [VNum (Fin (756 # 10)); VNum (Fin 1107)]
    = (rows, None)
    ∧ length rows = 3
    ∧ rows !! 2 = Some [VStr "Extra"; VUndef].
Proof.
  destruct (table_rows_follow_labels (λ _, "1,107") (λ _, "75.6") None false
              [VStr "Owner-occupied (%)"; VStr "Median rent (USD)"; VStr "Extra"]
              [VNum (Fin (756 # 10)); VNum (Fin 1107)])
    as (rows & Hrows & Hlen & Hrow).
  - reflexivity.
  - reflexivity.
  - exists rows. split; [exact Hrows|]. split; [exact Hlen|].
    exact (Hrow 2 (VStr "Extra") eq_refl).
Defined.







(** ** Sections and containers of a builder *)

Section MoreBuilder.

Import PageBuilder Claims.

Lemma current_main_has_document (s : state) (r : nat) (inn : inner) :
  has_document s r inn → current_main s = Some (i_main inn).
Proof.
  intros (c & [Hr Hc] & Hinn). unfold current_main. rewrite Hr. simpl.
  rewrite Hc. simpl. by rewrite Hinn.
Qed.

Lemma query_eq (sel : selector) (s : state) (r : nat) (c : container) :
  has_container s r c → query sel s = (s, Ok (querySelector c sel)).
Proof.
  intros [Hr Hc]. unfold query.
  rewrite (bind_Ok this _ s s s.1 eq_refl).
  rewrite (bind_Ok the_document _ s s s.2 eq_refl).
  rewrite Hr. simpl. by rewrite Hc.
Qed.

Lemma query_no_document (sel : selector) (s : state) :
  currentDocument s.1 = None → query sel s = (s, Throw TypeError).
Proof.
  intros Hr. unfold query.
  rewrite (bind_Ok this _ s s s.1 eq_refl).
  rewrite (bind_Ok the_document _ s s s.2 eq_refl).
  by rewrite Hr.
Qed.

Lemma query_or_content_eq (sel : selector) (s : state) (r : nat) (c : container) :
  has_container s r c →
  query_or_content sel s
  = (s, Ok (match querySelector c sel with
            | Some t => Some t
            | None => querySelector c SelReportContent
            end)).
Proof.
  intros H. unfold query_or_content.
  rewrite (bind_Ok _ _ s s _ (query_eq sel s r c H)).
  destruct (querySelector c sel); [done|]. by apply (query_eq _ s r c).
Qed.

Lemma query_or_content_no_document (sel : selector) (s : state) :
  currentDocument s.1 = None → query_or_content sel s = (s, Throw TypeError).
Proof.
  intros Hr. unfold query_or_content. rewrite bind_unfold.
  by rewrite (query_no_document sel s Hr).
Qed.

Lemma update_current_eq (f : container → container) (s : state) (r : nat) :
  currentDocument s.1 = Some r →
  update_current f s = ((s.1, with_elements (alter f r) s.2), Ok tt).
Proof.
  intros Hr. unfold update_current.
  rewrite (bind_Ok this _ s s s.1 eq_refl). by rewrite Hr.
Qed.

Lemma has_container_update (f : container → container) (s : state) (r : nat)
    (c : container) :
  has_container s r c →
  has_container (s.1, with_elements (alter f r) s.2) r (f c).
Proof.
  intros [Hr Hc]. split; [done|]. simpl. by rewrite lookup_alter_eq, Hc.
Qed.

Lemma createSection_eq (config : section_config) (s : state) (r : nat)
    (c : container) (inn : inner) :
  has_container s r c → c_inner c = Some inn →
  createSection config s
  = (((after_section_defaults config s).1,
      with_elements
        (alter (with_main (λ m, m ++ [CSection (new_section config (sectionCounter s.1))]))
           r) s.2),
     Ok (section_id (new_section config (sectionCounter s.1)))).
Proof.
  intros Hc Hinn. unfold createSection, after_section_defaults, new_section.
  destruct (sc_title config) as [t|] eqn:E.
  - rewrite (bind_Ok (mret t) _ s s t eq_refl).
    rewrite (bind_Ok this _ s s s.1 eq_refl).
    rewrite (bind_Ok _ _ s s _ (query_eq SelReportContent s r c Hc)).
    unfold querySelector. rewrite Hinn. unfold append_section.
    rewrite (bind_Ok _ _ s _ _ (update_current_eq _ s r (proj1 Hc))).
    reflexivity.
  - set (s1 := (with_sectionCounter (S (sectionCounter s.1)) s.1, s.2)).
    assert (Hc1 : has_container s1 r c) by (destruct Hc; by split).
    rewrite (bind_Ok _ _ s s1 ("Section " +:+ pretty (S (sectionCounter s.1)))
               eq_refl).
    rewrite (bind_Ok this _ s1 s1 s1.1 eq_refl).
    rewrite (bind_Ok _ _ s1 s1 _ (query_eq SelReportContent s1 r c Hc1)).
    unfold querySelector. rewrite Hinn. unfold append_section.
    rewrite (bind_Ok _ _ s1 _ _ (update_current_eq _ s1 r (proj1 Hc1))).
    reflexivity.
Qed.

Lemma append_block_eq (t : target) (b : block) (s : state) (r : nat) :
  currentDocument s.1 = Some r →
  append_block (Some t) b s
  = ((s.1, with_elements (alter (with_main (place_block t b)) r) s.2), Ok tt).
Proof. intros Hr. destruct t; by apply update_current_eq. Qed.

Lemma createChartContainer_eq (config : chart_container_config) (s : state)
    (r : nat) (c : container) (t : target) :
  has_container s r c →
  resolve c (default SelReportContent (cc_parentSelector config)) = Some t →
  createChartContainer config s
  = (((after_container_defaults config s).1,
      with_elements
        (alter (with_main (place_block t (new_container config (chartCounter s.1))))
           r) s.2),
     Ok (default ("chart-" +:+ pretty (S (chartCounter s.1)))
           (cc_containerId config))).
Proof.
  intros Hc Ht. unfold createChartContainer, after_container_defaults, new_container.
  destruct (cc_containerId config) as [id|] eqn:E.
  - rewrite (bind_Ok (mret id) _ s s id eq_refl).
    rewrite (bind_Ok _ _ s s _ (query_or_content_eq _ s r c Hc)).
    fold (resolve c (default SelReportContent (cc_parentSelector config))).
    rewrite Ht.
    rewrite (bind_Ok _ _ s _ _ (append_block_eq t _ s r (proj1 Hc))).
    reflexivity.
  - set (s1 := (with_chartCounter (S (chartCounter s.1)) s.1, s.2)).
    assert (Hc1 : has_container s1 r c) by (destruct Hc; by split).
    rewrite (bind_Ok _ _ s s1 ("chart-" +:+ pretty (S (chartCounter s.1))) eq_refl).
    rewrite (bind_Ok _ _ s1 s1 _ (query_or_content_eq _ s1 r c Hc1)).
    fold (resolve c (default SelReportContent (cc_parentSelector config))).
    rewrite Ht.
    rewrite (bind_Ok _ _ s1 _ _ (append_block_eq t _ s1 r (proj1 Hc1))).
    reflexivity.
Qed.

Lemma add_block_eq (sel : selector) (b : block) (s : state) (r : nat)
    (c : container) (t : target) :
  has_container s r c → resolve c sel = Some t →
  (query_or_content sel ≫= λ parent, append_block parent b) s
  = ((s.1, with_elements (alter (with_main (place_block t b)) r) s.2), Ok tt).
Proof.
  intros Hc Ht.
  rewrite (bind_Ok _ _ s s _ (query_or_content_eq _ s r c Hc)).
  fold (resolve c sel). rewrite Ht. by apply append_block_eq, Hc.
Qed.

(** *** A builder without content *)

Lemma blocked_query (sel : selector) (s : state) :
  no_content s →
  query sel s = (s, Throw TypeError) ∨ query sel s = (s, Ok None).
Proof.
  intros [Hr|(r & c & Hc & Hinn)].
  - left. by apply query_no_document.
  - right. rewrite (query_eq sel s r c Hc). unfold querySelector. by rewrite Hinn.
Qed.

Lemma blocked_add (sel : selector) (b : block) (s : state) :
  no_content s →
  (query_or_content sel ≫= λ parent, append_block parent b) s
  = (s, Throw TypeError).
Proof.
  intros H. rewrite bind_unfold. unfold query_or_content. rewrite bind_unfold.
  destruct (blocked_query sel s H) as [-> | ->]; [done|].
  by destruct (blocked_query SelReportContent s H) as [-> | ->].
Qed.

Lemma blocked_query_add (sel : selector) (b : block) (s : state) :
  no_content s →
  (query sel ≫= λ parent, append_block parent b) s = (s, Throw TypeError).
Proof.
  intros H. rewrite bind_unfold.
  by destruct (blocked_query sel s H) as [-> | ->].
Qed.

Lemma no_content_builder (s : state) (b : builder) :
  currentDocument b = currentDocument s.1 → no_content s → no_content (b, s.2).
Proof.
  intros Hb [Hr|(r & c & [Hr Hc] & Hinn)].
  - left. simpl. congruence.
  - right. exists r, c. split; [|done]. split; simpl; congruence.
Qed.

Lemma blocked_createSection (config : section_config) (s : state) :
  no_content s →
  createSection config s = (after_section_defaults config s, Throw TypeError).
Proof.
  intros H. unfold createSection, after_section_defaults.
  destruct (sc_title config) as [t|].
  - rewrite (bind_Ok (mret t) _ s s t eq_refl).
    rewrite (bind_Ok this _ s s s.1 eq_refl). rewrite bind_unfold.
    by destruct (blocked_query SelReportContent s H) as [-> | ->].
  - set (s1 := (with_sectionCounter (S (sectionCounter s.1)) s.1, s.2)).
    assert (H1 : no_content s1) by (by apply (no_content_builder s)).
    rewrite (bind_Ok _ _ s s1 ("Section " +:+ pretty (S (sectionCounter s.1)))
               eq_refl).
    rewrite (bind_Ok this _ s1 s1 s1.1 eq_refl). rewrite bind_unfold.
    by destruct (blocked_query SelReportContent s1 H1) as [-> | ->].
Qed.

Lemma blocked_createChartContainer (config : chart_container_config) (s : state) :
  no_content s →
  createChartContainer config s
  = (after_container_defaults config s, Throw TypeError).
Proof.
  intros H. unfold createChartContainer, after_container_defaults.
  destruct (cc_containerId config) as [id|].
  - rewrite (bind_Ok (mret id) _ s s id eq_refl).
    rewrite bind_unfold. unfold query_or_content. rewrite bind_unfold.
    destruct (blocked_query (default SelReportContent (cc_parentSelector config))
                s H) as [-> | ->]; [done|].
    by destruct (blocked_query SelReportContent s H) as [-> | ->].
  - set (s1 := (with_chartCounter (S (chartCounter s.1)) s.1, s.2)).
    assert (H1 : no_content s1) by (by apply (no_content_builder s)).
    rewrite (bind_Ok _ _ s s1 ("chart-" +:+ pretty (S (chartCounter s.1))) eq_refl).
    rewrite bind_unfold. unfold query_or_content. rewrite bind_unfold.
    destruct (blocked_query (default SelReportContent (cc_parentSelector config))
                s1 H1) as [-> | ->]; [done|].
    by destruct (blocked_query SelReportContent s1 H1) as [-> | ->].
Qed.

Lemma blocked_ops (sconfig : section_config) (cconfig : chart_container_config)
    (content : string) (priority : option string) (parentSelector : option selector)
    (o : op) (s : state) :
  no_content s →
  o ∈ adding_ops sconfig cconfig content priority parentSelector →
  (exec o s).2 = Throw TypeError ∧ (exec o s).1.2 = s.2.
Proof.
  intros H Ho. unfold adding_ops in Ho.
  repeat (apply elem_of_cons in Ho as [->|Ho]); try (by apply elem_of_nil in Ho);
    cbn [exec]; unfold other; rewrite bind_unfold.
  - rewrite (blocked_createSection sconfig s H). unfold after_section_defaults.
    by destruct (sc_title sconfig).
  - rewrite (blocked_createChartContainer cconfig s H).
    unfold after_container_defaults. by destruct (cc_containerId cconfig).
  - unfold addExecutiveSummary. by rewrite blocked_query_add.
  - unfold addKeyFinding. by rewrite blocked_add.
  - unfold addRecommendation. by rewrite blocked_add.
  - unfold addTextContent. by rewrite blocked_add.
  - unfold createContentGrid. by rewrite blocked_add.
Qed.

Lemma reset_eq (s : state) (r : nat) :
  currentDocument s.1 = Some r →
  reset s
  = ((with_sectionCounter 0 (with_chartCounter 0 s.1),
      with_elements (alter clear r) s.2), Ok tt).
Proof.
  intros Hr. unfold reset. rewrite (bind_Ok this _ s s s.1 eq_refl). by rewrite Hr.
Qed.

Lemma createDocument_has_document (config : document_config) (s : state) :
  ∃ r inn, has_document (createDocument config s).1 r inn ∧ i_main inn = [].
Proof.
  destruct (createDocument_spec config s) as (_ & r & _ & _ & Hr & _ & Hc).
  exists r, {| i_title := default "Analysis Report" (dc_title config);
               i_subtitle := if_truthy (default "" (dc_subtitle config));
               i_main := [] |}.
  split; [|reflexivity].
  exists {| c_className := default "report-container" (dc_containerClass config);
            c_inner :=
              Some {| i_title := default "Analysis Report" (dc_title config);
                      i_subtitle := if_truthy (default "" (dc_subtitle config));
                      i_main := [] |} |}.
  split; [by split|reflexivity].
Qed.

(** X9. A section created with a title and without an identifier takes the
    identifier of the current value of [sectionCounter] and leaves the
    counter where it is: two such calls in a row succeed, return the same
    identifier, and leave two sections with that identifier at the end of
    the document's main area. *)
Theorem titled_sections_reuse_id (t1 t2 : string) (sub1 sub2 cls1 cls2 : option string)
    (s : state) (r : nat) (inn : inner) :
  has_document s r inn →
  let c1 := {| sc_title := Some t1; sc_subtitle := sub1; sc_className := cls1;
               sc_containerId := None |} in
  let c2 := {| sc_title := Some t2; sc_subtitle := sub2; sc_className := cls2;
               sc_containerId := None |} in
  let id := "section-" +:+ pretty (sectionCounter s.1) in
  (createSection c1 s).2 = Ok id
  ∧ (createSection c2 (createSection c1 s).1).2 = Ok id
  ∧ sectionCounter (createSection c2 (createSection c1 s).1).1.1 = sectionCounter s.1
  ∧ ∃ sec1 sec2,
      current_main (createSection c2 (createSection c1 s).1).1
      = Some (i_main inn ++ [CSection sec1; CSection sec2])
      ∧ section_id sec1 = id ∧ section_id sec2 = id
      ∧ section_title sec1 = t1 ∧ section_title sec2 = t2.
Proof.
  intros (c & Hc & Hinn) c1 c2 id.
  rewrite (createSection_eq c1 s r c inn Hc Hinn).
  cbn [fst snd after_section_defaults sc_title c1].
  pose proof (has_container_update
                (with_main (λ m, m ++ [CSection (new_section c1 (sectionCounter s.1))]))
                s r c Hc) as Hc'.
  erewrite (createSection_eq c2 _ r _ _ Hc'); [|unfold with_main; by rewrite Hinn].
  cbn [fst snd after_section_defaults sc_title c2].
  split; [done|]. split; [done|]. split; [done|].
  exists (new_section c1 (sectionCounter s.1)), (new_section c2 (sectionCounter s.1)).
  split; [|done].
  unfold current_main. destruct Hc as [Hr Hel]. cbn [fst snd].
  rewrite Hr. cbn [mbind option_bind]. cbn [doc_elements with_elements].
  rewrite !lookup_alter_eq, Hel. cbn. rewrite Hinn. cbn.
  by rewrite <- app_assoc.
Qed.

Lemma titled_sections_reuse_id_witness :
  let s := (createDocument default_document initial_state).1 in
  (createSection (titled "Age") s).2 = Ok ("section-" +:+ pretty 0)
  ∧ (createSection (titled "Income") (createSection (titled "Age") s).1).2
    = Ok ("section-" +:+ pretty 0).
Proof.
  destruct (createDocument_has_document default_document initial_state)
    as (r & inn & Hdoc & _).
  destruct (titled_sections_reuse_id "Age" "Income" None None None None _ r inn Hdoc)
    as (H1 & H2 & _).
  split; [exact H1|exact H2].
Defined.

(** X10. [reset] empties the current document, header and content area
    included: after it, every call that adds a section, a chart container
    or a content block, with one of the builder's own selectors or that of
    a section identifier, throws a [TypeError] and leaves the document as
    it is, until [createDocument] is called again; with a title and a
    subtitle without markup the new document has its content area, and the
    first section created then starts from the counter value zero. *)
Theorem reset_disables_builder (sconfig : section_config)
    (cconfig : chart_container_config) (content : string) (priority : option string)
    (parentSelector : option selector) (dconfig : document_config)
    (o : op) (s : state) (r : nat) (c : container) :
  has_container s r c →
  plain_selector parentSelector = true →
  plain_selector (cc_parentSelector cconfig) = true →
  plain_document_config dconfig = true →
  o ∈ adding_ops sconfig cconfig content priority parentSelector →
  (exec o (reset s).1).2 = Throw TypeError
  ∧ (exec o (reset s).1).1.2 = (reset s).1.2
  ∧ (createSection sconfig (createDocument dconfig (reset s).1).1).2
    = Ok (section_id (new_section sconfig 0)).
Proof.
  intros Hc _ _ _ Ho. rewrite (reset_eq s r (proj1 Hc)). cbn [fst].
  assert (Hno : no_content (with_sectionCounter 0 (with_chartCounter 0 s.1),
                            with_elements (alter clear r) s.2)).
  { right. exists r, (clear c). split; [|done]. destruct Hc as [Hr Hel].
    split; [done|]. simpl. by rewrite lookup_alter_eq, Hel. }
  destruct (blocked_ops _ _ _ _ _ o _ Hno Ho) as [H1 H2].
  split; [done|]. split; [done|].
  match goal with
  | |- context [createDocument dconfig ?s0] =>
      destruct (createDocument_has_document dconfig s0) as (r' & inn & (c' & Hc' & Hinn) & _);
      pose proof (proj1 (createDocument_spec dconfig s0)) as Hcount;
      rewrite (createSection_eq sconfig _ r' c' inn Hc' Hinn)
  end.
  cbn [snd]. unfold counters in Hcount. cbn [fst sectionCounter] in Hcount.
  injection Hcount as _ ->. done.
Qed.

Lemma reset_disables_builder_witness :
  let s := (createDocument default_document initial_state).1 in
  (exec (AddKeyFinding "x" None) (reset s).1).2 = Throw TypeError
  ∧ (exec (AddKeyFinding "x" None) (reset s).1).1.2 = (reset s).1.2
  ∧ (createSection (titled "A") (createDocument default_document (reset s).1).1).2
    = Ok (section_id (new_section (titled "A") 0)).
Proof.
  destruct (createDocument_spec default_document initial_state)
    as (_ & r & _ & _ & Hr & _ & Hc).
  eapply (reset_disables_builder (titled "A") default_container "x" None None
            default_document (AddKeyFinding "x" None) _ r _).
  - split; [exact Hr|exact Hc].
  - reflexivity.
  - reflexivity.
  - reflexivity.
  - unfold adding_ops. do 3 (apply elem_of_cons; right). apply elem_of_cons. by left.
Defined.

(** X11. A builder that has no document yet cannot add anything: every
    call that adds a section, a chart container or a content block throws a
    [TypeError] and leaves the document untouched. The counters are advanced
    all the same: a failed [createSection] without a title has used up a
    value of [sectionCounter], and a failed [createChartContainer] without
    an identifier a value of [chartCounter]. *)
Theorem calls_without_document (sconfig : section_config)
    (cconfig : chart_container_config) (content : string) (priority : option string)
    (parentSelector : option selector) (o : op) (s : state) :
  currentDocument s.1 = None →
  o ∈ adding_ops sconfig cconfig content priority parentSelector →
  (exec o s).2 = Throw TypeError
  ∧ (exec o s).1.2 = s.2
  ∧ (sc_title sconfig = None →
       sectionCounter (exec (CreateSection sconfig) s).1.1 = S (sectionCounter s.1))
  ∧ (cc_containerId cconfig = None →
       chartCounter (exec (CreateChartContainer cconfig) s).1.1
       = S (chartCounter s.1)).
Proof.
  intros Hr Ho. assert (Hno : no_content s) by (by left).
  destruct (blocked_ops _ _ _ _ _ o _ Hno Ho) as [H1 H2].
  split; [done|]. split; [done|]. split.
  - intros Ht. cbn [exec]. unfold other. rewrite bind_unfold.
    rewrite (blocked_createSection sconfig s Hno).
    unfold after_section_defaults. by rewrite Ht.
  - intros Hid. cbn [exec]. rewrite bind_unfold.
    rewrite (blocked_createChartContainer cconfig s Hno).
    unfold after_container_defaults. by rewrite Hid.
Qed.

Lemma calls_without_document_witness :
  (exec (CreateChartContainer default_container) initial_state).2 = Throw TypeError
  ∧ (exec (CreateChartContainer default_container) initial_state).1.2
    = initial_state.2
  ∧ (sc_title (titled "A") = None →
       sectionCounter (exec (CreateSection (titled "A")) initial_state).1.1
       = S (sectionCounter initial_state.1))
  ∧ (cc_containerId default_container = None →
       chartCounter (exec (CreateChartContainer default_container) initial_state).1.1
       = S (chartCounter initial_state.1)).
Proof.
  apply (calls_without_document (titled "A") default_container "x" None None
           (CreateChartContainer default_container) initial_state).
  - reflexivity.
  - unfold adding_ops. apply elem_of_cons; right. apply elem_of_cons. by left.
Defined.

(** *** The report assembly *)

Lemma ensureInitialized_done (l : bool) (s : state) :
  isInitialized s.1 = true → ensureInitialized l s = (s, Ok tt).
Proof.
  intros H. unfold ensureInitialized.
  rewrite (bind_Ok this _ s s s.1 eq_refl). by rewrite H.
Qed.

Lemma resolve_section (c : container) (inn : inner) (id : string) :
  c_inner c = Some inn →
  resolve c (SelSectionOf id) = Some (section_target id (i_main inn)).
Proof.
  intros Hinn. unfold resolve, querySelector, section_target. rewrite Hinn.
  by destruct (list_find _ (i_main inn)).
Qed.

Lemma models_container (s : state) (r : nat) (cls : string)
    (hd : string * option string) (a : assembly) :
  models s r cls hd a →
  has_container s r
    {| c_className := cls;
       c_inner := Some {| i_title := hd.1; i_subtitle := hd.2;
                          i_main := a_main a |} |}.
Proof. intros (_ & Hr & _ & _ & Hel & _). by split. Qed.

Lemma build_chart_models (l : bool) (id : string) (chartConfig : report_chart)
    (s : state) (r : nat) (cls : string) (hd : string * option string)
    (a : assembly) :
  models s r cls hd a →
  ∃ s', build_chart l id chartConfig s = (s', Ok tt)
        ∧ models s' r cls hd (chart_step id a chartConfig).
Proof.
  intros Hm. pose proof (models_container _ _ _ _ _ Hm) as Hc.
  destruct Hm as (Hinit & Hr & Hcc & Hsc & Hel & Htm).
  unfold build_chart, chart_step.
  destruct (rc_type chartConfig) as [kind|]; [|by exists s].
  unfold createChart. cbn [ch_containerId ch_title ch_parentSelector].
  rewrite bind_unfold.
  rewrite (bind_Ok _ _ s s tt (ensureInitialized_done l s Hinit)).
  destruct (ch_containerId (rc_config chartConfig) ≫= if_truthy) as [given|].
  - eexists. split; [reflexivity|]. unfold models. cbn.
    split_and!; try done. by rewrite Htm.
  - rewrite bind_unfold.
    erewrite createChartContainer_eq;
      [|exact Hc|cbn [cc_parentSelector default]; by apply resolve_section].
    eexists. split; [reflexivity|].
    unfold models. cbn [fst snd after_container_defaults cc_containerId].
    split_and!; cbn; try done.
    + by rewrite Hcc.
    + rewrite lookup_alter_eq, Hel. cbn. by rewrite Hcc.
    + by rewrite Htm, Hcc.
Qed.

Lemma build_content_models (id : string) (content : content_item)
    (s : state) (r : nat) (cls : string) (hd : string * option string)
    (a : assembly) :
  models s r cls hd a →
  ∃ s', build_content id content s = (s', Ok tt)
        ∧ models s' r cls hd (content_step id a content).
Proof.
  intros Hm. pose proof (models_container _ _ _ _ _ Hm) as Hc.
  destruct Hm as (Hinit & Hr & Hcc & Hsc & Hel & Htm).
  assert (Hres : resolve
                   {| c_className := cls;
                      c_inner := Some {| i_title := hd.1; i_subtitle := hd.2;
                                         i_main := a_main a |} |}
                   (SelSectionOf id)
                 = Some (section_target id (a_main a)))
    by exact (resolve_section
                {| c_className := cls;
                   c_inner := Some {| i_title := hd.1; i_subtitle := hd.2;
                                      i_main := a_main a |} |}
                {| i_title := hd.1; i_subtitle := hd.2; i_main := a_main a |}
                id eq_refl).
  unfold build_content, content_step, content_block.
  destruct (ct_type content);
    unfold addKeyFinding, addRecommendation, addTextContent;
    cbn [default];
    erewrite add_block_eq by (first [exact Hc|exact Hres]);
    (eexists; split; [reflexivity|]);
    unfold models; split_and!; cbn; try done;
    by rewrite lookup_alter_eq, Hel.
Qed.

Lemma for_each_models {A} (f : A → M unit) (step : assembly → A → assembly)
    (r : nat) (cls : string) (hd : string * option string) (xs : list A) :
  (∀ x s a, models s r cls hd a →
     ∃ s', f x s = (s', Ok tt) ∧ models s' r cls hd (step a x)) →
  ∀ s a, models s r cls hd a →
    ∃ s', for_each f xs s = (s', Ok tt) ∧ models s' r cls hd (foldl step a xs).
Proof.
  intros Hf. induction xs as [|x xs IH]; intros s a Hm; [by exists s|].
  destruct (Hf x s a Hm) as (s1 & Hs1 & Hm1).
  destruct (IH s1 _ Hm1) as (s2 & Hs2 & Hm2).
  exists s2. split; [|done]. cbn [for_each]. by rewrite (bind_Ok _ _ s s1 tt Hs1).
Qed.

Lemma build_section_models (l : bool) (sectionData : section_data)
    (s : state) (r : nat) (cls : string) (hd : string * option string)
    (a : assembly) :
  models s r cls hd a →
  ∃ s', build_section l sectionData s = (s', Ok tt)
        ∧ models s' r cls hd (section_step a sectionData).
Proof.
  intros Hm. pose proof (models_container _ _ _ _ _ Hm) as Hc.
  destruct Hm as (Hinit & Hr & Hcc & Hsc & Hel & Htm).
  unfold build_section, section_step.
  fold (section_config_of sectionData).
  erewrite (bind_Ok _ _ s _ _ (createSection_eq _ s r _ _ Hc eq_refl)).
  rewrite Hsc.
  set (sec := new_section (section_config_of sectionData) (a_sections a)).
  match goal with
  | |- ∃ _, _ ?s1 = _ ∧ _ =>
      assert (Hm1 : models s1 r cls hd
                {| a_sections :=
                     match sd_title sectionData with
                     | Some _ => a_sections a
                     | None => S (a_sections a)
                     end;
                   a_charts := a_charts a;
                   a_main := a_main a ++ [CSection sec];
                   a_timers := a_timers a |})
  end.
  { unfold models, after_section_defaults. cbn [section_config_of sc_title].
    destruct (sd_title sectionData); split_and!; cbn; try done;
      try (by rewrite lookup_alter_eq, Hel); by rewrite Hsc. }
  destruct (for_each_models _ _ r cls hd (sd_charts sectionData)
              (λ x s0 a0, build_chart_models l (section_id sec) x s0 r cls hd a0)
              _ _ Hm1)
    as (s2 & Hs2 & Hm2).
  erewrite (bind_Ok _ _ _ s2 tt Hs2).
  exact (for_each_models _ _ r cls hd (sd_content sectionData)
           (λ x s0 a0, build_content_models (section_id sec) x s0 r cls hd a0)
           _ _ Hm2).
Qed.

(** *** Initialisation *)

Lemma initialize_cases (l : bool) (s : state) :
  initialize l s
  = if isInitialized s.1 then (s, Ok tt)
    else
      match doc_d3 s.2 with
      | D3Loaded =>
          ((with_isInitialized true s.1,
            with_console
              (λ c, c ++ [(LogLevel, "PageBuilder initialized successfully")]) s.2),
           Ok tt)
      | _ =>
          let d1 :=
            with_head (λ h, h ++ [Script "https://cdn.jsdelivr.net/npm/d3@7"]) s.2 in
          if l then
            ((with_isInitialized true s.1,
              with_console
                (λ c, c ++ [(LogLevel, "PageBuilder initialized successfully")])
                (with_d3_global D3Loaded d1)),
             Ok tt)
          else
            ((s.1,
              with_console
                (λ c, c ++ [(ErrorLevel, "Failed to initialize PageBuilder:")]) d1),
             Throw (Error "script error"))
      end.
Proof.
  destruct s as [b d]. unfold initialize.
  rewrite (bind_Ok this _ (b, d) (b, d) b eq_refl). cbn [fst snd].
  destruct (isInitialized b); [reflexivity|].
  destruct d as [hd bd el co g tm]. cbn [doc_d3].
  destruct g, l; reflexivity.
Qed.

Lemma ensureInitialized_cases (l : bool) (s : state) :
  ensureInitialized l s = initialize l s.
Proof.
  unfold ensureInitialized. rewrite (bind_Ok this _ s s s.1 eq_refl).
  destruct (isInitialized s.1) eqn:E; [|reflexivity].
  by rewrite initialize_cases, E.
Qed.

(** X12. [initialize] does nothing on a builder that is initialised. On one
    that is not, it succeeds exactly when the library is already there or
    its script loads; after a success the builder is initialised and the
    library is loaded; after a failure the builder is still not initialised,
    the error is logged and thrown on. Every attempt made without the
    library appends one more script element to the head. *)
Theorem initialize_outcome (l : bool) (s : state) :
  (isInitialized s.1 = true → initialize l s = (s, Ok tt))
  ∧ (isInitialized s.1 = false →
       ((initialize l s).2 = Ok tt ↔ doc_d3 s.2 = D3Loaded ∨ l = true)
       ∧ ((initialize l s).2 = Ok tt →
            isInitialized (initialize l s).1.1 = true
            ∧ doc_d3 (initialize l s).1.2 = D3Loaded)
       ∧ ((initialize l s).2 ≠ Ok tt →
            isInitialized (initialize l s).1.1 = false
            ∧ (initialize l s).2 = Throw (Error "script error")
            ∧ doc_console (initialize l s).1.2
              = doc_console s.2
                ++ [(ErrorLevel, "Failed to initialize PageBuilder:")])
       ∧ doc_head (initialize l s).1.2
         = doc_head s.2
           ++ match doc_d3 s.2 with
              | D3Loaded => []
              | _ => [Script "https://cdn.jsdelivr.net/npm/d3@7"]
              end).
Proof.
  rewrite initialize_cases. split.
  - by intros ->.
  - intros E. rewrite E. destruct (doc_d3 s.2) eqn:Hd3, l; cbn;
      rewrite ?app_nil_r, ?Hd3; split_and!; try done;
      try (split; [by auto|done]);
      try (split; [done|by intros [|]]).
Qed.

Lemma initialize_outcome_witness :
  (initialize true initial_state).2 = Ok tt
  ∧ isInitialized (initialize true initial_state).1.1 = true
  ∧ (initialize false initial_state).2 = Throw (Error "script error").
Proof.
  destruct (proj2 (initialize_outcome true initial_state) eq_refl)
    as (Hiff & Hok & _ & _).
  destruct (proj2 (initialize_outcome false initial_state) eq_refl)
    as (_ & _ & Hfail & _).
  split; [exact (proj2 Hiff (or_intror eq_refl))|].
  split; [exact (proj1 (Hok (proj2 Hiff (or_intror eq_refl))))|].
  apply Hfail. discriminate.
Defined.

Lemma createDocument_frame (config : document_config) (s : state) :
  isInitialized (createDocument config s).1.1 = isInitialized s.1
  ∧ doc_timers (createDocument config s).1.2 = doc_timers s.2
  ∧ doc_console (createDocument config s).1.2 = doc_console s.2
  ∧ doc_d3 (createDocument config s).1.2 = doc_d3 s.2.
Proof.
  unfold createDocument.
  by destruct (default true (dc_includeDefaultStyles config)).
Qed.

Lemma addExecutiveSummary_models (e : string) (s : state) (r : nat) (cls : string)
    (hd : string * option string) (a : assembly) :
  models s r cls hd a →
  ∃ s', addExecutiveSummary e None s = (s', Ok tt)
        ∧ models s' r cls hd
            {| a_sections := a_sections a; a_charts := a_charts a;
               a_main := a_main a ++ [CBlock (ExecutiveSummary e)];
               a_timers := a_timers a |}.
Proof.
  intros Hm. pose proof (models_container _ _ _ _ _ Hm) as Hc.
  destruct Hm as (Hinit & Hr & Hcc & Hsc & Hel & Htm).
  unfold addExecutiveSummary. cbn [default].
  rewrite (bind_Ok _ _ s s _ (query_eq SelReportContent s r _ Hc)).
  cbn [querySelector c_inner].
  rewrite (append_block_eq TMain _ s r Hr).
  eexists. split; [reflexivity|]. unfold models. split_and!; cbn; try done.
  by rewrite lookup_alter_eq, Hel.
Qed.

(** The report assembly, step by step, is the fold [assemble]: once the
    builder is initialised, [buildDemographicsReport] cannot throw. *)
Lemma buildDemographicsReport_assemble (l : bool) (reportData : report_data)
    (s : state) :
  (ensureInitialized l s).2 = Ok tt →
  ∃ r s',
    buildDemographicsReport l reportData s = (s', Ok (Some r))
    ∧ doc_elements (ensureInitialized l s).1.2 !! r = None
    ∧ models s' r "report-container"
        (default "Member Demographics Analysis" (rd_title reportData),
         if_truthy
           (default "Comprehensive demographic insights and recommendations"
              (rd_subtitle reportData)))
        (assemble (sectionCounter s.1) (chartCounter s.1) (doc_timers s.2)
           reportData).
Proof.
  intros Hok. unfold buildDemographicsReport.
  rewrite bind_unfold.
  assert (Hinit : isInitialized (ensureInitialized l s).1.1 = true
                  ∧ counters (ensureInitialized l s).1 = counters s
                  ∧ doc_timers (ensureInitialized l s).1.2 = doc_timers s.2).
  { revert Hok. rewrite ensureInitialized_cases, initialize_cases.
    destruct (isInitialized s.1) eqn:E; [done|].
    by destruct (doc_d3 s.2), l. }
  destruct (ensureInitialized l s) as [s0 [[]|e]]; [|discriminate].
  cbn [fst snd] in *. destruct Hinit as (Hinit & Hcount & Htimers).
  unfold counters in Hcount. injection Hcount as Hcc Hsc.
  rewrite bind_unfold.
  match goal with
  | |- context [createDocument ?config s0] =>
      destruct (createDocument_spec config s0) as (Hcount & r & Hres & _ & Hr & Hfresh & Hel);
      destruct (createDocument_frame config s0) as (Hinit1 & Htimers1 & _);
      destruct (createDocument config s0) as [s1 res]
  end.
  cbn [fst snd] in *. subst res.
  unfold counters in Hcount. injection Hcount as Hcc1 Hsc1.
  exists r.
  assert (Hm1 : models s1 r "report-container"
            (default "Member Demographics Analysis" (rd_title reportData),
             if_truthy
               (default "Comprehensive demographic insights and recommendations"
                  (rd_subtitle reportData)))
            {| a_sections := sectionCounter s.1; a_charts := chartCounter s.1;
               a_main := []; a_timers := doc_timers s.2 |}).
  { cbn in Hel. unfold models. split_and!; cbn; congruence. }
  assert (Hm2 : ∃ s2,
            (match if_truthy (default "" (rd_executiveSummary reportData)) with
             | Some e => addExecutiveSummary e None
             | None => mret tt
             end) s1 = (s2, Ok tt)
            ∧ models s2 r "report-container"
                (default "Member Demographics Analysis" (rd_title reportData),
                 if_truthy
                   (default "Comprehensive demographic insights and recommendations"
                      (rd_subtitle reportData)))
                {| a_sections := sectionCounter s.1; a_charts := chartCounter s.1;
                   a_main := summary_blocks reportData;
                   a_timers := doc_timers s.2 |}).
  { unfold summary_blocks.
    destruct (if_truthy (default "" (rd_executiveSummary reportData))) as [e|].
    - exact (addExecutiveSummary_models e s1 r _ _ _ Hm1).
    - by exists s1. }
  destruct Hm2 as (s2 & Hs2 & Hm2).
  rewrite (bind_Ok _ _ s1 s2 tt Hs2).
  destruct (for_each_models _ _ r _ _ (rd_sections reportData)
              (λ x s0 a0, build_section_models l x s0 r _ _ a0) _ _ Hm2)
    as (s3 & Hs3 & Hm3).
  rewrite (bind_Ok _ _ s2 s3 tt Hs3).
  exists s3. split; [|split; [done|exact Hm3]].
  rewrite (bind_Ok this _ s3 s3 s3.1 eq_refl).
  destruct Hm3 as (_ & Hr3 & _). by rewrite Hr3.
Qed.

(** *** The identifiers generated between two resets *)

Lemma container_ids_app (m1 m2 : list child) :
  container_ids (m1 ++ m2) = container_ids m1 ++ container_ids m2.
Proof. apply bind_app. Qed.

Lemma container_ids_place (t : target) (b : block) (main : list child) :
  container_ids (place_block t b main) ≡ₚ container_ids main ++ block_ids b
  ∨ container_ids (place_block t b main) = container_ids main.
Proof.
  destruct t as [|k]; cbn [place_block].
  - left. rewrite container_ids_app. cbn. by rewrite app_nil_r.
  - revert k. induction main as [|c main IH]; intros k; [by right|].
    destruct k as [|k].
    + destruct c as [sec|b']; [left|by right].
      change (((section_content sec ++ [b]) ≫= block_ids) ++ container_ids main
              ≡ₚ ((section_content sec ≫= block_ids) ++ container_ids main)
                 ++ block_ids b).
      rewrite bind_app. cbn. rewrite app_nil_r, <- !app_assoc.
      apply Permutation_app_head, Permutation_app_comm.
    + change (child_ids c ++ container_ids (alter (add_to_section b) k main)
              ≡ₚ (child_ids c ++ container_ids main) ++ block_ids b
              ∨ child_ids c ++ container_ids (alter (add_to_section b) k main)
                = child_ids c ++ container_ids main).
      destruct (IH k) as [H|H]; [left|right].
      * by rewrite H, app_assoc.
      * by rewrite H.
Qed.

Lemma numbered_place (c0 : nat) (t : target) (b : block) (a : assembly)
    (sections : nat) (timers : list (chart_type * string)) :
  block_ids b = [] → numbered c0 a →
  numbered c0 {| a_sections := sections; a_charts := a_charts a;
                 a_main := place_block t b (a_main a); a_timers := timers |}.
Proof.
  intros Hb (Hle & Hnd & Hids). unfold numbered. cbn [a_charts a_main].
  destruct (container_ids_place t b (a_main a)) as [H|H];
    [rewrite Hb, app_nil_r in H|]; split_and!; try done.
  - by rewrite H.
  - intros id Hid. rewrite H in Hid. by apply Hids.
  - by rewrite H.
  - intros id Hid. rewrite H in Hid. by apply Hids.
Qed.

Lemma chart_step_numbered (c0 : nat) (id : string) (a : assembly)
    (c : report_chart) :
  numbered c0 a → numbered c0 (chart_step id a c).
Proof.
  intros Ha. pose proof Ha as (Hle & Hnd & Hids). unfold chart_step.
  destruct (rc_type c) as [kind|]; [|done].
  destruct (ch_containerId (rc_config c) ≫= if_truthy); [done|].
  unfold numbered. cbn [a_charts a_main].
  destruct (container_ids_place (section_target id (a_main a))
              (chart_block (rc_config c) (a_charts a)) (a_main a)) as [H|H].
  - cbn [chart_block block_ids] in H. split_and!; [lia| |].
    + rewrite H. apply NoDup_app. split_and!; [done| |apply NoDup_singleton].
      intros x Hx ->%list_elem_of_singleton.
      destruct (Hids _ Hx) as (k & Hk & Hr).
      apply (chart_id_inj (S (a_charts a)) k) in Hk. lia.
    + intros x Hx. rewrite H in Hx.
      apply elem_of_app in Hx as [Hx| ->%list_elem_of_singleton].
      * destruct (Hids _ Hx) as (k & -> & Hr). exists k. split; [done|lia].
      * exists (S (a_charts a)). split; [done|lia].
  - rewrite H. split_and!; [lia|done|].
    intros x Hx. destruct (Hids _ Hx) as (k & -> & Hr). exists k. split; [done|lia].
Qed.

Lemma content_step_numbered (c0 : nat) (id : string) (a : assembly)
    (c : content_item) :
  numbered c0 a → numbered c0 (content_step id a c).
Proof.
  intros Ha. unfold content_step. apply numbered_place; [|done].
  unfold content_block. by destruct (ct_type c).
Qed.

Lemma foldl_numbered {A} (c0 : nat) (f : assembly → A → assembly) (xs : list A)
    (a : assembly) :
  (∀ a x, numbered c0 a → numbered c0 (f a x)) →
  numbered c0 a → numbered c0 (foldl f a xs).
Proof.
  intros Hf. revert a. induction xs as [|x xs IH]; intros a Ha; [done|].
  cbn. apply IH. by apply Hf.
Qed.

Lemma section_step_numbered (c0 : nat) (a : assembly) (sd : section_data) :
  numbered c0 a → numbered c0 (section_step a sd).
Proof.
  intros (Hle & Hnd & Hids). unfold section_step.
  apply foldl_numbered; [intros; by apply content_step_numbered|].
  apply foldl_numbered; [intros; by apply chart_step_numbered|].
  unfold numbered. cbn [a_charts a_main].
  rewrite container_ids_app. cbn. by rewrite app_nil_r.
Qed.

Lemma assemble_numbered (sections charts : nat)
    (timers : list (chart_type * string)) (reportData : report_data) :
  numbered charts (assemble sections charts timers reportData).
Proof.
  unfold assemble. apply foldl_numbered; [intros; by apply section_step_numbered|].
  unfold numbered, summary_blocks. cbn [a_charts a_main].
  split; [done|].
  destruct (if_truthy _); cbn; (split; [constructor|]);
    intros id Hid; by apply elem_of_nil in Hid.
Qed.

(** The chart containers of the document that a report call has built
    carry distinct ids, made from the counter values that the call has
    passed. *)
Lemma report_generated (l : bool) (reportData : report_data) (s : state) :
  let o := BuildDemographicsReport l reportData in
  NoDup (generated o (exec o s).2 (exec o s).1)
  ∧ ∀ id, id ∈ generated o (exec o s).2 (exec o s).1 →
      ∃ k, id = chart_id k
           ∧ chartCounter s.1 < k ≤ chartCounter (exec o s).1.1.
Proof.
  cbn zeta. cbn [exec]. unfold other. rewrite bind_unfold.
  destruct (ensureInitialized l s) as [s0 [[]|e]] eqn:E.
  - destruct (buildDemographicsReport_assemble l reportData s) as (r & s' & Hrun & _ & Hm);
      [by rewrite E|].
    rewrite Hrun. unfold mret, M_ret. cbn [fst snd generated].
    pose proof (assemble_numbered (sectionCounter s.1) (chartCounter s.1)
                  (doc_timers s.2) reportData) as (_ & Hnd & Hids).
    destruct Hm as (_ & Hr & Hcc & _ & Hel & _).
    unfold current_ids. rewrite Hr. cbn. rewrite Hel. cbn. rewrite Hcc.
    by split.
  - assert (buildDemographicsReport l reportData s = (s0, Throw e)) as ->.
    { unfold buildDemographicsReport. rewrite bind_unfold. by rewrite E. }
    cbn. split; [constructor|]. intros id Hid. by apply elem_of_nil in Hid.
Qed.

(** What a call other than [reset] generates: distinct ids, made from the
    counter values that the call has passed. *)
Lemma exec_generated_ids (o : op) (s : state) :
  is_reset o = false →
  NoDup (generated o (exec o s).2 (exec o s).1)
  ∧ ∀ id, id ∈ generated o (exec o s).2 (exec o s).1 →
      ∃ k, id = chart_id k
           ∧ chartCounter s.1 < k ≤ chartCounter (exec o s).1.1.
Proof.
  intros Hr.
  assert (Hone : (∀ l r, o ≠ BuildDemographicsReport l r) →
            NoDup (generated o (exec o s).2 (exec o s).1)
            ∧ ∀ id, id ∈ generated o (exec o s).2 (exec o s).1 →
                ∃ k, id = chart_id k
                     ∧ chartCounter s.1 < k ≤ chartCounter (exec o s).1.1).
  { intros Hno.
    assert (Hgen : generated o (exec o s).2 (exec o s).1
                   = match (exec o s).2 with
                     | Ok (Id id) => if generates_chart_id o then [id] else []
                     | _ => []
                     end).
    { destruct o; try done. by destruct (Hno script_loads reportData). }
    rewrite Hgen.
    destruct ((exec o s).2) as [[id|]|e] eqn:E;
      try (split; [constructor|]; intros id' Hid'; by apply elem_of_nil in Hid').
    destruct (generates_chart_id o) eqn:G;
      [|split; [constructor|]; intros id' Hid'; by apply elem_of_nil in Hid'].
    destruct (exec_generated o s id G E) as [-> Hlt].
    split; [apply NoDup_singleton|].
    intros id' ->%list_elem_of_singleton. eexists. split; [done|lia]. }
  destruct o; try (apply Hone; by intros).
  apply report_generated.
Qed.

(** Between two resets the generated identifiers carry strictly increasing
    counter values. *)
Lemma run_generated (ops : list op) :
  Forall (λ o, is_reset o = false) ops →
  ∀ s, (∀ id, id ∈ (run ops s).2 → ∃ n, id = chart_id n ∧ chartCounter s.1 < n)
       ∧ NoDup (run ops s).2.
Proof.
  induction 1 as [|o ops Ho _ IH]; intros s.
  - simpl. split; [|constructor]. intros id Hid. by apply elem_of_nil in Hid.
  - rewrite run_cons. cbn [snd].
    destruct (IH (exec o s).1) as [Hrest Hnodup].
    destruct (exec_generated_ids o s Ho) as [Hnd Hids].
    split.
    + intros id [Hid|Hid]%elem_of_app.
      * destruct (Hids id Hid) as (k & -> & Hk). exists k. split; [done|lia].
      * destruct (Hrest id Hid) as (n & -> & Hn). exists n. split; [done|].
        destruct (exec_grows o Ho s) as [Hgrow _]. lia.
    + apply NoDup_app. split_and!; [done| |done].
      intros id Hid Hin.
      destruct (Hids id Hid) as (k & -> & Hk).
      destruct (Hrest _ Hin) as (n & Heq & Hn).
      apply chart_id_inj in Heq. lia.
Qed.

(** C9, as stated, fails: [reset] puts both counters back to zero, and
    the next container gets an identifier that was given out before. *)
Lemma counters_monotone_counterexample :
  ¬ counters_monotone ∧ ¬ generated_ids_unique.
Proof.
  split.
  - intros H.
    destruct (H Reset (with_chartCounter 1 constructor, empty_document)) as [H1 _].
    simpl in H1. lia.
  - intros H.
    specialize (H [ CreateDocument default_document;
                    CreateChartContainer default_container;
                    Reset;
                    CreateDocument default_document;
                    CreateChartContainer default_container ] initial_state).
    vm_compute in H. apply NoDup_cons in H as [H _].
    apply H. by left.
Qed.

(** C9, amended. No operation of a builder other than [reset] decreases
    [chartCounter] or [sectionCounter]; [reset] sets both to zero; building
    a new document leaves them as they are; and in any sequence of calls
    without [reset], whether or not some of them throw, the container
    identifiers generated from [chartCounter] are pairwise distinct: those
    that [createChartContainer] and the chart methods return, and those
    that [buildDemographicsReport] gives to the chart containers of the
    documents it builds. *)
Theorem counters_between_resets :
  (∀ o, is_reset o = false → grows (exec o))
  ∧ (∀ s, counters (exec Reset s).1 = (0, 0))
  ∧ (∀ config s, counters (createDocument config s).1 = counters s)
  ∧ (∀ ops s, Forall (λ o, is_reset o = false) ops → NoDup (run ops s).2).
Proof.
  split; [exact exec_grows|]. split.
  { intros [b d]. change (exec Reset (b, d)) with (other reset (b, d)).
    unfold other, reset. rewrite !bind_unfold. cbn [this fst snd].
    destruct (currentDocument b); reflexivity. }
  split; [intros config s; apply createDocument_spec|].
  intros ops s Hops. by apply run_generated.
Qed.

(** The identifiers made inside reports are among those listed: two
    reports with one chart each, and a chart created in between. *)
Example reports_generate_ids :
  let report :=
    {| rd_title := None; rd_subtitle := None; rd_executiveSummary := None;
       rd_sections :=
         [ {| sd_title := Some "Age"; sd_subtitle := None;
              sd_charts :=
                [ {| rc_type := Some pie;
                     rc_config := {| ch_containerId := None; ch_title := None;
                                     ch_parentSelector := None |} |} ];
              sd_content := [] |} ] |} in
  (run [ BuildDemographicsReport true report;
         CreateChart doughnut true
           {| ch_containerId := None; ch_title := None;
              ch_parentSelector := None |};
         BuildDemographicsReport true report ] initial_state).2
  = ["chart-1"; "chart-2"; "chart-3"].
Proof. vm_compute. reflexivity. Qed.

(** The section identifiers are not covered by the above: a section given
    a title does not advance [sectionCounter], so two titled sections of a
    fresh builder both get the identifier [section-0]. *)
Example titled_sections_share_an_id :
  let s1 := (createDocument default_document initial_state).1 in
  let s2 := (createSection (titled "Age") s1).1 in
  (createSection (titled "Age") s1).2 = Ok "section-0"
  ∧ (createSection (titled "Income") s2).2 = Ok "section-0".
Proof. split; vm_compute; reflexivity. Qed.

Lemma ensureInitialized_ok (l : bool) (s : state) :
  isInitialized s.1 = true ∨ doc_d3 s.2 = D3Loaded ∨ l = true →
  (ensureInitialized l s).2 = Ok tt
  ∧ doc_elements (ensureInitialized l s).1.2 = doc_elements s.2.
Proof.
  rewrite ensureInitialized_cases, initialize_cases.
  destruct (isInitialized s.1); [done|].
  intros [|[H|H]]; [done|by rewrite H|]; subst l.
  by destruct (doc_d3 s.2).
Qed.

Lemma models_current_main (s : state) (r : nat) (cls : string)
    (hd : string * option string) (a : assembly) :
  models s r cls hd a → current_main s = Some (a_main a).
Proof.
  intros (_ & Hr & _ & _ & Hel & _). unfold current_main.
  rewrite Hr. cbn. by rewrite Hel.
Qed.

(** *** What the assembly does to the sections and the drawings *)

Lemma sections_of_app (m1 m2 : list child) :
  sections_of (m1 ++ m2) = sections_of m1 ++ sections_of m2.
Proof. apply omap_app. Qed.

Lemma titles_place_block (t : target) (b : block) (main : list child) :
  section_title <$> sections_of (place_block t b main)
  = section_title <$> sections_of main.
Proof.
  destruct t as [|k]; cbn.
  - by rewrite sections_of_app, app_nil_r.
  - revert k. induction main as [|c main IH]; intros k; [done|].
    destruct k as [|k].
    + by destruct c.
    + specialize (IH k). destruct c; cbn in *; by rewrite ?IH.
Qed.

Lemma chart_step_facts (id : string) (a : assembly) (c : report_chart) :
  a_sections (chart_step id a c) = a_sections a
  ∧ a_charts (chart_step id a c) = a_charts a + made c
  ∧ (a_timers (chart_step id a c)).*1 = (a_timers a).*1 ++ option_list (rc_type c)
  ∧ section_title <$> sections_of (a_main (chart_step id a c))
    = section_title <$> sections_of (a_main a).
Proof.
  unfold chart_step, made, needs_container.
  destruct (rc_type c) as [kind|]; cbn; [|by rewrite app_nil_r, Nat.add_0_r].
  destruct (ch_containerId (rc_config c) ≫= if_truthy); cbn;
    rewrite ?fmap_app, ?titles_place_block; split_and!; try done; lia.
Qed.

Lemma content_step_facts (id : string) (a : assembly) (c : content_item) :
  a_sections (content_step id a c) = a_sections a
  ∧ a_charts (content_step id a c) = a_charts a
  ∧ a_timers (content_step id a c) = a_timers a
  ∧ section_title <$> sections_of (a_main (content_step id a c))
    = section_title <$> sections_of (a_main a).
Proof. unfold content_step; cbn. by rewrite titles_place_block. Qed.

Lemma charts_fold_facts (id : string) (cs : list report_chart) (a : assembly) :
  a_sections (foldl (chart_step id) a cs) = a_sections a
  ∧ a_charts (foldl (chart_step id) a cs) = a_charts a + sum_list_with made cs
  ∧ (a_timers (foldl (chart_step id) a cs)).*1
    = (a_timers a).*1 ++ omap rc_type cs
  ∧ section_title <$> sections_of (a_main (foldl (chart_step id) a cs))
    = section_title <$> sections_of (a_main a).
Proof.
  revert a. induction cs as [|c cs IH]; intros a; cbn [foldl sum_list_with].
  - cbn. by rewrite app_nil_r, Nat.add_0_r.
  - destruct (IH (chart_step id a c)) as (-> & -> & -> & ->).
    destruct (chart_step_facts id a c) as (-> & -> & -> & ->).
    rewrite <- app_assoc. split_and!; try done; [lia|].
    f_equal. cbn. by destruct (rc_type c).
Qed.

Lemma content_fold_facts (id : string) (cs : list content_item) (a : assembly) :
  a_sections (foldl (content_step id) a cs) = a_sections a
  ∧ a_charts (foldl (content_step id) a cs) = a_charts a
  ∧ a_timers (foldl (content_step id) a cs) = a_timers a
  ∧ section_title <$> sections_of (a_main (foldl (content_step id) a cs))
    = section_title <$> sections_of (a_main a).
Proof.
  revert a. induction cs as [|c cs IH]; intros a; cbn [foldl]; [done|].
  destruct (IH (content_step id a c)) as (-> & -> & -> & ->).
  apply content_step_facts.
Qed.

Lemma section_step_facts (a : assembly) (sd : section_data) :
  a_charts (section_step a sd) = a_charts a + sum_list_with made (sd_charts sd)
  ∧ (a_timers (section_step a sd)).*1
    = (a_timers a).*1 ++ omap rc_type (sd_charts sd)
  ∧ ∃ t, section_title <$> sections_of (a_main (section_step a sd))
         = (section_title <$> sections_of (a_main a)) ++ [t]
         ∧ ∀ t', sd_title sd = Some t' → t = t'.
Proof.
  unfold section_step.
  match goal with
  | |- context [foldl (content_step ?id) ?a2 _] =>
      destruct (content_fold_facts id (sd_content sd) a2) as (_ & -> & -> & ->)
  end.
  match goal with
  | |- context [foldl (chart_step ?id) ?a1 _] =>
      destruct (charts_fold_facts id (sd_charts sd) a1) as (_ & -> & -> & ->)
  end.
  cbn [a_charts a_timers a_main]. split_and!; try done.
  rewrite sections_of_app, fmap_app. eexists. split; [reflexivity|].
  intros t' Ht'. unfold new_section, section_config_of. cbn. by rewrite Ht'.
Qed.

Lemma sections_fold_facts (sds : list section_data) (a : assembly) :
  a_charts (foldl section_step a sds)
  = a_charts a + sum_list_with made (concat (sd_charts <$> sds))
  ∧ (a_timers (foldl section_step a sds)).*1
    = (a_timers a).*1 ++ omap rc_type (concat (sd_charts <$> sds))
  ∧ ∃ ts, section_title <$> sections_of (a_main (foldl section_step a sds))
          = (section_title <$> sections_of (a_main a)) ++ ts
          ∧ Forall2 (λ t sd, ∀ t', sd_title sd = Some t' → t = t') ts sds.
Proof.
  revert a. induction sds as [|sd sds IH]; intros a; cbn [foldl fmap list_fmap concat].
  - cbn. rewrite !app_nil_r, Nat.add_0_r. split_and!; try done.
    exists []. by rewrite app_nil_r.
  - destruct (IH (section_step a sd)) as (-> & -> & ts & -> & Hts).
    destruct (section_step_facts a sd) as (-> & -> & t & -> & Ht).
    rewrite sum_list_with_app, omap_app, <- !app_assoc.
    split_and!; try done; [lia|].
    exists (t :: ts). split; [done|]. by constructor.
Qed.

(** X13. Once the builder is initialised, or the library is there or its
    script loads, [buildDemographicsReport] does not throw on a report
    whose texts hold no markup, whatever its sections, charts and contents
    are: it returns a container that did not exist before,
    holding one section per section entry, in order and under the titles
    given; one drawing is scheduled for each chart entry of a known type,
    in the order of the entries, and entries of any other type are skipped
    silently; the chart counter advances by the number of known entries
    that name no container. *)
Theorem report_sections_and_drawings (l : bool) (reportData : report_data)
    (s : state) :
  isInitialized s.1 = true ∨ doc_d3 s.2 = D3Loaded ∨ l = true →
  plain_report reportData = true →
  ∃ r s' main,
    buildDemographicsReport l reportData s = (s', Ok (Some r))
    ∧ doc_elements s.2 !! r = None
    ∧ currentDocument s'.1 = Some r
    ∧ current_main s' = Some main
    ∧ Forall2 (λ sec sd, ∀ t, sd_title sd = Some t → section_title sec = t)
        (sections_of main) (rd_sections reportData)
    ∧ (doc_timers s'.2).*1
      = (doc_timers s.2).*1
        ++ omap rc_type (concat (sd_charts <$> rd_sections reportData))
    ∧ chartCounter s'.1
      = chartCounter s.1
        + sum_list_with made (concat (sd_charts <$> rd_sections reportData)).
Proof.
  intros Hinit _. destruct (ensureInitialized_ok l s Hinit) as (Hok & Hel).
  destruct (buildDemographicsReport_assemble l reportData s Hok)
    as (r & s' & Hrun & Hfresh & Hm).
  rewrite Hel in Hfresh.
  exists r, s', (a_main (assemble (sectionCounter s.1) (chartCounter s.1)
                           (doc_timers s.2) reportData)).
  pose proof (models_current_main _ _ _ _ _ Hm) as Hmain.
  destruct Hm as (_ & Hr & Hcc & _ & _ & Htm).
  rewrite Hcc, Htm. unfold assemble.
  match goal with
  | |- context [foldl section_step ?a0 _] =>
      destruct (sections_fold_facts (rd_sections reportData) a0)
        as (-> & -> & ts & Hts & Hall)
  end.
  split_and!; try done.
  assert (sections_of (summary_blocks reportData) = []) as Hnil.
  { unfold summary_blocks. by destruct (if_truthy _). }
  cbn [a_main] in Hts. rewrite Hnil in Hts. cbn in Hts. subst ts.
  by apply Forall2_fmap_l in Hall.
Qed.

Lemma report_sections_and_drawings_witness :
  ∃ r s' main,
    buildDemographicsReport true
      {| rd_title := None; rd_subtitle := None; rd_executiveSummary := Some "s";
         rd_sections :=
           [ {| sd_title := Some "Age"; sd_subtitle := None;
                sd_charts :=
                  [ {| rc_type := Some pie;
                       rc_config := {| ch_containerId := None; ch_title := None;
                                       ch_parentSelector := None |} |};
                    {| rc_type := None;
                       rc_config := {| ch_containerId := None; ch_title := None;
                                       ch_parentSelector := None |} |} ];
                sd_content := [] |} ] |}
      initial_state = (s', Ok (Some r))
    ∧ current_main s' = Some main
    ∧ section_title <$> sections_of main = ["Age"]
    ∧ (doc_timers s'.2).*1 = [pie]
    ∧ chartCounter s'.1 = 1.
Proof.
  destruct (report_sections_and_drawings true
    {| rd_title := None; rd_subtitle := None; rd_executiveSummary := Some "s";
       rd_sections :=
         [ {| sd_title := Some "Age"; sd_subtitle := None;
              sd_charts :=
                [ {| rc_type := Some pie;
                     rc_config := {| ch_containerId := None; ch_title := None;
                                     ch_parentSelector := None |} |};
                  {| rc_type := None;
                     rc_config := {| ch_containerId := None; ch_title := None;
                                     ch_parentSelector := None |} |} ];
              sd_content := [] |} ] |}
    initial_state (or_intror (or_intror eq_refl)) eq_refl)
    as (r & s' & main & Hrun & _ & _ & Hmain & Hsec & Htm & Hcc).
  exists r, s', main. split_and!; try done.
  cbn in Hsec. inversion Hsec as [|sec sd secs sds Ht Hrest]; subst.
  inversion Hrest; subst. cbn. by rewrite (Ht "Age" eq_refl).
Defined.

(** *** Sections that share an identifier *)



Section FirstSection.
Variables (id : string) (pre : list child) (hdr : section).
Hypothesis Hpre : Forall (λ c, has_id id c = false) pre.
Hypothesis Hid : section_id hdr = id.





End FirstSection.








(** X15. Without the library, on a builder that is not initialised and
    whose script fails to load, [buildDemographicsReport] throws the load
    error before it touches the document: the builder, the body and the
    elements are as before, no drawing is scheduled, and the only traces
    are the script element in the head and the logged error. *)
Theorem report_fails_without_library (reportData : report_data) (s : state) :
  isInitialized s.1 = false → doc_d3 s.2 ≠ D3Loaded →
  (buildDemographicsReport false reportData s).2 = Throw (Error "script error")
  ∧ (buildDemographicsReport false reportData s).1.1 = s.1
  ∧ doc_body (buildDemographicsReport false reportData s).1.2 = doc_body s.2
  ∧ doc_elements (buildDemographicsReport false reportData s).1.2 = doc_elements s.2
  ∧ doc_timers (buildDemographicsReport false reportData s).1.2 = doc_timers s.2
  ∧ doc_head (buildDemographicsReport false reportData s).1.2
    = doc_head s.2 ++ [Script "https://cdn.jsdelivr.net/npm/d3@7"]
  ∧ doc_console (buildDemographicsReport false reportData s).1.2
    = doc_console s.2 ++ [(ErrorLevel, "Failed to initialize PageBuilder:")].
Proof.
  intros Hinit Hd3. unfold buildDemographicsReport. rewrite bind_unfold.
  rewrite ensureInitialized_cases, initialize_cases, Hinit.
  by destruct (doc_d3 s.2).
Qed.

Lemma report_fails_without_library_witness :
  (buildDemographicsReport false
     {| rd_title := None; rd_subtitle := None; rd_executiveSummary := None;
        rd_sections := [] |} initial_state).2
  = Throw (Error "script error").
Proof.
  apply (report_fails_without_library
           {| rd_title := None; rd_subtitle := None; rd_executiveSummary := None;
              rd_sections := [] |} initial_state); [reflexivity|discriminate].
Defined.

(** *** The chart methods *)

Lemma list_find_first_section (pre tl : list child) (sec : section) :
  Forall (λ c, is_section c = false) pre →
  list_find (λ c, is_section c = true) (pre ++ CSection sec :: tl)
  = Some (length pre, CSection sec).
Proof.
  intros Hpre. apply list_find_Some. split_and!.
  - by rewrite lookup_app_r, Nat.sub_diag.
  - done.
  - intros j y Hj Hlt. rewrite lookup_app_l in Hj by done.
    rewrite Forall_lookup in Hpre. specialize (Hpre _ _ Hj). cbn in Hpre.
    congruence.
Qed.

Lemma list_find_no_section (main : list child) :
  Forall (λ c, is_section c = false) main →
  list_find (λ c, is_section c = true) main = None.
Proof.
  intros H. apply list_find_None. eapply Forall_impl; [exact H|].
  cbn. congruence.
Qed.

Lemma createChart_new_container (kind : chart_type) (l : bool)
    (config : chart_config) (s : state) (r : nat) (c : container) (t : target) :
  isInitialized s.1 = true → has_container s r c →
  ch_containerId config ≫= if_truthy = None →
  resolve c (default SelSectionContent (ch_parentSelector config)) = Some t →
  let id := "chart-" +:+ pretty (S (chartCounter s.1)) in
  createChart kind l config s
  = ((with_chartCounter (S (chartCounter s.1)) s.1,
      with_timers (λ t, t ++ [(kind, id)])
        (with_elements
           (alter (with_main
                     (place_block t
                        (ChartContainer id "chart-container"
                           (if_truthy (default "" (ch_title config))))))
              r) s.2)),
     Ok id).
Proof.
  intros Hinit Hc Hid Ht id. unfold createChart.
  rewrite (bind_Ok _ _ s s tt (ensureInitialized_done l s Hinit)).
  rewrite Hid, bind_unfold.
  erewrite createChartContainer_eq; [|exact Hc|exact Ht].
  reflexivity.
Qed.

(** X16. The chart methods on an initialised builder. With a container
    identifier that is not the empty string, nothing is added to the
    document and no counter moves: the drawing is scheduled for that
    identifier, document or not. Without one, a container [chart-N] is made
    and the drawing scheduled for it; when no parent is named, and the
    document is one without markup in which only the content areas of the
    sections have the class [section-content], the container goes to the
    first section of the document, whichever section was created last, and
    to the end of the main area when the document has no section. *)
Theorem createChart_container (kind : chart_type) (l : bool)
    (config : chart_config) (s : state) :
  isInitialized s.1 = true →
  (∀ given, ch_containerId config ≫= if_truthy = Some given →
     createChart kind l config s
     = ((s.1, with_timers (λ t, t ++ [(kind, given)]) s.2), Ok given))
  ∧ (∀ r inn, ch_containerId config ≫= if_truthy = None →
       ch_parentSelector config = None →
       has_document s r inn → plain_inner inn →
       let id := "chart-" +:+ pretty (S (chartCounter s.1)) in
       let made :=
         ChartContainer id "chart-container"
           (if_truthy (default "" (ch_title config))) in
       (createChart kind l config s).2 = Ok id
       ∧ chartCounter (createChart kind l config s).1.1 = S (chartCounter s.1)
       ∧ doc_timers (createChart kind l config s).1.2
         = doc_timers s.2 ++ [(kind, id)]
       ∧ (Forall (λ c, is_section c = false) (i_main inn) →
            current_main (createChart kind l config s).1
            = Some (i_main inn ++ [CBlock made]))
       ∧ (∀ pre sec tl,
            i_main inn = pre ++ CSection sec :: tl →
            Forall (λ c, is_section c = false) pre →
            current_main (createChart kind l config s).1
            = Some (pre
                    ++ CSection (with_content (section_content sec ++ [made]) sec)
                       :: tl))).
Proof.
  intros Hinit. split.
  - intros given Hid. unfold createChart.
    rewrite (bind_Ok _ _ s s tt (ensureInitialized_done l s Hinit)).
    by rewrite Hid.
  - intros r inn Hid Hsel (c & Hc & Hinn) _ id made.
    assert (Hmain : ∀ t,
              resolve c SelSectionContent = Some t →
              (createChart kind l config s).2 = Ok id
              ∧ chartCounter (createChart kind l config s).1.1
                = S (chartCounter s.1)
              ∧ doc_timers (createChart kind l config s).1.2
                = doc_timers s.2 ++ [(kind, id)]
              ∧ current_main (createChart kind l config s).1
                = Some (place_block t made (i_main inn))).
    { intros t Ht.
      rewrite (createChart_new_container kind l config s r c t Hinit Hc Hid)
        by (by rewrite Hsel).
      split_and!; try done.
      destruct Hc as [Hr Hel]. unfold current_main. cbn. rewrite Hr. cbn.
      rewrite lookup_alter_eq, Hel. cbn. by rewrite Hinn. }
    assert (Hres : resolve c SelSectionContent
                   = Some (match list_find (λ c, is_section c = true) (i_main inn) with
                           | Some x => TSection x.1
                           | None => TMain
                           end)).
    { unfold resolve, querySelector. rewrite Hinn.
      by destruct (list_find _ (i_main inn)). }
    destruct (Hmain _ Hres) as (H1 & H2 & H3 & H4).
    split_and!; try done.
    + intros Hno. by rewrite H4, (list_find_no_section _ Hno).
    + intros pre sec tl Hshape Hpre. rewrite H4, Hshape.
      rewrite (list_find_first_section pre tl sec Hpre). cbn [fst place_block].
      rewrite <- (Nat.add_0_r (length pre)). by rewrite alter_app_r.
Qed.

Lemma createChart_container_witness :
  let given := {| ch_containerId := Some "mine"; ch_title := None;
                  ch_parentSelector := None |} in
  let fresh := {| ch_containerId := None; ch_title := Some "Shares";
                  ch_parentSelector := None |} in
  let s0 := (with_isInitialized true constructor, empty_document) in
  let s2 :=
    (createSection (titled "Income")
       (createSection (titled "Age")
          (createDocument default_document s0).1).1).1 in
  createChart pie false given s0
  = ((s0.1, with_timers (λ t, t ++ [(pie, "mine")]) s0.2), Ok "mine")
  ∧ (createChart pie false fresh s2).2 = Ok "chart-1"
  ∧ current_main (createChart pie false fresh s2).1
    = Some [ CSection
               (with_content
                  [ChartContainer "chart-1" "chart-container" (Some "Shares")]
                  (new_section (titled "Age") 0));
             CSection (new_section (titled "Income") 0) ].
Proof.
  intros given fresh s0 s2. split.
  - apply (createChart_container pie false given s0 eq_refl). reflexivity.
  - destruct (proj2 (createChart_container pie false fresh s2 eq_refl) 0
                {| i_title := "Analysis Report"; i_subtitle := None;
                   i_main := [ CSection (new_section (titled "Age") 0);
                               CSection (new_section (titled "Income") 0) ] |}
                eq_refl eq_refl)
      as (Hid & _ & _ & _ & Hfirst).
    + eexists. split; [split; vm_compute; reflexivity|reflexivity].
    + split; [reflexivity|]. split; [reflexivity|].
      repeat constructor.
    + split; [exact Hid|].
      exact (Hfirst [] (new_section (titled "Age") 0)
               [CSection (new_section (titled "Income") 0)] eq_refl (Forall_nil_2 _)).
Defined.

End MoreBuilder.
